(** * Verification of the chat-bot runtime core

    A shallow embedding of the TypeScript sources (response policy, rate
    limiter, approval engine, risk policy, audit chain, update store and
    provider fallback) together with the properties the specification
    states about them. *)

From Stdlib Require Import ZArith NArith QArith Qround List Bool Lia String Ascii DecimalString.
From stdpp Require Import base gmap list sorting strings.

Local Open Scope Z_scope.

Set Warnings "-register-all".

(** ** JavaScript strings

    A JavaScript string is a sequence of UTF-16 code units.  Literals of the
    sources are written [js "..."]; they are all ASCII. *)

Abbreviation jsstring := (list N).

Fixpoint js (s : string) : jsstring :=
  match s with
  | EmptyString => []
  | String c r => N_of_ascii c :: js r
  end.

(** [String(n)] for an integer [n]. *)
Definition stringOfInt (n : Z) : jsstring := js (NilZero.string_of_int (Z.to_int n)).

Module JS.

(** [WhiteSpace] and [LineTerminator] of ECMA-262: the characters removed by
    [String.prototype.trim] and matched by the class [\s]. *)
Definition isWhiteSpace (c : N) : bool :=
  ((9 <=? c) && (c <=? 13) || (c =? 32) || (c =? 160) || (c =? 5760)
   || (8192 <=? c) && (c <=? 8202) || (c =? 8232) || (c =? 8233)
   || (c =? 8239) || (c =? 8287) || (c =? 12288) || (c =? 65279))%N.

Fixpoint trimStart (s : jsstring) : jsstring :=
  match s with
  | [] => []
  | c :: r => if isWhiteSpace c then trimStart r else s
  end.

Definition trimEnd (s : jsstring) : jsstring := rev (trimStart (rev s)).

(** [s.trim()] *)
Definition trim (s : jsstring) : jsstring := trimEnd (trimStart s).

(** [s.replace(/\s+/g, " ")]: every maximal run of white space becomes one
    space.  [inRun] records that the previous character was white space. *)
Fixpoint collapseFrom (inRun : bool) (s : jsstring) : jsstring :=
  match s with
  | [] => []
  | c :: r =>
      if isWhiteSpace c
      then (if inRun then collapseFrom true r else 32%N :: collapseFrom true r)
      else c :: collapseFrom false r
  end.

Definition collapseWhiteSpace (s : jsstring) : jsstring := collapseFrom false s.

(** The class [\w] without the [u] flag: [A-Za-z0-9_]. *)
Definition isWordChar (c : N) : bool :=
  ((65 <=? c) && (c <=? 90) || (97 <=? c) && (c <=? 122)
   || (48 <=? c) && (c <=? 57) || (c =? 95))%N.

(** [Canonicalize] of ECMA-262 for a regular expression with the [i] flag
    and without the [u] flag, on ASCII: a lower-case letter maps to its
    upper-case form.  A code unit of 128 or more never canonicalizes to an
    ASCII one, and is compared here only with ASCII pattern characters, so
    it is left as it is. *)
Definition canonicalize (c : N) : N :=
  if ((97 <=? c) && (c <=? 122))%N then (c - 32)%N else c.

Definition charMatchesCI (p c : N) : bool :=
  (canonicalize p =? canonicalize c)%N.

(** Match the literal [pat] case-insensitively at the head of [s]; the rest
    of [s] is returned on success. *)
Fixpoint stripPrefixCI (pat s : jsstring) : option jsstring :=
  match pat with
  | [] => Some s
  | p :: pat' =>
      match s with
      | [] => None
      | c :: s' => if charMatchesCI p c then stripPrefixCI pat' s' else None
      end
  end.

Definition isWordAt (o : option N) : bool :=
  match o with
  | Some c => isWordChar c
  | None => false
  end.

(** The assertion [\b] between a previous and a next character (absent at
    the ends of the input). *)
Definition wordBoundary (prev next : option N) : bool :=
  xorb (isWordAt prev) (isWordAt next).

(** [/\b<pat>\b/i] tried at one position; [prev] is the character before
    the position and [lastp] the last character consumed so far. *)
Definition matchBoundedHere (pat : jsstring) (prev : option N) (s : jsstring) : bool :=
  wordBoundary prev (head s)
  && match stripPrefixCI pat s with
     | Some rest =>
         wordBoundary (match last (firstn (length pat) s) with
                       | Some c => Some c
                       | None => prev
                       end) (head rest)
     | None => false
     end.

(** [/\b<pat>\b/i.test(s)]: the match is tried at every position, from
    left to right. *)
Fixpoint searchBounded (pat : jsstring) (prev : option N) (s : jsstring) : bool :=
  matchBoundedHere pat prev s
  || match s with
     | [] => false
     | c :: r => searchBounded pat (Some c) r
     end.

Definition testBoundedCI (pat s : jsstring) : bool := searchBounded pat None s.

(** [/^<pat>[.!]*$/i.test(s)] *)
Definition isDotOrBang (c : N) : bool := ((c =? 46) || (c =? 33))%N.

Definition testAnchoredPunctCI (pat s : jsstring) : bool :=
  match stripPrefixCI pat s with
  | Some rest => forallb isDotOrBang rest
  | None => false
  end.

(** *** What the patterns mean

    The two shapes of regular expression of the sources, read as
    propositions on the input. *)

(** Two strings of the same length agree character by character, letter
    case apart. *)
Definition ciEqual (pat mid : jsstring) : Prop :=
  Forall2 (fun p c => charMatchesCI p c = true) pat mid.

Definition lastOr (prev : option N) (l : jsstring) : option N :=
  match last l with
  | Some c => Some c
  | None => prev
  end.

(** [/\b<pat>\b/i] matches inside [s]: some occurrence [mid] of the literal
    has a word boundary on each side. *)
Definition MatchesBounded (pat s : jsstring) : Prop :=
  exists pre mid post,
    s = pre ++ mid ++ post
    /\ ciEqual pat mid
    /\ wordBoundary (last pre) (head (mid ++ post)) = true
    /\ wordBoundary (last (pre ++ mid)) (head post) = true.

(** [/^<pat>[.!]*$/i] matches [s]: the literal, then only dots and
    exclamation marks. *)
Definition MatchesAnchoredPunct (pat s : jsstring) : Prop :=
  exists mid rest,
    s = mid ++ rest /\ ciEqual pat mid /\ Forall (fun c => isDotOrBang c = true) rest.

(** [lines.join(sep)] *)
Fixpoint join (sep : jsstring) (l : list jsstring) : jsstring :=
  match l with
  | [] => []
  | [x] => x
  | x :: r => x ++ sep ++ join sep r
  end.

(** [s.startsWith(p)] *)
Fixpoint startsWith (p s : jsstring) : bool :=
  match p with
  | [] => true
  | a :: p' =>
      match s with
      | [] => false
      | b :: s' => (a =? b)%N && startsWith p' s'
      end
  end.

(** [s.includes(p)] *)
Fixpoint includes (p s : jsstring) : bool :=
  startsWith p s
  || match s with
     | [] => false
     | _ :: r => includes p r
     end.

End JS.

(** ** JSON-like values

    Values of TypeScript type [unknown] that reach the modelled code are
    documents: the numbers are of an arbitrary type [num], an object is the
    list of its entries in the order of [Object.entries]. *)

Inductive json (num : Type) : Type :=
| JNull
| JBool (b : bool)
| JNum (n : num)
| JStr (s : jsstring)
| JArr (items : list (json num))
| JObj (entries : list (jsstring * json num)).

Arguments JNull {num}.
Arguments JBool {num} b.
Arguments JNum {num} n.
Arguments JStr {num} s.
Arguments JArr {num} items.
Arguments JObj {num} entries.

(** [obj[key]] for an object given by its entries; [None] is [undefined]. *)
Fixpoint getProp {num} (key : jsstring) (entries : list (jsstring * json num))
  : option (json num) :=
  match entries with
  | [] => None
  | (k, v) :: r => if decide (k = key) then Some v else getProp key r
  end.

(** ** Response policy ([agent/response-policy.ts]) *)

Module ResponsePolicy.
Section WithNumbers.
Context {num : Type}.

Definition APPROVAL_PENDING_SUFFIX : jsstring :=
  10%N :: 10%N ::
  js "Approval pending for critical operation. Use the approval buttons in chat.".
Definition NEXT_APPROVAL_PENDING_SUFFIX : jsstring :=
  10%N :: 10%N ::
  js "Another protected action is pending approval. Use the approval buttons in chat.".

Definition PLAIN_TEXT_APPROVAL_PATTERNS : list jsstring :=
  [ js "do you approve";
    js "need your explicit approval";
    js "approval required";
    js "approve this transaction";
    js "pending your approval" ].

Definition TRIVIAL_COMPLETION_PATTERNS : list jsstring :=
  [ js "done"; js "completed"; js "complete"; js "all set";
    js "finished"; js "task done"; js "action done" ].

Record ToolResultPart := {
  toolName : jsstring;
  toolCallId : jsstring;
  output : json num;
}.

Record ResolvedTurnResponse := {
  text : jsstring;
  forcedApprovedStatus : bool;
}.

Definition isRecord (value : json num) : bool :=
  match value with
  | JArr _ | JObj _ => true
  | _ => false
  end.

(** [value.key] on a value known to be an object or an array; a document
    array has no named properties. *)
Definition prop (value : json num) (key : jsstring) : option (json num) :=
  match value with
  | JObj entries => getProp key entries
  | _ => None
  end.

Definition asNonEmptyString (value : option (json num)) : option jsstring :=
  match value with
  | Some (JStr s) => if (0 <? length (JS.trim s))%nat then Some s else None
  | _ => None
  end.

Definition hasPlainTextApprovalRequest (text : jsstring) : bool :=
  existsb (fun pattern => JS.testBoundedCI pattern text) PLAIN_TEXT_APPROVAL_PATTERNS.

Definition extractJsonOutputValue (output : json num) : option (json num) :=
  if negb (isRecord output) then None
  else match prop output (js "type") with
       | Some (JStr t) =>
           if decide (t = js "json") then
             match prop output (js "value") with
             | Some v => if isRecord v then Some v else None
             | None => None
             end
           else None
       | _ => None
       end.

Definition summarizeToolResult (part : ToolResultPart) : jsstring :=
  match extractJsonOutputValue (output part) with
  | None =>
      js "Executed " ++ toolName part ++ js " (call " ++ toolCallId part ++ js ")."
  | Some jsonValue =>
      let destination := asNonEmptyString (prop jsonValue (js "destination")) in
      let hash := asNonEmptyString (prop jsonValue (js "hash")) in
      let details :=
        match destination with
        | Some d => [js "destination " ++ d]
        | None => []
        end
        ++ match hash with
           | Some h => [js "hash " ++ h]
           | None => []
           end in
      if (length details =? 0)%nat
      then js "Executed " ++ toolName part ++ js " (call " ++ toolCallId part ++ js ")."
      else js "Executed " ++ toolName part ++ js " (" ++ JS.join (js ", ") details ++ js ")."
  end.

Definition buildApprovedExecutionStatusText (toolResults : list ToolResultPart)
  : jsstring :=
  if (length toolResults =? 0)%nat
  then js "Approval received. Protected action executed."
  else
    JS.join [10%N]
      (js "Approval received. Protected action executed with the following result:"
       :: map (fun part => js "- " ++ summarizeToolResult part) toolResults).

Record TurnResponseInput := {
  rawText : option jsstring;
  userRequestText : option jsstring;
  approvalsCount : Z;
  approvalWasGranted : bool;
  toolResults : list ToolResultPart;
}.

Definition trimmedText (input : TurnResponseInput) : jsstring :=
  match rawText input with
  | Some raw => JS.trim raw
  | None => []
  end.

Definition normalizedTextOf (text : jsstring) : jsstring :=
  JS.trim (JS.collapseWhiteSpace text).

Definition hasTrivialCompletionOf (text : jsstring) : bool :=
  let normalizedText := normalizedTextOf text in
  (0 <? length normalizedText)%nat
  && (length normalizedText <=? 48)%nat
  && existsb (fun pattern => JS.testAnchoredPunctCI pattern normalizedText)
       TRIVIAL_COMPLETION_PATTERNS.

(** The raw text asks for approval in plain text. *)
Definition PlainTextApprovalReAsk (text : jsstring) : Prop :=
  exists pattern, In pattern PLAIN_TEXT_APPROVAL_PATTERNS /\ JS.MatchesBounded pattern text.

(** The raw text is a trivial completion phrase. *)
Definition TrivialCompletion (text : jsstring) : Prop :=
  let normalizedText := normalizedTextOf text in
  (0 < length normalizedText <= 48)%nat
  /\ exists pattern,
       In pattern TRIVIAL_COMPLETION_PATTERNS
       /\ JS.MatchesAnchoredPunct pattern normalizedText.

Definition requestTopicOf (input : TurnResponseInput) : option jsstring :=
  let normalizedRequestText :=
    match userRequestText input with
    | Some t => JS.trim (JS.collapseWhiteSpace t)
    | None => []
    end in
  if (0 <? length normalizedRequestText)%nat
  then Some (if (96 <? length normalizedRequestText)%nat
             then firstn 93 normalizedRequestText ++ js "..."
             else normalizedRequestText)
  else None.

Definition buildContextAwareCompletionText (input : TurnResponseInput)
    (requestTopic : option jsstring) : jsstring :=
  if (0 <? length (toolResults input))%nat then
    JS.join [10%N]
      (match requestTopic with
       | Some topic =>
           js "Completed your request about " ++ [34%N] ++ topic ++ [34%N]
           ++ js " with these results:"
       | None => js "Completed your request with these results:"
       end
       :: map (fun part => js "- " ++ summarizeToolResult part) (toolResults input))
  else
    match requestTopic with
    | Some topic =>
        js "Completed your request about " ++ [34%N] ++ topic ++ [34%N]
        ++ js ". I can provide a deeper breakdown or verification steps if you want."
    | None =>
        js "Completed the request. Ask for details, exact values, or next steps if you want a deeper response."
    end.

Definition resolveTurnResponseText (input : TurnResponseInput) : ResolvedTurnResponse :=
  let text := trimmedText input in
  let hasTrivialCompletion := hasTrivialCompletionOf text in
  let hasPendingApprovals := 0 <? approvalsCount input in
  let requestTopic := requestTopicOf input in
  let shouldForceApprovedStatus :=
    approvalWasGranted input
    && ((length text =? 0)%nat || hasPlainTextApprovalRequest text || hasTrivialCompletion) in
  if shouldForceApprovedStatus then
    let statusText := buildApprovedExecutionStatusText (toolResults input) in
    {| text := if hasPendingApprovals
               then statusText ++ NEXT_APPROVAL_PENDING_SUFFIX
               else statusText;
       forcedApprovedStatus := true |}
  else if (0 <? length text)%nat && negb hasTrivialCompletion then
    {| text := if hasPendingApprovals then text ++ APPROVAL_PENDING_SUFFIX else text;
       forcedApprovedStatus := false |}
  else if hasPendingApprovals then
    let lead :=
      match requestTopic with
      | Some topic =>
          js "Prepared the next step for " ++ [34%N] ++ topic ++ [34%N] ++ js "."
      | None => js "Prepared the next step."
      end in
    {| text := lead ++ APPROVAL_PENDING_SUFFIX; forcedApprovedStatus := false |}
  else
    {| text := buildContextAwareCompletionText input requestTopic;
       forcedApprovedStatus := false |}.

End WithNumbers.

Arguments ToolResultPart num : clear implicits.
Arguments TurnResponseInput num : clear implicits.

End ResponsePolicy.

(** ** UTC calendar ([Date]) *)

Module UTCDate.

Definition MS_PER_DAY : Z := 86400000.

(** Year, month (1 to 12) and day of the month of the UTC day with the
    given number since the epoch: [getUTCFullYear], [getUTCMonth() + 1] and
    [getUTCDate]. *)
Definition civilFromDays (days : Z) : Z * Z * Z :=
  let z := days + 719468 in
  let era := z / 146097 in
  let doe := z - era * 146097 in
  let yoe := (doe - doe / 1460 + doe / 36524 - doe / 146096) / 365 in
  let doy := doe - (365 * yoe + yoe / 4 - yoe / 100) in
  let mp := (5 * doy + 2) / 153 in
  let d := doy - (153 * mp + 2) / 5 + 1 in
  let m := if mp <? 10 then mp + 3 else mp - 9 in
  (if m <=? 2 then yoe + era * 400 + 1 else yoe + era * 400, m, d).

End UTCDate.

(** ** Errors and state

    Code that awaits the key-value store runs in a state monad over the
    store with exceptions: [Throw] carries the message of the raised error. *)

Inductive Outcome (A : Type) : Type :=
| Throw (message : jsstring)
| Return (a : A).

Arguments Throw {A} message.
Arguments Return {A} a.

Definition M (S A : Type) : Type := S -> Outcome A * S.

Definition ret {S A} (a : A) : M S A := fun st => (Return a, st).

Definition throw {S A} (message : jsstring) : M S A := fun st => (Throw message, st).

Definition bind {S A B} (m : M S A) (k : A -> M S B) : M S B :=
  fun st =>
    match m st with
    | (Return a, st') => k a st'
    | (Throw e, st') => (Throw e, st')
    end.

(** [try { body } catch (error) { return handler(error) }] *)
Definition tryCatch {S A} (body : M S A) (handler : jsstring -> A) : S -> A * S :=
  fun st =>
    match body st with
    | (Return a, st') => (a, st')
    | (Throw e, st') => (handler e, st')
    end.

Notation "'let!' x ':=' m 'in' k" := (bind m (fun x => k))
  (at level 10, x name, m at level 100, k at level 200).

(** ** The key-value store

    The rate limiter reaches Redis through one server-side script.  A
    backend is a state together with the effect of [redis.eval] of that
    script at a given instant of the server clock (milliseconds): the call
    raises, or it replies.  A reply that is an array is the list of its
    items, each the integer [Math.trunc(Number(item))] when that number is
    finite. *)

Inductive EvalResult : Type :=
| EvalRaise (message : jsstring)
| EvalReply (reply : option (list (option Z))).

Record Redis : Type := {
  RState : Type;
  evalIncrWithTtl : Z -> jsstring -> Z -> RState -> EvalResult * RState;
}.

Module RedisServer.

Record Entry := { value : Z; expireAtMs : option Z }.

Abbreviation Store := (gmap jsstring Entry).

(** A key whose expiry instant has passed is absent. *)
Definition liveEntry (now : Z) (st : Store) (key : jsstring) : option Entry :=
  match st !! key with
  | Some e =>
      match expireAtMs e with
      | Some t => if t <? now then None else Some e
      | None => Some e
      end
  | None => None
  end.

(** The value of a counter as the server sees it: 0 when the key is
    absent or has expired. *)
Definition liveCount (now : Z) (st : Store) (key : jsstring) : Z :=
  match liveEntry now st key with
  | Some e => value e
  | None => 0
  end.

(** The expiry a counter has after one call of the script below. *)
Definition expiryAfter (now : Z) (ttl : Z) (st : Store) (key : jsstring) : option Z :=
  if liveCount now st key + 1 =? 1 then Some (now + ttl * 1000)
  else liveEntry now st key ≫= expireAtMs.

(** [INCR key] *)
Definition INCR (now : Z) (key : jsstring) (st : Store) : Z * Store :=
  match liveEntry now st key with
  | Some e => (value e + 1,
               <[key := {| value := value e + 1; expireAtMs := expireAtMs e |}]> st)
  | None => (1, <[key := {| value := 1; expireAtMs := None |}]> st)
  end.

(** [EXPIRE key ttl]; a time to live that is not positive deletes the key. *)
Definition EXPIRE (now : Z) (key : jsstring) (ttl : Z) (st : Store) : Store :=
  match liveEntry now st key with
  | Some e =>
      if 0 <? ttl
      then <[key := {| value := value e; expireAtMs := Some (now + ttl * 1000) |}]> st
      else delete key st
  | None => st
  end.

(** [TTL key]: -2 for an absent key, -1 for a key without expiry, else the
    remaining time rounded to seconds. *)
Definition TTL (now : Z) (key : jsstring) (st : Store) : Z :=
  match liveEntry now st key with
  | Some e =>
      match expireAtMs e with
      | Some t => (t - now + 500) / 1000
      | None => -1
      end
  | None => -2
  end.

(** The script [INCR_WITH_TTL_LUA]. *)
Definition INCR_WITH_TTL_LUA (now : Z) (key : jsstring) (ttl : Z) (st : Store)
  : (Z * Z) * Store :=
  let '(value, st1) := INCR now key st in
  let st2 := if value =? 1 then EXPIRE now key ttl st1 else st1 in
  let remaining := TTL now key st2 in
  let remaining := if remaining <? 0 then ttl else remaining in
  ((value, remaining), st2).

Definition server : Redis := {|
  RState := Store;
  evalIncrWithTtl := fun now key ttl st =>
    let '((value, remaining), st') := INCR_WITH_TTL_LUA now key ttl st in
    (EvalReply (Some [Some value; Some remaining]), st');
|}.

End RedisServer.

(** A store that cannot be reached: every call raises. *)
Definition unavailable : Redis := {|
  RState := unit;
  evalIncrWithTtl := fun _ _ _ st => (EvalRaise (js "ECONNREFUSED"), st);
|}.

(** A backend that also records, in order, the key of every script call and
    whether the call raised. *)
Definition traced (R : Redis) : Redis := {|
  RState := RState R * list (jsstring * bool);
  evalIncrWithTtl := fun now key ttl st =>
    match evalIncrWithTtl R now key ttl (fst st) with
    | (EvalRaise e, st') => (EvalRaise e, (st', snd st ++ [(key, true)]))
    | (EvalReply r, st') => (EvalReply r, (st', snd st ++ [(key, false)]))
    end;
|}.

(** A call of the script raised during a run whose record of calls is [log]. *)
Definition raisedIn (log : list (jsstring * bool)) : Prop :=
  exists key, (key, true) ∈ log.

(** ** Rate limiter ([security/rate-limit.ts]) *)

Module RateLimit.

Inductive RateLimitTier := Free | Trusted.

Inductive RateLimitReason :=
| reason_allowed
| chat_flood
| user_burst
| user_minute
| user_daily
| rate_limit_storage_error.

Record RateLimitDecision := {
  allowed : bool;
  reason : RateLimitReason;
  retryAfterSeconds : Z;
  tier : RateLimitTier;
  dailyUsed : option Z;
  dailyLimit : option Z;
  resetsAtUtc : option Z;
}.

Record TierLimits := {
  burstMax : Z;
  minuteMax : Z;
  dailyMax : Z;
}.

Record RateLimitConfig := {
  burstWindowSeconds : Z;
  minuteWindowSeconds : Z;
  chatMinuteMax : Z;
  noticeCooldownSeconds : Z;
  trustedUserIds : gset jsstring;
  free : TierLimits;
  trustedMultiplier : Z;
}.

Record CounterResult := {
  count : Z;
  ttlSeconds : Z;
}.

Record UtcDailyWindow := {
  dayKey : jsstring;
  counterTtlSeconds : Z;
  secondsUntilReset : Z;
  windowResetsAtUtc : Z;
}.

(** The defaults of [config/env.ts]. *)
Definition defaultConfig : RateLimitConfig := {|
  burstWindowSeconds := 3;
  minuteWindowSeconds := 60;
  chatMinuteMax := 200;
  noticeCooldownSeconds := 20;
  trustedUserIds := ∅;
  free := {| burstMax := 3; minuteMax := 10; dailyMax := 300 |};
  trustedMultiplier := 5;
|}.

Definition KEY_PREFIX : jsstring := js "rl:v1".
Definition COUNTER_TTL_GRACE_SECONDS : Z := 5.
Definition DAILY_COUNTER_TTL_GRACE_SECONDS : Z := 60.

(** The values handled are integers, so [Number.isFinite] holds and
    [Math.trunc] is the identity. *)
Definition asPositiveInt (value : Z) : Z := Z.max 1 value.

Definition parseLuaInt (value : option Z) (fallback : Z) : Z :=
  match value with
  | Some parsed => parsed
  | None => fallback
  end.

Definition getTierForUser (telegramUserId : jsstring) (config : RateLimitConfig)
  : RateLimitTier :=
  if bool_decide (telegramUserId ∈ trustedUserIds config) then Trusted else Free.

Definition getTierLimits (tier : RateLimitTier) (config : RateLimitConfig) : TierLimits :=
  match tier with
  | Trusted =>
      {| burstMax := burstMax (free config) * trustedMultiplier config;
         minuteMax := minuteMax (free config) * trustedMultiplier config;
         dailyMax := dailyMax (free config) * trustedMultiplier config |}
  | Free => free config
  end.

(** [Math.floor(Date.now() / 1000 / windowSeconds)] *)
Definition getWindowBucket (now : Z) (windowSeconds : Z) : Z :=
  now / (1000 * windowSeconds).

(** [String(n).padStart(2, "0")] *)
Definition pad2 (n : Z) : jsstring :=
  let s := stringOfInt n in
  if (length s <? 2)%nat then js "0" ++ s else s.

(** The key of a UTC day: year, month and day of the month, as
    [`${year}${month}${day}`] with the month and the day on two digits. *)
Definition dayKeyOf (today : Z) : jsstring :=
  let '(year, month, day) := UTCDate.civilFromDays today in
  stringOfInt year ++ pad2 month ++ pad2 day.

(** [Date.UTC(year, month, day + 1)] is the first instant of the next UTC
    day. *)
Definition getUtcDailyWindow (now : Z) : UtcDailyWindow :=
  let today := now / UTCDate.MS_PER_DAY in
  let nextMidnight := (today + 1) * UTCDate.MS_PER_DAY in
  let secondsUntilReset := Z.max 1 ((nextMidnight - now + 999) / 1000) in
  {| dayKey := dayKeyOf today;
     counterTtlSeconds := secondsUntilReset + DAILY_COUNTER_TTL_GRACE_SECONDS;
     secondsUntilReset := secondsUntilReset;
     windowResetsAtUtc := nextMidnight |}.

Definition allowedDecision (tier : RateLimitTier)
    (extra : option (Z * Z * Z)) : RateLimitDecision :=
  {| allowed := true;
     reason := reason_allowed;
     retryAfterSeconds := 0;
     tier := tier;
     dailyUsed := (fun x => x.1.1) <$> extra;
     dailyLimit := (fun x => x.1.2) <$> extra;
     resetsAtUtc := (fun x => x.2) <$> extra |}.

Definition deniedDecision (tier : RateLimitTier) (reason : RateLimitReason)
    (retryAfterSeconds : Z) (extra : option (Z * Z * Z)) : RateLimitDecision :=
  {| allowed := false;
     reason := reason;
     retryAfterSeconds := Z.max 1 retryAfterSeconds;
     tier := tier;
     dailyUsed := (fun x => x.1.1) <$> extra;
     dailyLimit := (fun x => x.1.2) <$> extra;
     resetsAtUtc := (fun x => x.2) <$> extra |}.

Definition failOpenDecision (tier : RateLimitTier) : RateLimitDecision :=
  {| allowed := true;
     reason := rate_limit_storage_error;
     retryAfterSeconds := 0;
     tier := tier;
     dailyUsed := None;
     dailyLimit := None;
     resetsAtUtc := None |}.

Definition chatKey (telegramChatId : jsstring) (minuteBucket : Z) : jsstring :=
  KEY_PREFIX ++ js ":chat:" ++ telegramChatId ++ js ":m:" ++ stringOfInt minuteBucket.
Definition burstKey (telegramUserId : jsstring) (burstBucket : Z) : jsstring :=
  KEY_PREFIX ++ js ":user:" ++ telegramUserId ++ js ":b:" ++ stringOfInt burstBucket.
Definition minuteKey (telegramUserId : jsstring) (minuteBucket : Z) : jsstring :=
  KEY_PREFIX ++ js ":user:" ++ telegramUserId ++ js ":m:" ++ stringOfInt minuteBucket.
Definition dailyKey (telegramUserId : jsstring) (dayKey : jsstring) : jsstring :=
  KEY_PREFIX ++ js ":user:" ++ telegramUserId ++ js ":d:" ++ dayKey.

(** The three instants at which one call of [checkUserTurnQuota] reads the
    clock, one before each counter. *)
Record Clock := {
  atBurst : Z;
  atMinute : Z;
  atDaily : Z;
}.

Section WithBackend.
Context (R : Redis).

Definition redis_eval (now : Z) (key : jsstring) (ttl : Z)
  : M (RState R) (option (list (option Z))) :=
  fun st =>
    match evalIncrWithTtl R now key ttl st with
    | (EvalRaise e, st') => (Throw e, st')
    | (EvalReply r, st') => (Return r, st')
    end.

Definition incrementCounter (now : Z) (key : jsstring) (ttlSeconds : Z)
  : M (RState R) CounterResult :=
  let normalizedTtl := asPositiveInt ttlSeconds in
  let! result := redis_eval now key normalizedTtl in
  match result with
  | Some (item0 :: item1 :: _) =>
      let count := Z.max 0 (parseLuaInt item0 0) in
      let ttlFromRedis := parseLuaInt item1 normalizedTtl in
      ret {| count := count; ttlSeconds := Z.max 1 ttlFromRedis |}
  | _ => throw (js "Rate limit counter script returned an invalid response.")
  end.

Definition checkChatSpamLimit_try (config : RateLimitConfig) (now : Z)
    (telegramChatId : jsstring) (tier : RateLimitTier)
  : M (RState R) RateLimitDecision :=
  let minuteBucket := getWindowBucket now (minuteWindowSeconds config) in
  let key := chatKey telegramChatId minuteBucket in
  let! counter :=
    incrementCounter now key (minuteWindowSeconds config + COUNTER_TTL_GRACE_SECONDS) in
  if chatMinuteMax config <? count counter
  then ret (deniedDecision tier chat_flood (ttlSeconds counter) None)
  else ret (allowedDecision tier None).

Definition checkChatSpamLimit (config : RateLimitConfig) (now : Z)
    (telegramChatId telegramUserId : jsstring)
  : RState R -> RateLimitDecision * RState R :=
  let tier := getTierForUser telegramUserId config in
  tryCatch (checkChatSpamLimit_try config now telegramChatId tier)
           (fun _ => failOpenDecision tier).

Definition checkUserTurnQuota_try (config : RateLimitConfig) (clock : Clock)
    (telegramUserId : jsstring) (tier : RateLimitTier) (limits : TierLimits)
  : M (RState R) RateLimitDecision :=
  let burstBucket := getWindowBucket (atBurst clock) (burstWindowSeconds config) in
  let! burstCounter :=
    incrementCounter (atBurst clock) (burstKey telegramUserId burstBucket)
      (burstWindowSeconds config + COUNTER_TTL_GRACE_SECONDS) in
  if burstMax limits <? count burstCounter
  then ret (deniedDecision tier user_burst (ttlSeconds burstCounter) None)
  else
    let minuteBucket := getWindowBucket (atMinute clock) (minuteWindowSeconds config) in
    let! minuteCounter :=
      incrementCounter (atMinute clock) (minuteKey telegramUserId minuteBucket)
        (minuteWindowSeconds config + COUNTER_TTL_GRACE_SECONDS) in
    if minuteMax limits <? count minuteCounter
    then ret (deniedDecision tier user_minute (ttlSeconds minuteCounter) None)
    else
      let dailyWindow := getUtcDailyWindow (atDaily clock) in
      let! dailyCounter :=
        incrementCounter (atDaily clock) (dailyKey telegramUserId (dayKey dailyWindow))
          (counterTtlSeconds dailyWindow) in
      if dailyMax limits <? count dailyCounter
      then ret (deniedDecision tier user_daily (secondsUntilReset dailyWindow)
                  (Some (count dailyCounter, dailyMax limits,
                         windowResetsAtUtc dailyWindow)))
      else ret (allowedDecision tier
                  (Some (count dailyCounter, dailyMax limits,
                         windowResetsAtUtc dailyWindow))).

Definition checkUserTurnQuota (config : RateLimitConfig) (clock : Clock)
    (telegramUserId : jsstring)
  : RState R -> RateLimitDecision * RState R :=
  let tier := getTierForUser telegramUserId config in
  let limits := getTierLimits tier config in
  tryCatch (checkUserTurnQuota_try config clock telegramUserId tier limits)
           (fun _ => failOpenDecision tier).

(** Successive calls of [checkChatSpamLimit] for one chat, each at its
    instant and for the user who sent the message. *)
Fixpoint chatRun (config : RateLimitConfig) (telegramChatId : jsstring)
    (requests : list (Z * jsstring)) (st : RState R) : list RateLimitDecision :=
  match requests with
  | [] => []
  | (now, telegramUserId) :: rest =>
      let '(d, st') := checkChatSpamLimit config now telegramChatId telegramUserId st in
      d :: chatRun config telegramChatId rest st'
  end.

(** Successive calls of [checkUserTurnQuota] for one user. *)
Fixpoint userRun (config : RateLimitConfig) (telegramUserId : jsstring)
    (clocks : list Clock) (st : RState R) : list RateLimitDecision :=
  match clocks with
  | [] => []
  | clock :: rest =>
      let '(d, st') := checkUserTurnQuota config clock telegramUserId st in
      d :: userRun config telegramUserId rest st'
  end.

End WithBackend.

(** *** The counter windows of a user *)

Inductive UserWindow := BurstWindow | MinuteWindow | DailyWindow.

Definition windowReason (w : UserWindow) : RateLimitReason :=
  match w with
  | BurstWindow => user_burst
  | MinuteWindow => user_minute
  | DailyWindow => user_daily
  end.

Definition windowMax (w : UserWindow) (limits : TierLimits) : Z :=
  match w with
  | BurstWindow => burstMax limits
  | MinuteWindow => minuteMax limits
  | DailyWindow => dailyMax limits
  end.

(** The instant at which a call reads the clock for the window. *)
Definition windowInstant (w : UserWindow) (clock : Clock) : Z :=
  match w with
  | BurstWindow => atBurst clock
  | MinuteWindow => atMinute clock
  | DailyWindow => atDaily clock
  end.

(** The number of the window an instant falls in: the bucket of the burst
    or of the minute, or the UTC day. *)
Definition windowIndex (config : RateLimitConfig) (w : UserWindow) (now : Z) : Z :=
  match w with
  | BurstWindow => getWindowBucket now (burstWindowSeconds config)
  | MinuteWindow => getWindowBucket now (minuteWindowSeconds config)
  | DailyWindow => now / UTCDate.MS_PER_DAY
  end.

Definition windowKey (telegramUserId : jsstring) (w : UserWindow) (index : Z) : jsstring :=
  match w with
  | BurstWindow => burstKey telegramUserId index
  | MinuteWindow => minuteKey telegramUserId index
  | DailyWindow => dailyKey telegramUserId (dayKeyOf index)
  end.

(** The call that returned [d] incremented the counter of the window: no
    earlier window denied the request. *)
Definition reached (w : UserWindow) (d : RateLimitDecision) : bool :=
  match w, reason d with
  | BurstWindow, _ => true
  | MinuteWindow, user_burst => false
  | MinuteWindow, _ => true
  | DailyWindow, (user_burst | user_minute) => false
  | DailyWindow, _ => true
  end.

Definition countReached (w : UserWindow) (ds : list RateLimitDecision) : Z :=
  Z.of_nat (length (filter (fun d => reached w d = true) ds)).

(** The time to live a call asks for when it creates the counter of the
    window at instant [now]. *)
Definition windowTtl (config : RateLimitConfig) (w : UserWindow) (now : Z) : Z :=
  match w with
  | BurstWindow => burstWindowSeconds config + COUNTER_TTL_GRACE_SECONDS
  | MinuteWindow => minuteWindowSeconds config + COUNTER_TTL_GRACE_SECONDS
  | DailyWindow => counterTtlSeconds (getUtcDailyWindow now)
  end.

(** The state of one counter during the requests of one window, read at the
    instants [instants]: no request has been counted and the key is absent or
    expired at each of them, or [n] requests have been counted and the key
    holds [n] and is live at each of them. *)
Definition counterAt (instants : list Z) (key : jsstring) (n : Z)
    (st : RedisServer.Store) : Prop :=
  (n = 0 /\ forall t, t ∈ instants -> RedisServer.liveEntry t st key = None)
  \/ (1 <= n
      /\ exists e, st !! key = Some e /\ RedisServer.value e = n
                   /\ forall t, t ∈ instants -> RedisServer.liveEntry t st key = Some e).

(** What one call does to the counter of a window, when [n] requests
    were counted before it: the decision [d] and the store [st'] it leaves. *)
Definition stepsCounter (w : UserWindow) (limits : TierLimits)
    (instants : list Z) (key : jsstring) (n : Z) (d : RateLimitDecision)
    (st' : RedisServer.Store) : Prop :=
  (allowed d = true <-> reason d = reason_allowed)
  /\ (reached w d = true ->
      counterAt instants key (n + 1) st'
      /\ (if n + 1 <=? windowMax w limits
          then reason d <> windowReason w
          else reason d = windowReason w /\ allowed d = false))
  /\ (reached w d = false -> counterAt instants key n st').

(** Four requests of one user within one burst window. *)
Definition fourClocks : list Clock :=
  map (fun t => {| atBurst := t; atMinute := t; atDaily := t |})
      [1771761600000; 1771761600500; 1771761601000; 1771761601500].

(** Eleven requests of one user within one minute window: four in one
    burst window, then three, three and one in the next three. *)
Definition elevenClocks : list Clock :=
  map (fun t => {| atBurst := t; atMinute := t; atDaily := t |})
      [1771761600000; 1771761600100; 1771761600200; 1771761600300;
       1771761603000; 1771761603100; 1771761603200;
       1771761606000; 1771761606100; 1771761606200;
       1771761609000].

End RateLimit.

(** ** SHA-256 and text encodings ([node:crypto], [Buffer]) *)

Module SHA256.

(** The constants of FIPS 180-4 are derived from the primes: the first 32
    bits of the fractional parts of the cube roots of the first 64 primes
    (the round constants) and of the square roots of the first 8 (the initial
    hash value). *)
Definition isPrime (n : nat) : bool :=
  (1 <? n)%nat && forallb (fun d => negb (n mod d =? 0)%nat) (seq 2 (n - 2)).

Definition primes : list Z :=
  Eval vm_compute in map Z.of_nat (filter (fun n => isPrime n = true) (seq 2 310)).

(** The integer cube root of [x], for [x] below [2^108], bit by bit. *)
Definition cubeRoot (x : Z) : Z :=
  fold_left (fun r bit => let r' := r + 2 ^ bit in if r' * r' * r' <=? x then r' else r)
            (map Z.of_nat (rev (seq 0 36))) 0.

Definition K : list Z :=
  Eval vm_compute in map (fun p => cubeRoot (p * 2 ^ 96) mod 2 ^ 32) primes.

Definition H0 : list Z :=
  Eval vm_compute in map (fun p => Z.sqrt (p * 2 ^ 64) mod 2 ^ 32) (firstn 8 primes).

Definition wrap32 (x : Z) : Z := x mod 2 ^ 32.
Definition add32 (x y : Z) : Z := wrap32 (x + y).
Definition rotr (n x : Z) : Z :=
  wrap32 (Z.lor (Z.shiftr x n) (Z.shiftl x (32 - n))).
Definition not32 (x : Z) : Z := 2 ^ 32 - 1 - x.

Definition Ch (x y z : Z) : Z := Z.lxor (Z.land x y) (Z.land (not32 x) z).
Definition Maj (x y z : Z) : Z :=
  Z.lxor (Z.lxor (Z.land x y) (Z.land x z)) (Z.land y z).
Definition bigSigma0 (x : Z) : Z := Z.lxor (Z.lxor (rotr 2 x) (rotr 13 x)) (rotr 22 x).
Definition bigSigma1 (x : Z) : Z := Z.lxor (Z.lxor (rotr 6 x) (rotr 11 x)) (rotr 25 x).
Definition smallSigma0 (x : Z) : Z :=
  Z.lxor (Z.lxor (rotr 7 x) (rotr 18 x)) (Z.shiftr x 3).
Definition smallSigma1 (x : Z) : Z :=
  Z.lxor (Z.lxor (rotr 17 x) (rotr 19 x)) (Z.shiftr x 10).

(** Message padding: a one bit, zeros up to 56 modulo 64, and the bit
    length on eight bytes. *)
Definition bigEndian (width : nat) (x : Z) : list Z :=
  map (fun i => (x / 2 ^ (8 * Z.of_nat i)) mod 256) (rev (seq 0 width)).

Definition pad (message : list Z) : list Z :=
  let len := Z.of_nat (length message) in
  let zeros := Z.to_nat ((55 - len) mod 64) in
  message ++ [128] ++ repeat 0 zeros ++ bigEndian 8 (8 * len).

Fixpoint wordsOf (fuel : nat) (bytes : list Z) : list Z :=
  match fuel, bytes with
  | S fuel', b0 :: b1 :: b2 :: b3 :: rest =>
      (((b0 * 256 + b1) * 256 + b2) * 256 + b3) :: wordsOf fuel' rest
  | _, _ => []
  end.

(** The message schedule, most recent word first. *)
Fixpoint extend (n : nat) (recent : list Z) : list Z :=
  match n with
  | O => recent
  | S n' =>
      let w := add32 (add32 (smallSigma1 (nth 1 recent 0)) (nth 6 recent 0))
                     (add32 (smallSigma0 (nth 14 recent 0)) (nth 15 recent 0)) in
      extend n' (w :: recent)
  end.

Definition schedule (block : list Z) : list Z := rev (extend 48 (rev block)).

Definition round (s : list Z) (kw : Z * Z) : list Z :=
  match s with
  | [a; b; c; d; e; f; g; h] =>
      let t1 := add32 (add32 (add32 h (bigSigma1 e)) (add32 (Ch e f g) kw.1)) kw.2 in
      let t2 := add32 (bigSigma0 a) (Maj a b c) in
      [add32 t1 t2; a; b; c; add32 d t1; e; f; g]
  | _ => s
  end.

Definition compress (state block : list Z) : list Z :=
  let final := fold_left round (combine K (schedule block)) state in
  map (fun p => add32 p.1 p.2) (combine state final).

Fixpoint blocks (fuel : nat) (state words : list Z) : list Z :=
  match fuel with
  | O => state
  | S fuel' =>
      match words with
      | [] => state
      | _ => blocks fuel' (compress state (firstn 16 words)) (skipn 16 words)
      end
  end.

Definition digest (message : list Z) : list Z :=
  let padded := pad message in
  let words := wordsOf (length padded) padded in
  flat_map (bigEndian 4) (blocks (length words) H0 words).

Definition hexDigit (d : Z) : N :=
  if d <? 10 then Z.to_N (48 + d) else Z.to_N (87 + d).

(** [digest("hex")] *)
Definition hex (bytes : list Z) : jsstring :=
  flat_map (fun b => [hexDigit (b / 16); hexDigit (b mod 16)]) bytes.

End SHA256.

(** The UTF-8 encoding of a string ([Buffer.from(s, "utf8")]); a surrogate
    that is not part of a pair is encoded as U+FFFD. *)
Module UTF8.

Definition isHighSurrogate (c : N) : bool := ((55296 <=? c) && (c <=? 56319))%N.
Definition isLowSurrogate (c : N) : bool := ((56320 <=? c) && (c <=? 57343))%N.

Definition encodeCodePoint (cp : Z) : list Z :=
  if cp <? 128 then [cp]
  else if cp <? 2048 then [192 + cp / 64; 128 + cp mod 64]
  else if cp <? 65536 then [224 + cp / 4096; 128 + (cp / 64) mod 64; 128 + cp mod 64]
  else [240 + cp / 262144; 128 + (cp / 4096) mod 64;
        128 + (cp / 64) mod 64; 128 + cp mod 64].

Fixpoint encode (s : jsstring) : list Z :=
  match s with
  | [] => []
  | c :: r =>
      if isHighSurrogate c then
        match r with
        | d :: r' =>
            if isLowSurrogate d
            then encodeCodePoint
                   (65536 + (Z.of_N c - 55296) * 1024 + (Z.of_N d - 56320))
                 ++ encode r'
            else encodeCodePoint 65533 ++ encode r
        | [] => encodeCodePoint 65533
        end
      else if isLowSurrogate c then encodeCodePoint 65533 ++ encode r
      else encodeCodePoint (Z.of_N c) ++ encode r
  end.

End UTF8.

(** [createHash("sha256").update(payload).digest("hex")] *)
Definition sha256Hex (payload : jsstring) : jsstring :=
  SHA256.hex (SHA256.digest (UTF8.encode payload)).

(** ** [JSON.stringify] on documents whose numbers are integers *)

Module JSON.

Definition hexDigit (d : N) : N := (if d <? 10 then 48 + d else 87 + d)%N.

(** [\uXXXX] *)
Definition unicodeEscape (c : N) : jsstring :=
  js "\u" ++ [hexDigit (c / 4096 mod 16); hexDigit (c / 256 mod 16);
              hexDigit (c / 16 mod 16); hexDigit (c mod 16)]%N.

(** [QuoteJSONString]: the body of a quoted string. *)
Fixpoint escape (s : jsstring) : jsstring :=
  match s with
  | [] => []
  | c :: r =>
      if (c =? 8)%N then js "\b" ++ escape r
      else if (c =? 9)%N then js "\t" ++ escape r
      else if (c =? 10)%N then js "\n" ++ escape r
      else if (c =? 12)%N then js "\f" ++ escape r
      else if (c =? 13)%N then js "\r" ++ escape r
      else if (c =? 34)%N then [92; 34]%N ++ escape r
      else if (c =? 92)%N then [92; 92]%N ++ escape r
      else if (c <? 32)%N then unicodeEscape c ++ escape r
      else if UTF8.isHighSurrogate c then
        match r with
        | d :: r' =>
            if UTF8.isLowSurrogate d then c :: d :: escape r'
            else unicodeEscape c ++ escape r
        | [] => unicodeEscape c
        end
      else if UTF8.isLowSurrogate c then unicodeEscape c ++ escape r
      else c :: escape r
  end.

Definition quote (s : jsstring) : jsstring := [34%N] ++ escape s ++ [34%N].

Fixpoint stringify (v : json Z) : jsstring :=
  match v with
  | JNull => js "null"
  | JBool true => js "true"
  | JBool false => js "false"
  | JNum n => stringOfInt n
  | JStr s => quote s
  | JArr items =>
      js "[" ++ JS.join (js ",") (map stringify items) ++ js "]"
  | JObj entries =>
      js "{"
      ++ JS.join (js ",")
           (map (fun kv => quote kv.1 ++ js ":" ++ stringify kv.2) entries)
      ++ js "}"
  end.

(** Lexicographic order on strings, by code unit. *)
Fixpoint ltb (a b : jsstring) : bool :=
  match a, b with
  | [], [] => false
  | [], _ :: _ => true
  | _ :: _, [] => false
  | x :: a', y :: b' => (x <? y)%N || ((x =? y)%N && ltb a' b')
  end.

Fixpoint insertEntry (kv : jsstring * json Z) (sorted : list (jsstring * json Z))
  : list (jsstring * json Z) :=
  match sorted with
  | [] => [kv]
  | kv' :: rest =>
      if ltb kv'.1 kv.1 then kv' :: insertEntry kv rest else kv :: sorted
  end.

Definition sortEntries (entries : list (jsstring * json Z)) : list (jsstring * json Z) :=
  fold_right insertEntry [] entries.

(** The document with the keys of every object in lexicographic order. *)
Fixpoint sortKeys (v : json Z) : json Z :=
  match v with
  | JArr items => JArr (map sortKeys items)
  | JObj entries => JObj (sortEntries (map (fun kv => (kv.1, sortKeys kv.2)) entries))
  | _ => v
  end.

End JSON.

(** [new Date(ms).toISOString()] *)
Module ISODate.

Definition padTo (width : nat) (n : Z) : jsstring :=
  let s := stringOfInt n in
  repeat 48%N (width - length s) ++ s.

Definition yearString (year : Z) : jsstring :=
  if (0 <=? year) && (year <=? 9999) then padTo 4 year
  else if year <? 0 then js "-" ++ padTo 6 (- year)
  else js "+" ++ padTo 6 year.

Definition toISOString (ms : Z) : jsstring :=
  let day := ms / UTCDate.MS_PER_DAY in
  let inDay := ms mod UTCDate.MS_PER_DAY in
  let '(year, month, date) := UTCDate.civilFromDays day in
  yearString year ++ js "-" ++ padTo 2 month ++ js "-" ++ padTo 2 date
  ++ js "T" ++ padTo 2 (inDay / 3600000)
  ++ js ":" ++ padTo 2 (inDay / 60000 mod 60)
  ++ js ":" ++ padTo 2 (inDay / 1000 mod 60)
  ++ js "." ++ padTo 3 (inDay mod 1000) ++ js "Z".

End ISODate.

(** ** The relational store ([db/schema.ts]) *)

Module Schema.

Inductive ApprovalStatus := requested | approved | denied | expired | failed.

Inductive ProcessedUpdateStatus :=
| received | enqueued | processed | update_failed.

Inductive RiskProfile := cautious | balanced | advanced.

Inductive ApprovalRiskLevel := low | medium | high | critical.

Record ToolApproval := {
  approvalId : jsstring;
  callbackToken : jsstring;
  sessionId : jsstring;
  toolName : jsstring;
  toolCallId : jsstring;
  inputJson : json Z;
  telegramChatId : jsstring;
  messageThreadId : option Z;
  promptMessageId : option Z;
  riskProfile : RiskProfile;
  status : ApprovalStatus;
  reason : option jsstring;
  expiresAt : Z;
  decidedAt : option Z;
  decidedBy : option jsstring;
}.

Record ProcessedUpdate := {
  telegramUpdateId : jsstring;
  rawUpdateJson : json Z;
  updateStatus : ProcessedUpdateStatus;
  receivedAt : Z;
  handledAt : option Z;
  error : option jsstring;
}.

Record AuditEvent := {
  actorType : jsstring;
  actorId : jsstring;
  eventType : jsstring;
  metadataJson : json Z;
  correlationId : jsstring;
  createdAt : Z;
  hashChain : jsstring;
}.

(** The tables: [tool_approvals] and [processed_updates] by primary key,
    [audit_events] in the order of insertion. *)
Record Database := {
  toolApprovals : gmap jsstring ToolApproval;
  processedUpdates : gmap jsstring ProcessedUpdate;
  auditEvents : list AuditEvent;
}.

End Schema.

Export Schema.

(** ** Audit chain ([security/audit-chain.ts], [db/queries/audit.ts]) *)

Module Audit.

Record AuditEventRecord := {
  recActorType : jsstring;
  recActorId : jsstring;
  recEventType : jsstring;
  recMetadata : json Z;
  recCorrelationId : jsstring;
}.

Definition nullable (s : option jsstring) : json Z :=
  match s with
  | Some h => JStr h
  | None => JNull
  end.

Definition createAuditHash (previousHash : option jsstring) (eventType : jsstring)
    (metadata : json Z) (createdAtIso : jsstring) : jsstring :=
  let body :=
    JSON.stringify
      (JObj [ (js "previousHash", nullable previousHash);
              (js "eventType", JStr eventType);
              (js "metadata", metadata);
              (js "createdAtIso", JStr createdAtIso) ]) in
  sha256Hex body.

(** [select ... order by created_at desc limit 1]: a row with the greatest
    [createdAt]; among several the one inserted last is taken. *)
Fixpoint lastEvent (best : option AuditEvent) (rows : list AuditEvent)
  : option AuditEvent :=
  match rows with
  | [] => best
  | row :: rest =>
      match best with
      | Some b => if createdAt row <? createdAt b
                  then lastEvent best rest
                  else lastEvent (Some row) rest
      | None => lastEvent (Some row) rest
      end
  end.

Definition appendAuditEvent (event : AuditEventRecord) (now : Z) (db : Database)
  : AuditEvent * Database :=
  let lastEvent := lastEvent None (auditEvents db) in
  let createdAt := now in
  let hashChain :=
    createAuditHash (hashChain <$> lastEvent) (recEventType event)
      (recMetadata event) (ISODate.toISOString createdAt) in
  let row :=
    {| actorType := recActorType event;
       actorId := recActorId event;
       eventType := recEventType event;
       metadataJson := recMetadata event;
       correlationId := recCorrelationId event;
       createdAt := createdAt;
       hashChain := hashChain |} in
  (row, {| toolApprovals := toolApprovals db;
           processedUpdates := processedUpdates db;
           auditEvents := auditEvents db ++ [row] |}).

(** The event that [registerApprovalRequests] appends for a new approval. *)
Definition requestedEvent : AuditEventRecord := {|
  recActorType := js "system";
  recActorId := js "agent";
  recEventType := js "approval.requested";
  recMetadata :=
    JObj [ (js "approvalId", JStr (js "apr_1"));
           (js "toolName", JStr (js "tonSendBlockchainMessage"));
           (js "toolCallId", JStr (js "call_1"));
           (js "callbackToken", JStr (js "AAECAwQFBg")) ];
  recCorrelationId := js "c1";
|}.

Definition emptyDatabase : Database := {|
  toolApprovals := ∅;
  processedUpdates := ∅;
  auditEvents := [];
|}.

(** Modelled from the spec: the hash of the audit specification, SHA-256
    over the JSON text of [{previousHash, eventType, metadata,
    createdAtIso}] with the keys of every object, those of the metadata
    included, in lexicographic order. *)
Definition canonicalAuditHash (previousHash : option jsstring) (eventType : jsstring)
    (metadata : json Z) (createdAtIso : jsstring) : jsstring :=
  sha256Hex
    (JSON.stringify
       (JSON.sortKeys
          (JObj [ (js "previousHash", nullable previousHash);
                  (js "eventType", JStr eventType);
                  (js "metadata", metadata);
                  (js "createdAtIso", JStr createdAtIso) ]))).

End Audit.

(** ** Approval engine ([approvals/service.ts], [db/queries/approvals.ts]) *)

Module Approvals.

Definition APPROVAL_TTL_MS : Z := 5 * 60 * 1000.
Definition APPROVAL_COUNTDOWN_INTERVAL_MS : Z := 30000.

Definition statusString (s : ApprovalStatus) : jsstring :=
  match s with
  | requested => js "requested"
  | approved => js "approved"
  | denied => js "denied"
  | expired => js "expired"
  | failed => js "failed"
  end.

Definition withApprovals (db : Database) (table : gmap jsstring ToolApproval) : Database :=
  {| toolApprovals := table;
     processedUpdates := processedUpdates db;
     auditEvents := auditEvents db |}.

(** [insert ... returning]; the primary key rejects a second row with the
    same [approvalId]. *)
Definition createToolApproval (record : ToolApproval) (db : Database)
  : Outcome ToolApproval * Database :=
  match toolApprovals db !! approvalId record with
  | Some _ => (Throw (js "duplicate key value violates unique constraint"), db)
  | None => (Return record,
             withApprovals db (<[approvalId record := record]> (toolApprovals db)))
  end.

Definition getToolApproval (approvalId : jsstring) (db : Database) : option ToolApproval :=
  toolApprovals db !! approvalId.

(** A string is truthy when it is not empty. *)
Definition truthy (s : option jsstring) : option jsstring :=
  match s with
  | Some (c :: r) => Some (c :: r)
  | _ => None
  end.

Definition updateToolApprovalDecision (approvalId : jsstring) (status : ApprovalStatus)
    (decidedBy : jsstring) (reason : option jsstring) (now : Z) (db : Database)
  : option ToolApproval * Database :=
  match toolApprovals db !! approvalId with
  | Some row =>
      let row' :=
        {| approvalId := Schema.approvalId row;
           callbackToken := callbackToken row;
           sessionId := sessionId row;
           toolName := toolName row;
           toolCallId := toolCallId row;
           inputJson := inputJson row;
           telegramChatId := telegramChatId row;
           messageThreadId := messageThreadId row;
           promptMessageId := promptMessageId row;
           riskProfile := riskProfile row;
           status := status;
           reason := match truthy reason with
                     | Some r => Some r
                     | None => Schema.reason row
                     end;
           expiresAt := expiresAt row;
           decidedAt := Some now;
           decidedBy := Some decidedBy |} in
      (Some row', withApprovals db (<[approvalId := row']> (toolApprovals db)))
  | None => (None, db)
  end.

Definition expirePendingApproval (approvalId : jsstring) (now : Z) (db : Database)
  : option ToolApproval * Database :=
  match toolApprovals db !! approvalId with
  | Some row =>
      match Schema.status row with
      | requested =>
          let row' :=
            {| approvalId := Schema.approvalId row;
               callbackToken := callbackToken row;
               sessionId := sessionId row;
               toolName := toolName row;
               toolCallId := toolCallId row;
               inputJson := inputJson row;
               telegramChatId := telegramChatId row;
               messageThreadId := messageThreadId row;
               promptMessageId := promptMessageId row;
               riskProfile := riskProfile row;
               status := expired;
               reason := Some (js "Approval expired");
               expiresAt := expiresAt row;
               decidedAt := Some now;
               decidedBy := Some (js "system") |} in
          (Some row', withApprovals db (<[approvalId := row']> (toolApprovals db)))
      | _ => (None, db)
      end
  | None => (None, db)
  end.

Definition updateToolApprovalPromptMessage (approvalId telegramChatId : jsstring)
    (messageThreadId : option Z) (promptMessageId : Z) (db : Database)
  : option ToolApproval * Database :=
  match toolApprovals db !! approvalId with
  | Some row =>
      let row' :=
        {| approvalId := Schema.approvalId row;
           callbackToken := callbackToken row;
           sessionId := sessionId row;
           toolName := toolName row;
           toolCallId := toolCallId row;
           inputJson := inputJson row;
           telegramChatId := telegramChatId;
           messageThreadId := messageThreadId;
           promptMessageId := Some promptMessageId;
           riskProfile := riskProfile row;
           status := Schema.status row;
           reason := Schema.reason row;
           expiresAt := expiresAt row;
           decidedAt := decidedAt row;
           decidedBy := decidedBy row |} in
      (Some row', withApprovals db (<[approvalId := row']> (toolApprovals db)))
  | None => (None, db)
  end.

Record DecideInput := {
  inApprovalId : jsstring;
  inApproved : bool;
  inDecidedBy : jsstring;
  inCorrelationId : jsstring;
  inReason : option jsstring;
}.

(** [{ ok: false, reason }] or [{ ok: true, approval }] *)
Inductive DecideResult :=
| NotOk (reason : jsstring)
| Ok (approval : ToolApproval).

(** A call of [decideApproval] is not one step: it awaits
    [getToolApproval], and only when it resumes does it check the row it read
    and write.  Other calls may run between the two, so the call is modelled
    in two parts: the read, and [decideApprovalAfterRead], what the call does
    from its first [await] on, given the row [current] that the read returned,
    the clock [now] of the process when the call resumes and checks the
    expiry, and the store [db] on which its statements then execute. *)
Definition decideApprovalAfterRead (input : DecideInput) (current : option ToolApproval)
    (now : Z) (db : Database) : DecideResult * Database :=
  match current with
  | None => (NotOk (js "Approval not found."), db)
  | Some current =>
      match Schema.status current with
      | requested =>
          if expiresAt current <? now then
            let '(_, db1) := expirePendingApproval (Schema.approvalId current) now db in
            (NotOk (js "Approval already expired."), db1)
          else
            let status := if inApproved input then approved else denied in
            let '(updated, db1) :=
              updateToolApprovalDecision (inApprovalId input) status
                (inDecidedBy input) (truthy (inReason input)) now db in
            let '(_, db2) :=
              Audit.appendAuditEvent
                {| Audit.recActorType := js "telegram_user";
                   Audit.recActorId := inDecidedBy input;
                   Audit.recEventType := js "approval.decided";
                   Audit.recCorrelationId := inCorrelationId input;
                   Audit.recMetadata :=
                     JObj [ (js "approvalId", JStr (inApprovalId input));
                            (js "approved", JBool (inApproved input));
                            (js "reason", Audit.nullable (inReason input)) ] |}
                now db1 in
            (Ok (match updated with
                 | Some row => row
                 | None => current
                 end), db2)
      | other =>
          (NotOk (js "Approval already " ++ statusString other ++ js "."), db)
      end
  end.

(** A call of [decideApproval] that no other call interrupts: it resumes on
    the store it read. *)
Definition decideApproval (input : DecideInput) (now : Z) (db : Database)
  : DecideResult * Database :=
  decideApprovalAfterRead input (getToolApproval (inApprovalId input) db) now db.

(** Two calls of [decideApproval] for one store, both of which read before
    either resumes: the first resumes at [firstNow], the second at
    [secondNow] on the store the first has left.  The results and the stores
    after each call. *)
Definition decideApprovalInterleaved (first second : DecideInput)
    (firstNow secondNow : Z) (db : Database)
  : (DecideResult * Database) * (DecideResult * Database) :=
  let firstRead := getToolApproval (inApprovalId first) db in
  let secondRead := getToolApproval (inApprovalId second) db in
  let afterFirst := decideApprovalAfterRead first firstRead firstNow db in
  let afterSecond := decideApprovalAfterRead second secondRead secondNow (snd afterFirst) in
  (afterFirst, afterSecond).

(** The job of the [approval-timeouts] worker, as far as the store is
    concerned, from its first [await] on: [read] is what [getToolApproval]
    returned. *)
Definition approvalTimeoutJobAfterRead (correlationId : jsstring)
    (read : option ToolApproval) (now : Z) (db : Database) : Database :=
  match read with
  | None => db
  | Some approval =>
      match Schema.status approval with
      | requested =>
          if now <? expiresAt approval then db
          else
            let '(_, db1) := expirePendingApproval (Schema.approvalId approval) now db in
            let '(_, db2) :=
              Audit.appendAuditEvent
                {| Audit.recActorType := js "system";
                   Audit.recActorId := js "approval-timeout-worker";
                   Audit.recEventType := js "approval.expired";
                   Audit.recCorrelationId := correlationId;
                   Audit.recMetadata :=
                     JObj [ (js "approvalId", JStr (Schema.approvalId approval));
                            (js "sessionId", JStr (sessionId approval)) ] |}
                now db1 in
            db2
      | _ => db
      end
  end.

(** The job when nothing runs between its read and the rest. *)
Definition approvalTimeoutJob (approvalId correlationId : jsstring) (now : Z)
    (db : Database) : Database :=
  approvalTimeoutJobAfterRead correlationId (getToolApproval approvalId db) now db.

(** A decision whose call read the row before the timeout job ran, and
    resumes after it. *)
Definition decideAfterTimeoutJob (input : DecideInput) (correlationId : jsstring)
    (jobNow decideNow : Z) (db : Database) : Database * (DecideResult * Database) :=
  let decideRead := getToolApproval (inApprovalId input) db in
  let afterJob := approvalTimeoutJob (inApprovalId input) correlationId jobNow db in
  (afterJob, decideApprovalAfterRead input decideRead decideNow afterJob).

(** The operations of the approval engine on the store, each run without
    interruption. *)
Inductive Operation :=
| OpCreate (record : ToolApproval)
| OpDecide (input : DecideInput)
| OpExpirePending (approvalId : jsstring)
| OpTimeoutJob (approvalId correlationId : jsstring)
| OpPromptMessage (approvalId telegramChatId : jsstring)
    (messageThreadId : option Z) (promptMessageId : Z).

Definition perform (op : Operation) (now : Z) (db : Database) : Database :=
  match op with
  | OpCreate record => (createToolApproval record db).2
  | OpDecide input => (decideApproval input now db).2
  | OpExpirePending approvalId => (expirePendingApproval approvalId now db).2
  | OpTimeoutJob approvalId correlationId =>
      approvalTimeoutJob approvalId correlationId now db
  | OpPromptMessage approvalId telegramChatId messageThreadId promptMessageId =>
      (updateToolApprovalPromptMessage approvalId telegramChatId messageThreadId
         promptMessageId db).2
  end.

Definition isTerminal (s : ApprovalStatus) : bool :=
  match s with
  | requested => false
  | _ => true
  end.

(** An approval that was approved, and a store that holds only it. *)
Definition approvedSample : ToolApproval := {|
  approvalId := js "apr_1";
  callbackToken := js "AAECAwQFBg";
  sessionId := js "s1";
  toolName := js "tonSendBlockchainMessage";
  toolCallId := js "call_1";
  inputJson := JObj [(js "amount", JNum 2)];
  telegramChatId := js "1001";
  messageThreadId := None;
  promptMessageId := None;
  riskProfile := balanced;
  status := approved;
  reason := None;
  expiresAt := 1771761900000;
  decidedAt := Some 1771761650000;
  decidedBy := Some (js "2001");
|}.

Definition sampleDatabase : Database := {|
  toolApprovals := {[ js "apr_1" := approvedSample ]};
  processedUpdates := ∅;
  auditEvents := [];
|}.

(** *** Callback tokens *)

Definition BASE64URL_ALPHABET : jsstring :=
  js "ABCDEFGHIJKLMNOPQRSTUVWXYZabcdefghijklmnopqrstuvwxyz0123456789-_".

Definition base64urlChar (sextet : N) : N := nth (N.to_nat sextet) BASE64URL_ALPHABET 0%N.

(** [buffer.toString("base64url")]: no padding. *)
Fixpoint base64url (bytes : list N) : jsstring :=
  match bytes with
  | b0 :: b1 :: b2 :: rest =>
      [ base64urlChar (b0 / 4);
        base64urlChar (b0 mod 4 * 16 + b1 / 16);
        base64urlChar (b1 mod 16 * 4 + b2 / 64);
        base64urlChar (b2 mod 64) ]%N ++ base64url rest
  | [b0; b1] =>
      [ base64urlChar (b0 / 4);
        base64urlChar (b0 mod 4 * 16 + b1 / 16);
        base64urlChar (b1 mod 16 * 4) ]%N
  | [b0] => [ base64urlChar (b0 / 4); base64urlChar (b0 mod 4 * 16) ]%N
  | [] => []
  end.

(** The class [[a-zA-Z0-9_-]]. *)
Definition isTokenChar (c : N) : bool :=
  ((97 <=? c) && (c <=? 122) || (65 <=? c) && (c <=? 90)
   || (48 <=? c) && (c <=? 57) || (c =? 95) || (c =? 45))%N.

(** [createApprovalCallbackToken], from the bytes that [randomBytes(7)]
    returned. *)
Definition createApprovalCallbackToken (randomBytes7 : list N) : jsstring :=
  firstn 14 (filter (fun c => isTokenChar c = true) (base64url randomBytes7)).

End Approvals.

(** ** Update store ([db/queries/updates.ts]) *)

Module Updates.

Definition withUpdates (db : Database) (table : gmap jsstring ProcessedUpdate) : Database :=
  {| toolApprovals := toolApprovals db;
     processedUpdates := table;
     auditEvents := auditEvents db |}.

Definition tryInsertProcessedUpdate (updateId : Z) (rawUpdateJson : json Z) (now : Z)
    (db : Database) : (bool * option ProcessedUpdate) * Database :=
  let id := stringOfInt updateId in
  match processedUpdates db !! id with
  | None =>
      let created :=
        {| telegramUpdateId := id;
           rawUpdateJson := rawUpdateJson;
           updateStatus := received;
           receivedAt := now;
           handledAt := None;
           error := None |} in
      ((true, Some created), withUpdates db (<[id := created]> (processedUpdates db)))
  | Some existing => ((false, Some existing), db)
  end.

Definition markProcessedUpdateStatus (updateId : Z) (status : ProcessedUpdateStatus)
    (error : option jsstring) (now : Z) (db : Database) : Database :=
  let id := stringOfInt updateId in
  match processedUpdates db !! id with
  | Some row =>
      withUpdates db
        (<[id := {| telegramUpdateId := telegramUpdateId row;
                    rawUpdateJson := rawUpdateJson row;
                    updateStatus := status;
                    receivedAt := receivedAt row;
                    handledAt := match status with
                                 | processed | update_failed => Some now
                                 | _ => None
                                 end;
                    error := error |}]> (processedUpdates db))
  | None => db
  end.

Definition getProcessedUpdateById (updateId : Z) (db : Database) : option ProcessedUpdate :=
  processedUpdates db !! stringOfInt updateId.

(** Modelled from the spec: the order [received → enqueued → {processed,
    failed}] of invariant I2, with [received → received] permitted. *)
Definition rank (s : ProcessedUpdateStatus) : Z :=
  match s with
  | received => 0
  | enqueued => 1
  | processed | update_failed => 2
  end.

Definition monotone (from to : ProcessedUpdateStatus) : bool := rank from <=? rank to.

(** A store whose only update, number 42, was processed. *)
Definition processedSample : Database := {|
  toolApprovals := ∅;
  processedUpdates :=
    {[ js "42" := {| telegramUpdateId := js "42";
                     rawUpdateJson := JObj [(js "update_id", JNum 42)];
                     updateStatus := processed;
                     receivedAt := 1771761600000;
                     handledAt := Some 1771761600500;
                     error := None |} ]};
  auditEvents := [];
|}.

End Updates.

(** ** Risk policy ([approvals/risk-policy.ts])

    The estimates are JavaScript numbers.  The operations the policy applies
    to them are an interface; the policy is written once for every
    implementation of it. *)

Class JSNumber (num : Type) : Type := {
(** [Number.isFinite(x)] *)
isFinite : num -> bool;
(** [Number(s)] *)
parseNumber : jsstring -> num;
(** the literal [n / 10^e] *)
decimal : Z -> nat -> num;
(** [x >= y] *)
numGe : num -> num -> bool;
(** [x / y] *)
numDiv : num -> num -> num;
(** [x.toFixed(digits)] *)
toFixed : num -> nat -> jsstring;
}.

(** An implementation of the interface: exact rational arithmetic, with
    [None] for the values that are not finite.  [Number(s)] reads a decimal
    literal with an optional sign and an optional fraction. *)
Module RationalNumber.

Definition digitValue (c : N) : option Z :=
  if ((48 <=? c) && (c <=? 57))%N then Some (Z.of_N c - 48) else None.

(** The digits of [s] read onto [acc]; [scale] counts them. *)
Fixpoint readDigits (s : jsstring) (acc : Z) (scale : nat) : option (Z * nat * jsstring) :=
  match s with
  | [] => Some (acc, scale, [])
  | c :: r =>
      match digitValue c with
      | Some d => readDigits r (acc * 10 + d) (S scale)
      | None => Some (acc, scale, s)
      end
  end.

Definition parseUnsigned (s : jsstring) : option Q :=
  match readDigits s 0 0 with
  | Some (whole, n, []) => if (0 <? n)%nat then Some (inject_Z whole) else None
  | Some (whole, n, c :: r) =>
      if (c =? 46)%N then
        match readDigits r 0 0 with
        | Some (frac, m, []) =>
            if (0 <? n + m)%nat
            then Some (Qred (inject_Z whole + inject_Z frac / inject_Z (10 ^ Z.of_nat m)))
            else None
        | _ => None
        end
      else None
  | None => None
  end.

Definition parse (s : jsstring) : option Q :=
  match s with
  | c :: r =>
      if (c =? 45)%N then Qopp <$> parseUnsigned r
      else if (c =? 43)%N then parseUnsigned r
      else parseUnsigned s
  | [] => Some 0%Q
  end.

(** [x.toFixed(digits)]: the nearest multiple of [10^-digits], the larger
    one on a tie. *)
Definition fixed (x : Q) (digits : nat) : jsstring :=
  let scale := 10 ^ Z.of_nat digits in
  let n := Qfloor (x * inject_Z scale + (1 # 2)) in
  let a := Z.abs n in
  let frac := stringOfInt (a mod scale) in
  (if n <? 0 then js "-" else [])
  ++ stringOfInt (a / scale)
  ++ (if (0 <? digits)%nat
      then js "." ++ repeat 48%N (digits - length frac) ++ frac
      else []).

#[export] Instance number : JSNumber (option Q) := {|
  isFinite := fun x => match x with Some _ => true | None => false end;
  parseNumber := parse;
  decimal := fun n e => Some (Qred (inject_Z n / inject_Z (10 ^ Z.of_nat e)));
  numGe := fun x y =>
    match x, y with
    | Some a, Some b => Qle_bool b a
    | _, _ => false
    end;
  numDiv := fun x y =>
    match x, y with
    | Some a, Some b => if Qeq_bool b 0 then None else Some (Qred (a / b))
    | _, _ => None
    end;
  toFixed := fun x digits =>
    match x with
    | Some a => fixed a digits
    | None => js "NaN"
    end;
|}.

End RationalNumber.

Module RiskPolicy.
Section WithNumbers.
Context {num : Type} `{JSNumber num}.
Context (toLowerCase : jsstring -> jsstring).

Inductive ApprovalEstimateConfidence := conf_high | conf_medium | conf_low.

Record ApprovalAssessment := {
  level : ApprovalRiskLevel;
  reasons : list jsstring;
  valueTon : option num;
  gasTon : option num;
  confidence : ApprovalEstimateConfidence;
}.

Record NumberCandidate := {
  key : jsstring;
  path : jsstring;
  value : num;
}.

Definition BASE_RISK_BY_TOOL (toolName : jsstring) : option ApprovalRiskLevel :=
  if decide (toolName = js "tonSendBlockchainMessage") then Some high
  else if decide (toolName = js "tonSendBlockchainMessageBatch") then Some critical
  else if decide (toolName = js "tonBuildAndSendExternalMessage") then Some high
  else if decide (toolName = js "tonTonConnectProof") then Some medium
  else None.

Definition VALUE_HINTS : list jsstring :=
  [ js "amount"; js "value"; js "ton"; js "coins"; js "send" ].
Definition GAS_HINTS : list jsstring :=
  [ js "gas"; js "fee"; js "fwd_fee"; js "forward_fee"; js "storage_fee" ].

Definition parseNumberish (value : json num) : option num :=
  match value with
  | JNum n => if isFinite n then Some n else None
  | JStr s =>
      if (0 <? length (JS.trim s))%nat
      then let parsed := parseNumber (JS.trim s) in
           if isFinite parsed then Some parsed else None
      else None
  | _ => None
  end.

(** The candidates are pushed in the order of the traversal. *)
Fixpoint walkNumericCandidates (value : json num) (path : jsstring)
  : list NumberCandidate :=
  match value with
  | JArr items =>
      (fix each (items : list (json num)) (index : Z) : list NumberCandidate :=
         match items with
         | [] => []
         | item :: rest =>
             walkNumericCandidates item (path ++ js "[" ++ stringOfInt index ++ js "]")
             ++ each rest (index + 1)
         end) items 0
  | JObj entries =>
      (fix each (entries : list (jsstring * json num)) : list NumberCandidate :=
         match entries with
         | [] => []
         | (entryKey, entryValue) :: rest =>
             let nextPath :=
               if (0 <? length path)%nat then path ++ js "." ++ entryKey else entryKey in
             match parseNumberish entryValue with
             | Some numberValue =>
                 [ {| key := toLowerCase entryKey;
                      path := toLowerCase nextPath;
                      value := numberValue |} ]
             | None => []
             end
             ++ walkNumericCandidates entryValue nextPath
             ++ each rest
         end) entries
  | _ => []
  end.

Definition toTonValue (candidate : NumberCandidate) : num :=
  if JS.includes (js "nano") (key candidate)
     || JS.includes (js "nano") (path candidate)
     || JS.includes (js "nanoton") (path candidate)
  then numDiv (value candidate) (decimal 1000000000 0)
  else value candidate.

(** [values.sort((left, right) => right - left)]: a stable sort into
    descending order. *)
Fixpoint insertDescending (x : num) (sorted : list num) : list num :=
  match sorted with
  | [] => [x]
  | y :: rest => if numGe x y then x :: sorted else y :: insertDescending x rest
  end.

Definition sortDescending (values : list num) : list num :=
  fold_right insertDescending [] values.

Definition pickEstimate (candidates : list NumberCandidate) (hints : list jsstring)
  : option num :=
  let matching :=
    filter (fun candidate =>
              existsb (fun hint => JS.includes hint (key candidate)
                                   || JS.includes hint (path candidate)) hints = true)
           candidates in
  if (length matching =? 0)%nat then None
  else
    head (sortDescending
            (filter (fun value => isFinite value && numGe value (decimal 0 0) = true)
                    (map toTonValue matching))).

Definition riskToScore (risk : ApprovalRiskLevel) : Z :=
  match risk with
  | low => 0
  | medium => 1
  | high => 2
  | critical => 3
  end.

Definition scoreToRisk (score : Z) : ApprovalRiskLevel :=
  if score <=? 0 then low
  else if score =? 1 then medium
  else if score =? 2 then high
  else critical.

Definition valueAtLeast (valueTon : option num) (bound : Z) : bool :=
  numGe (match valueTon with
         | Some v => v
         | None => decimal 0 0
         end) (decimal bound 0).

Definition applyRiskProfileAdjustment (baseRisk : ApprovalRiskLevel)
    (profile : RiskProfile) (valueTon : option num) : ApprovalRiskLevel :=
  let score := riskToScore baseRisk in
  let score :=
    match profile with
    | cautious => score + 1
    | advanced => if 0 <? score then score - 1 else score
    | balanced => score
    end in
  let score :=
    if valueAtLeast valueTon 100 then Z.max score 3
    else if valueAtLeast valueTon 10 then Z.max score 2
    else if valueAtLeast valueTon 1 then Z.max score 1
    else score in
  scoreToRisk (Z.min 3 (Z.max 0 score)).

(** [input.messages ?? input.transfers] *)
Definition inferBatchItemCount (input : json num) : Z :=
  match input with
  | JObj entries =>
      let entries' :=
        match getProp (js "messages") entries with
        | Some JNull | None => getProp (js "transfers") entries
        | Some v => Some v
        end in
      match entries' with
      | Some (JArr items) => Z.of_nat (length items)
      | _ => 0
      end
  | _ => 0
  end.

Definition assessApproval (toolName : jsstring) (toolInput : json num)
    (riskProfile : RiskProfile) : ApprovalAssessment :=
  let numericCandidates := walkNumericCandidates toolInput [] in
  let valueTon := pickEstimate numericCandidates VALUE_HINTS in
  let gasTon :=
    Some (match pickEstimate numericCandidates GAS_HINTS with
          | Some gas => gas
          | None =>
              if decide (toolName = js "tonSendBlockchainMessageBatch")
              then decimal 5 2 else decimal 2 2
          end) in
  let batchCount := inferBatchItemCount toolInput in
  let reasons :=
    [ js "Tool request: " ++ toolName ++ js "." ]
    ++ (if 1 <? batchCount
        then [ js "Batch operation contains " ++ stringOfInt batchCount ++ js " item(s)." ]
        else [])
    ++ [ match valueTon with
         | Some v => js "Estimated transfer value is " ++ toFixed v 6 ++ js " TON."
         | None => js "Transfer value could not be determined with high confidence."
         end ]
    ++ match gasTon with
       | Some g => [ js "Estimated gas/fees are " ++ toFixed g 6 ++ js " TON." ]
       | None => []
       end in
  let baseRisk :=
    match BASE_RISK_BY_TOOL toolName with
    | Some risk => risk
    | None => medium
    end in
  let '(baseRisk, reasons) :=
    if 5 <=? batchCount
    then (critical, reasons ++ [ js "Large batch size increased risk." ])
    else (baseRisk, reasons) in
  let adjustedRisk := applyRiskProfileAdjustment baseRisk riskProfile valueTon in
  let confidence :=
    match valueTon, gasTon with
    | Some _, Some _ => conf_high
    | Some _, None | None, Some _ => conf_medium
    | None, None => conf_low
    end in
  {| level := adjustedRisk;
     reasons := reasons;
     valueTon := valueTon;
     gasTon := gasTon;
     confidence := confidence |}.

(** Modelled from the spec: the confidence of the specification, from
    whether a value estimate and a gas estimate were extracted from the
    tool input. *)
Definition specConfidence (toolInput : json num) : ApprovalEstimateConfidence :=
  let numericCandidates := walkNumericCandidates toolInput [] in
  match pickEstimate numericCandidates VALUE_HINTS,
        pickEstimate numericCandidates GAS_HINTS with
  | Some _, Some _ => conf_high
  | Some _, None | None, Some _ => conf_medium
  | None, None => conf_low
  end.

End WithNumbers.

Arguments ApprovalAssessment num : clear implicits.
Arguments NumberCandidate num : clear implicits.

End RiskPolicy.

(** ** Provider fallback ([agent/ton-agent.ts], [agent/model-provider.ts]) *)

Module Agent.

Inductive AgentModelProvider := openrouter | ai_gateway.

(** A chunk of [streamResult.fullStream]. *)
Inductive Chunk :=
| TextDelta (text : jsstring)
| OtherChunk.

(** What the stream of a model does when it is run: the chunks it yields,
    and then either an error (raised by [agent.stream], by the iteration
    or by the awaited result) or the final text and response messages. *)
Inductive StreamEnd :=
| StreamFails (error : jsstring)
| StreamCompletes (streamText : jsstring) (messages : list (json Z)).

Record LanguageModel := {
  chunks : list Chunk;
  ending : StreamEnd;
}.

Record AgentModelAttempt := {
  provider : AgentModelProvider;
  modelId : jsstring;
  model : LanguageModel;
}.

Record Env := {
  AI_MODEL : jsstring;
  AI_GATEWAY_API_KEY : option jsstring;
  AI_GATEWAY_FALLBACK_MODEL : option jsstring;
  openRouterModel : jsstring -> LanguageModel;
  gatewayModel : jsstring -> LanguageModel;
}.

Definition resolveGatewayFallbackModelId (requestedModelId : jsstring)
    (configuredFallbackModelId : option jsstring) : jsstring :=
  match configuredFallbackModelId with
  | Some (c :: r) =>
      let trimmed := JS.trim (c :: r) in
      if (0 <? length trimmed)%nat then trimmed else requestedModelId
  | _ => requestedModelId
  end.

Definition buildAgentModelAttempts (env : Env) (requestedModelId : jsstring)
  : list AgentModelAttempt :=
  let openRouterModelId :=
    if (0 <? length (JS.trim requestedModelId))%nat
    then JS.trim requestedModelId else AI_MODEL env in
  let gatewayModelId :=
    resolveGatewayFallbackModelId openRouterModelId (AI_GATEWAY_FALLBACK_MODEL env) in
  [ {| provider := openrouter;
       modelId := openRouterModelId;
       model := openRouterModel env openRouterModelId |} ]
  ++ match AI_GATEWAY_API_KEY env with
     | Some (_ :: _) =>
         [ {| provider := ai_gateway;
              modelId := gatewayModelId;
              model := gatewayModel env gatewayModelId |} ]
     | _ => []
     end.

Record AgentProviderExecutionResult := {
  resProvider : AgentModelProvider;
  resModelId : jsstring;
  responseText : jsstring;
  responseMessages : list (json Z);
  usedFallback : bool;
  primaryErrorMessage : option jsstring;
}.

(** What one run leaves behind: the attempts whose stream was started, in
    order, and the text deltas handed to [emitTextDelta]. *)
Record Trace := {
  started : list AgentModelProvider;
  emitted : list jsstring;
}.

(** The text deltas of a stream that are emitted: those that are not
    empty. *)
Definition textDeltas (cs : list Chunk) : list jsstring :=
  flat_map (fun c => match c with
                     | TextDelta (x :: text) => [x :: text]
                     | _ => []
                     end) cs.

(** The loop over the chunks of one stream: the flag [emittedAnyDelta],
    the accumulated [streamedText] and the deltas forwarded. *)
Fixpoint consume (cs : list Chunk) (emittedAnyDelta : bool) (streamedText : jsstring)
    (forwarded : list jsstring) : bool * jsstring * list jsstring :=
  match cs with
  | [] => (emittedAnyDelta, streamedText, forwarded)
  | TextDelta text :: rest =>
      if (length text =? 0)%nat
      then consume rest emittedAnyDelta streamedText forwarded
      else consume rest true (streamedText ++ text) (forwarded ++ [text])
  | OtherChunk :: rest => consume rest emittedAnyDelta streamedText forwarded
  end.

(** The body of the [for] loop of [executeWithProviderFallback], from
    attempt number [index] on. *)
Fixpoint attemptsFrom (attempts : list AgentModelAttempt) (index : nat)
    (hasFallbackAttempt : bool) (primaryError : option jsstring) (trace : Trace)
  : Outcome AgentProviderExecutionResult * Trace :=
  match attempts with
  | [] =>
      match primaryError with
      | Some e => (Throw e, trace)
      | None => (Throw (js "No model provider attempts were available."), trace)
      end
  | attempt :: rest =>
      let '(emittedAnyDelta, streamedText, forwarded) :=
        consume (chunks (model attempt)) false [] [] in
      let trace' :=
        {| started := started trace ++ [provider attempt];
           emitted := emitted trace ++ forwarded |} in
      match ending (model attempt) with
      | StreamCompletes streamText messages =>
          let normalizedText :=
            if (0 <? length (JS.trim streamText))%nat then streamText else streamedText in
          (Return {| resProvider := provider attempt;
                     resModelId := modelId attempt;
                     responseText := normalizedText;
                     responseMessages := messages;
                     usedFallback := (0 <? index)%nat;
                     primaryErrorMessage := primaryError |},
           trace')
      | StreamFails error =>
          if (index =? 0)%nat then
            if hasFallbackAttempt then
              if emittedAnyDelta then (Throw error, trace')
              else attemptsFrom rest (S index) hasFallbackAttempt (Some error) trace'
            else (Throw error, trace')
          else (Throw error, trace')
      end
  end.

Definition executeWithProviderFallback (env : Env) (requestedModelId : jsstring)
  : Outcome AgentProviderExecutionResult * Trace :=
  let attempts := buildAgentModelAttempts env requestedModelId in
  let hasFallbackAttempt := (1 <? length attempts)%nat in
  attemptsFrom attempts 0 hasFallbackAttempt None {| started := []; emitted := [] |}.

(** The model id of the primary attempt. *)
Definition primaryModelId (env : Env) (requestedModelId : jsstring) : jsstring :=
  if (0 <? length (JS.trim requestedModelId))%nat
  then JS.trim requestedModelId else AI_MODEL env.

(** An environment with a fallback provider whose primary stream fails
    before any text and whose fallback stream answers. *)
Definition failingPrimaryEnv : Env := {|
  AI_MODEL := js "openai/gpt-5.2";
  AI_GATEWAY_API_KEY := Some (js "key");
  AI_GATEWAY_FALLBACK_MODEL := None;
  openRouterModel := fun _ =>
    {| chunks := [OtherChunk; TextDelta []]; ending := StreamFails (js "upstream 502") |};
  gatewayModel := fun _ =>
    {| chunks := [TextDelta (js "Hello"); TextDelta (js " there")];
       ending := StreamCompletes (js "Hello there") [] |};
|}.

End Agent.

(** ** More of the approval engine *)

Module ApprovalFlow.

(** An approval that waits for its decision, and a store that holds only
    it. *)
Definition pendingSample : ToolApproval := {|
  approvalId := js "apr_1";
  callbackToken := js "AAECAwQFBg";
  sessionId := js "s1";
  toolName := js "tonSendBlockchainMessage";
  toolCallId := js "call_1";
  inputJson := JObj [(js "amount", JNum 2)];
  telegramChatId := js "1001";
  messageThreadId := None;
  promptMessageId := None;
  riskProfile := balanced;
  status := requested;
  reason := None;
  expiresAt := 1771761900000;
  decidedAt := None;
  decidedBy := None;
|}.

Definition pendingDatabase : Database := {|
  toolApprovals := {[ js "apr_1" := pendingSample ]};
  processedUpdates := ∅;
  auditEvents := [];
|}.

Definition approveInput : Approvals.DecideInput := {|
  Approvals.inApprovalId := js "apr_1";
  Approvals.inApproved := true;
  Approvals.inDecidedBy := js "2001";
  Approvals.inCorrelationId := js "c1";
  Approvals.inReason := None;
|}.

Definition denyInput : Approvals.DecideInput := {|
  Approvals.inApprovalId := js "apr_1";
  Approvals.inApproved := false;
  Approvals.inDecidedBy := js "2002";
  Approvals.inCorrelationId := js "c2";
  Approvals.inReason := Some (js "User denied via Telegram callback.");
|}.

End ApprovalFlow.

(** ** Reading the audit chain *)

Module AuditChain.





(** The instants of a list never go back. *)
Fixpoint nondecreasing (floor : Z) (instants : list Z) : bool :=
  match instants with
  | [] => true
  | t :: rest => (floor <=? t) && nondecreasing t rest
  end.


End AuditChain.

(** ** Ingestion of updates ([telegram/webhook.ts], [queue/queues.ts]) *)

Module Ingestion.

(** The [updates] queue, as the identifiers of its jobs in the order in
    which they were added.  Adding a job whose identifier the queue already
    holds leaves the queue as it is. *)
Definition addJob (jobId : jsstring) (jobs : list jsstring) : list jsstring :=
  if bool_decide (jobId ∈ jobs) then jobs else jobs ++ [jobId].

Definition updateJobId (updateId : Z) : jsstring := js "update-" ++ stringOfInt updateId.

(** [enqueueUpdate]; [queueUp] tells whether the queue can be reached, and
    the call raises when it cannot. *)
Definition enqueueUpdate (queueUp : bool) (updateId : Z) (jobs : list jsstring)
  : Outcome unit * list jsstring :=
  if queueUp then (Return tt, addJob (updateJobId updateId) jobs)
  else (Throw (js "Connection is closed."), jobs).

(** [enqueuePersistedUpdate] of the webhook route. *)
Definition enqueuePersistedUpdate (queueUp : bool) (updateId : Z) (now : Z)
    (st : Database * list jsstring) : Database * list jsstring :=
  match enqueueUpdate queueUp updateId (snd st) with
  | (Return _, jobs) =>
      (Updates.markProcessedUpdateStatus updateId enqueued None now (fst st), jobs)
  | (Throw message, jobs) =>
      (Updates.markProcessedUpdateStatus updateId received (Some message) now (fst st),
       jobs)
  end.

(** What the webhook answers. *)
Inductive WebhookReply := Accepted | Duplicate.

(** [handleWebhook] for a payload that carries a numeric [update_id] and
    passed the secret check, run without interruption; the handler answers
    before the enqueue it starts has finished, and the state returned is the
    one reached when it has. *)
Definition handleWebhook (queueUp : bool) (updateId : Z) (body : json Z) (now : Z)
    (st : Database * list jsstring) : WebhookReply * (Database * list jsstring) :=
  match Updates.tryInsertProcessedUpdate updateId body now (fst st) with
  | ((false, _), db) => (Duplicate, (db, snd st))
  | ((true, _), db) => (Accepted, enqueuePersistedUpdate queueUp updateId now (db, snd st))
  end.

(** [listReceivedUpdatesForEnqueueRecovery]: the rows in status [received],
    ordered by [receivedAt], at most [limit] of them.  The database orders
    rows of equal [receivedAt] as it pleases; the sort below is one such
    order. *)
Fixpoint insertByReceivedAt (row : ProcessedUpdate) (sorted : list ProcessedUpdate)
  : list ProcessedUpdate :=
  match sorted with
  | [] => [row]
  | first :: rest =>
      if receivedAt row <? receivedAt first then row :: sorted
      else first :: insertByReceivedAt row rest
  end.

Definition sortByReceivedAt (rows : list ProcessedUpdate) : list ProcessedUpdate :=
  fold_right insertByReceivedAt [] rows.

Definition isReceived (row : ProcessedUpdate) : bool :=
  match updateStatus row with
  | received => true
  | _ => false
  end.

Definition listReceivedUpdatesForEnqueueRecovery (limit : nat) (db : Database)
  : list (jsstring * Z) :=
  map (fun row => (telegramUpdateId row, receivedAt row))
      (take limit
         (sortByReceivedAt
            (filter (fun row => isReceived row = true)
                    (map snd (map_to_list (processedUpdates db)))))).

(** The order of arrival. *)
Definition receivedBefore (a b : ProcessedUpdate) : Prop := receivedAt a <= receivedAt b.

End Ingestion.

(** ** The cooldown of rate-limit notices ([security/rate-limit.ts]) *)

Module Notice.
Import RateLimit RedisServer.

Definition reasonText (reason : RateLimitReason) : jsstring :=
  match reason with
  | reason_allowed => js "allowed"
  | chat_flood => js "chat_flood"
  | user_burst => js "user_burst"
  | user_minute => js "user_minute"
  | user_daily => js "user_daily"
  | rate_limit_storage_error => js "rate_limit_storage_error"
  end.

Definition noticeKey (telegramUserId : jsstring) (reason : RateLimitReason) : jsstring :=
  KEY_PREFIX ++ js ":notice:" ++ telegramUserId ++ js ":" ++ reasonText reason.

(** [SET key "1" EX ttl NX]: the server refuses a time to live that is not
    positive; otherwise the key is written, and [true] ("OK") returned, only
    when it is absent or expired. *)
Definition SET_NX_EX (now : Z) (key : jsstring) (ttl : Z) : M Store bool :=
  fun st =>
    if ttl <=? 0 then (Throw (js "ERR invalid expire time in 'set' command"), st)
    else
      match liveEntry now st key with
      | Some _ => (Return false, st)
      | None =>
          (Return true, <[key := {| value := 1; expireAtMs := Some (now + ttl * 1000) |}]> st)
      end.

Definition shouldSendRateLimitNotice (config : RateLimitConfig) (now : Z)
    (telegramUserId : jsstring) (reason : RateLimitReason) : Store -> bool * Store :=
  tryCatch (SET_NX_EX now (noticeKey telegramUserId reason) (noticeCooldownSeconds config))
           (fun _ => true).

End Notice.

(** ** The answer of an attempt ([agent/ton-agent.ts]) *)

Module AgentAnswer.
Import Agent.

(** The text a completed attempt answers with: the text of the stream
    result unless it is blank, else the deltas it streamed, concatenated. *)
Definition answerOf (attempt : AgentModelAttempt) (streamText : jsstring) : jsstring :=
  if (0 <? length (JS.trim streamText))%nat then streamText
  else concat (textDeltas (chunks (model attempt))).

End AgentAnswer.

(** ** The approval card ([approvals/presenter.ts]) *)

Module Presenter.
Section WithNumbers.
Context {num : Type} `{JSNumber num}.
Context (toLowerCase : jsstring -> jsstring).

Definition requiresAdditionalCautiousConfirmation (riskProfile : RiskProfile)
    (riskLevel : ApprovalRiskLevel) : bool :=
  match riskProfile, riskLevel with
  | cautious, (high | critical) => true
  | _, _ => false
  end.

(** The field [cautiousRequiresSecondTap] of the card that
    [renderApprovalCardText] returns. *)
Definition cautiousRequiresSecondTap (toolName : jsstring) (inputJson : json num)
    (riskProfile : RiskProfile) : bool :=
  requiresAdditionalCautiousConfirmation riskProfile
    (RiskPolicy.level (RiskPolicy.assessApproval toLowerCase toolName inputJson riskProfile)).

End WithNumbers.
End Presenter.

(** ** Approval callbacks ([approvals/ui.ts], [telegram/bot.ts]) *)

Module Router.
Import RedisServer.

Inductive ApprovalCallbackAction := ActApprove | ActDeny | ActDetails | ActRefresh.

Definition actionText (action : ApprovalCallbackAction) : jsstring :=
  match action with
  | ActApprove => js "approve"
  | ActDeny => js "deny"
  | ActDetails => js "details"
  | ActRefresh => js "refresh"
  end.

(** [`ap:${callbackToken}:${action}`] *)
Definition buildApprovalCallbackData (callbackToken : jsstring)
    (action : ApprovalCallbackAction) : jsstring :=
  js "ap:" ++ callbackToken ++ js ":" ++ actionText action.

(** The alternation [(approve|deny|details|refresh)] followed by the end of
    the text. *)
Definition parseAction (s : jsstring) : option ApprovalCallbackAction :=
  if decide (s = js "approve") then Some ActApprove
  else if decide (s = js "deny") then Some ActDeny
  else if decide (s = js "details") then Some ActDetails
  else if decide (s = js "refresh") then Some ActRefresh
  else None.

(** The longest prefix without a colon (code unit 58), and the rest. *)
Fixpoint spanNotColon (s : jsstring) : jsstring * jsstring :=
  match s with
  | [] => ([], [])
  | c :: r =>
      if (c =? 58)%N then ([], s)
      else let '(token, rest) := spanNotColon r in (c :: token, rest)
  end.

(** A literal at the start of a text: what follows it. *)
Fixpoint stripLiteral (literal s : jsstring) : option jsstring :=
  match literal, s with
  | [], _ => Some s
  | p :: literal', c :: s' => if (p =? c)%N then stripLiteral literal' s' else None
  | _ :: _, [] => None
  end.

(** [APPROVAL_CALLBACK_RE.exec(data)] with
    [/^ap:([^:]+):(approve|deny|details|refresh)$/]: the two groups of a
    match.  After the literal [ap:] the class [[^:]+] takes the longest run
    without a colon; a shorter run would be followed by a character that is
    no colon, so giving characters back never yields a match. *)
Definition matchApprovalCallback (data : jsstring)
  : option (jsstring * ApprovalCallbackAction) :=
  match stripLiteral (js "ap:") data with
  | Some rest =>
      match spanNotColon rest with
      | (c :: token, 58%N :: after) =>
          match parseAction after with
          | Some action => Some (c :: token, action)
          | None => None
          end
      | _ => None
      end
  | None => None
  end.

Definition APPROVAL_CONFIRMATION_TTL_SECONDS : Z := 30.

(** [GET key]: the value of a key that is there and has not expired. *)
Definition GET (now : Z) (key : jsstring) (st : Store) : option Z :=
  value <$> liveEntry now st key.

(** [DEL key] *)
Definition DEL (key : jsstring) (st : Store) : Store := delete key st.

(** [SET key "1" EX ttl] *)
Definition SET_EX (now : Z) (key : jsstring) (ttl : Z) (st : Store) : Store :=
  <[key := {| value := 1; expireAtMs := Some (now + ttl * 1000) |}]> st.

Definition confirmKey (approvalId telegramUserId : jsstring) : jsstring :=
  js "approval-confirm:" ++ approvalId ++ js ":" ++ telegramUserId.

(** [maybeRequireSecondApprovalTap]: a value that [GET] returns is a string
    that is not empty, so it is truthy. *)
Definition maybeRequireSecondApprovalTap (now : Z) (approvalId telegramUserId : jsstring)
    (st : Store) : bool * Store :=
  let key := confirmKey approvalId telegramUserId in
  match GET now key st with
  | Some _ => (false, DEL key st)
  | None => (true, SET_EX now key APPROVAL_CONFIRMATION_TTL_SECONDS st)
  end.

End Router.

(** * Properties of the response policy *)

Section ResponsePolicyFacts.
Import JS ResponsePolicy.

Lemma stripPrefixCI_Some (pat s rest : jsstring) :
  stripPrefixCI pat s = Some rest <-> exists mid, s = mid ++ rest /\ ciEqual pat mid.
Proof.
  revert s. induction pat as [|p pat IH]; intros s; simpl.
  - split.
    + intros [= ->]. exists []. split; [reflexivity | constructor].
    + intros (mid & -> & Hci). inversion Hci. reflexivity.
  - destruct s as [|c s].
    + split; [discriminate |].
      intros (mid & Hs & Hci). inversion Hci; subst. discriminate.
    + destruct (charMatchesCI p c) eqn:Hpc.
      * rewrite IH. split.
        -- intros (mid & -> & Hci). exists (c :: mid). split; [reflexivity |].
           constructor; assumption.
        -- intros (mid & Hs & Hci). inversion Hci as [|? c' ? mid' Hc Hrest]; subst.
           injection Hs as -> ->. exists mid'. split; [reflexivity | assumption].
      * split; [discriminate |].
        intros (mid & Hs & Hci). inversion Hci as [|? c' ? mid' Hc Hrest]; subst.
        injection Hs as -> ->. congruence.
Qed.

Lemma ciEqual_length (pat mid : jsstring) : ciEqual pat mid -> length pat = length mid.
Proof. apply Forall2_length. Qed.

Lemma matchBoundedHere_true (pat : jsstring) (prev : option N) (s : jsstring) :
  matchBoundedHere pat prev s = true <->
  exists mid post,
    s = mid ++ post /\ ciEqual pat mid
    /\ wordBoundary prev (head s) = true
    /\ wordBoundary (lastOr prev mid) (head post) = true.
Proof.
  unfold matchBoundedHere. rewrite andb_true_iff. split.
  - intros [Hb Hm]. destruct (stripPrefixCI pat s) as [rest|] eqn:Hs; [|discriminate].
    apply stripPrefixCI_Some in Hs as (mid & -> & Hci).
    exists mid, rest. repeat split; try assumption.
    rewrite (ciEqual_length _ _ Hci), firstn_app, Nat.sub_diag, firstn_all in Hm.
    simpl in Hm. rewrite app_nil_r in Hm. exact Hm.
  - intros (mid & post & -> & Hci & Hb & He). split; [assumption |].
    assert (Hs : stripPrefixCI pat (mid ++ post) = Some post).
    { apply stripPrefixCI_Some. exists mid. split; [reflexivity | assumption]. }
    rewrite Hs, (ciEqual_length _ _ Hci), firstn_app, Nat.sub_diag, firstn_all.
    simpl. rewrite app_nil_r. exact He.
Qed.

Lemma lastOr_cons (prev : option N) (c : N) (l : jsstring) :
  lastOr prev (c :: l) = lastOr (Some c) l.
Proof.
  unfold lastOr. destruct l as [|d l]; [reflexivity |].
  rewrite last_cons_cons. destruct (last (d :: l)) eqn:E; [reflexivity |].
  apply last_None in E. discriminate.
Qed.

Lemma searchBounded_true (pat : jsstring) (prev : option N) (s : jsstring) :
  searchBounded pat prev s = true <->
  exists pre mid post,
    s = pre ++ mid ++ post /\ ciEqual pat mid
    /\ wordBoundary (lastOr prev pre) (head (mid ++ post)) = true
    /\ wordBoundary (lastOr prev (pre ++ mid)) (head post) = true.
Proof.
  revert prev. induction s as [|c r IH]; intros prev.
  - simpl. rewrite orb_false_r, matchBoundedHere_true. split.
    + intros (mid & post & Hs & Hci & Hb & He). exists [], mid, post.
      change (lastOr prev []) with prev. change ([] ++ mid) with mid.
      simpl "++". rewrite <- Hs. auto.
    + intros (pre & mid & post & Hs & Hci & Hb & He).
      symmetry in Hs. apply app_eq_nil in Hs as [-> Hs].
      exists mid, post. change (lastOr prev []) with prev in Hb.
      change ([] ++ mid) with mid in He. rewrite Hs in Hb |- *. auto.
  - simpl. rewrite orb_true_iff, matchBoundedHere_true, IH. split.
    + intros [(mid & post & Hs & Hci & Hb & He) | (pre & mid & post & Hs & Hci & Hb & He)].
      * exists [], mid, post. change (lastOr prev []) with prev.
        change ([] ++ mid) with mid. simpl "++". rewrite <- Hs. auto.
      * exists (c :: pre), mid, post. rewrite Hs.
        change ((c :: pre) ++ mid) with (c :: pre ++ mid).
        rewrite !lastOr_cons. auto.
    + intros (pre & mid & post & Hs & Hci & Hb & He). destruct pre as [|c' pre].
      * left. exists mid, post. change (lastOr prev []) with prev in Hb.
        change ([] ++ mid) with mid in He. simpl "++" in Hs. rewrite Hs. auto.
      * right. injection Hs as <- ->. exists pre, mid, post.
        change ((c :: pre) ++ mid) with (c :: pre ++ mid) in He.
        rewrite !lastOr_cons in *. auto.
Qed.

Lemma testBoundedCI_true (pat s : jsstring) :
  testBoundedCI pat s = true <-> MatchesBounded pat s.
Proof.
  unfold testBoundedCI, MatchesBounded. rewrite searchBounded_true.
  unfold lastOr. split; intros (pre & mid & post & Hs & Hci & Hb & He);
    exists pre, mid, post; repeat split; try assumption.
  - destruct (last pre); assumption.
  - destruct (last (pre ++ mid)); assumption.
  - destruct (last pre); assumption.
  - destruct (last (pre ++ mid)); assumption.
Qed.

Lemma testAnchoredPunctCI_true (pat s : jsstring) :
  testAnchoredPunctCI pat s = true <-> MatchesAnchoredPunct pat s.
Proof.
  unfold testAnchoredPunctCI, MatchesAnchoredPunct. split.
  - destruct (stripPrefixCI pat s) as [rest|] eqn:Hs; [|discriminate].
    intros Hall. apply stripPrefixCI_Some in Hs as (mid & -> & Hci).
    exists mid, rest. repeat split; try assumption.
    apply Forall_forall. intros x Hx. apply (proj1 (forallb_forall _ _) Hall).
    apply list_elem_of_In. exact Hx.
  - intros (mid & rest & -> & Hci & Hall).
    assert (Hs : stripPrefixCI pat (mid ++ rest) = Some rest).
    { apply stripPrefixCI_Some. exists mid. split; [reflexivity | assumption]. }
    rewrite Hs. apply forallb_forall. intros x Hx.
    apply (proj1 (Forall_forall _ _) Hall). apply list_elem_of_In. exact Hx.
Qed.

Lemma existsb_In_iff {A} (f : A -> bool) (P : A -> Prop) (l : list A) :
  (forall x, f x = true <-> P x) ->
  existsb f l = true <-> exists x, In x l /\ P x.
Proof.
  intros Hf. rewrite existsb_exists. split; intros (x & Hin & Hx); exists x;
    (split; [assumption | apply Hf; assumption]).
Qed.

Context {num : Type}.

Lemma hasPlainTextApprovalRequest_true (text : jsstring) :
  hasPlainTextApprovalRequest text = true <-> PlainTextApprovalReAsk text.
Proof.
  unfold hasPlainTextApprovalRequest, PlainTextApprovalReAsk.
  apply existsb_In_iff. intros pattern. apply testBoundedCI_true.
Qed.

Lemma hasTrivialCompletionOf_true (text : jsstring) :
  hasTrivialCompletionOf text = true <-> TrivialCompletion text.
Proof.
  unfold hasTrivialCompletionOf, TrivialCompletion. cbv zeta.
  rewrite !andb_true_iff, Nat.ltb_lt, Nat.leb_le.
  rewrite (existsb_In_iff _ (fun pattern => MatchesAnchoredPunct pattern (normalizedTextOf text))).
  - tauto.
  - intros pattern. apply testAnchoredPunctCI_true.
Qed.

Lemma join_head (sep first : jsstring) (rest : list jsstring) :
  exists tail, join sep (first :: rest) = first ++ tail.
Proof.
  destruct rest as [|x rest].
  - exists []. simpl. symmetry. apply app_nil_r.
  - exists (sep ++ join sep (x :: rest)). reflexivity.
Qed.

Lemma buildApprovedExecutionStatusText_prefix (toolResults : list (ToolResultPart num)) :
  exists rest,
    buildApprovedExecutionStatusText toolResults = js "Approval received." ++ rest.
Proof.
  unfold buildApprovedExecutionStatusText.
  destruct (length toolResults =? 0)%nat.
  - exists (js " Protected action executed."). reflexivity.
  - destruct (join_head [10%N]
                (js "Approval received. Protected action executed with the following result:")
                (map (fun part => js "- " ++ summarizeToolResult part) toolResults))
      as [tail ->].
    exists (js " Protected action executed with the following result:" ++ tail).
    reflexivity.
Qed.

(** C5. When the approval was granted and the trimmed raw text is empty,
    asks for approval in plain text or is a trivial completion phrase, the
    resolved response is forced: its flag is set and its text begins with
    "Approval received."; in every other case the flag is not set. *)
Theorem response_policy_forcing (input : TurnResponseInput num) :
  let r := resolveTurnResponseText input in
  let text := trimmedText input in
  (forcedApprovedStatus r = true <->
   approvalWasGranted input = true
   /\ (text = [] \/ PlainTextApprovalReAsk text \/ TrivialCompletion text))
  /\ (forcedApprovedStatus r = true ->
      exists rest, ResponsePolicy.text r = js "Approval received." ++ rest).
Proof.
  intros r text. subst r. unfold resolveTurnResponseText. fold text.
  assert (Hforce :
    approvalWasGranted input
    && ((length text =? 0)%nat || hasPlainTextApprovalRequest text
        || hasTrivialCompletionOf text) = true
    <-> approvalWasGranted input = true
        /\ (text = [] \/ PlainTextApprovalReAsk text \/ TrivialCompletion text)).
  { rewrite andb_true_iff, !orb_true_iff, Nat.eqb_eq,
      hasPlainTextApprovalRequest_true, hasTrivialCompletionOf_true.
    assert (length text = 0%nat <-> text = []) by (destruct text; simpl; split; congruence).
    tauto. }
  destruct (approvalWasGranted input
            && ((length text =? 0)%nat || hasPlainTextApprovalRequest text
                || hasTrivialCompletionOf text)) eqn:Hb.
  - split.
    + simpl. split; [intros _; apply Hforce; reflexivity | reflexivity].
    + intros _. simpl.
      destruct (buildApprovedExecutionStatusText_prefix (toolResults input)) as [rest ->].
      destruct (0 <? approvalsCount input).
      * exists (rest ++ NEXT_APPROVAL_PENDING_SUFFIX). rewrite <- app_assoc. reflexivity.
      * exists rest. reflexivity.
  - assert (Hno : forcedApprovedStatus
        (if (0 <? length text)%nat && negb (hasTrivialCompletionOf text)
         then {| text := if 0 <? approvalsCount input
                         then text ++ APPROVAL_PENDING_SUFFIX else text;
                 forcedApprovedStatus := false |}
         else if 0 <? approvalsCount input
              then {| text := match requestTopicOf input with
                              | Some topic =>
                                  js "Prepared the next step for " ++ [34%N] ++ topic
                                  ++ [34%N] ++ js "."
                              | None => js "Prepared the next step."
                              end ++ APPROVAL_PENDING_SUFFIX;
                      forcedApprovedStatus := false |}
              else {| text := buildContextAwareCompletionText input (requestTopicOf input);
                      forcedApprovedStatus := false |}) = false).
    { destruct ((0 <? length text)%nat && negb (hasTrivialCompletionOf text));
        [reflexivity |]. destruct (0 <? approvalsCount input); reflexivity. }
    cbv zeta. split.
    + rewrite Hno. split; [discriminate |]. intros H. apply Hforce in H. discriminate.
    + rewrite Hno. discriminate.
Qed.

End ResponsePolicyFacts.

(** * Properties of the rate limiter *)

Section FailOpen.
Import RateLimit.
Context (R : Redis).

Lemma incrementCounter_traced (now : Z) (key : jsstring) (ttl : Z)
    (st : RState R) (log : list (jsstring * bool)) :
  incrementCounter (traced R) now key ttl (st, log) =
  match evalIncrWithTtl R now key (asPositiveInt ttl) st with
  | (EvalRaise e, st') => (Throw e, (st', log ++ [(key, true)]))
  | (EvalReply reply, st') =>
      (match reply with
       | Some (item0 :: item1 :: _) =>
           Return {| count := Z.max 0 (parseLuaInt item0 0);
                     ttlSeconds := Z.max 1 (parseLuaInt item1 (asPositiveInt ttl)) |}
       | _ => Throw (js "Rate limit counter script returned an invalid response.")
       end, (st', log ++ [(key, false)]))
  end.
Proof.
  unfold incrementCounter, bind, redis_eval. simpl.
  destruct (evalIncrWithTtl R now key (asPositiveInt ttl) st) as [[e | reply] st'];
    [reflexivity |].
  destruct reply as [[|item0 [|item1 rest]]|]; reflexivity.
Qed.

Lemma not_raisedIn_nil : ~ raisedIn [].
Proof. intros [key H]. inversion H. Qed.

Lemma raisedIn_snoc_false (log : list (jsstring * bool)) (key : jsstring) :
  raisedIn (log ++ [(key, false)]) -> raisedIn log.
Proof.
  intros [k H]. apply elem_of_app in H as [H | H]; [exists k; exact H |].
  apply list_elem_of_singleton in H. discriminate.
Qed.

(** Whatever the try block does, a raised error ends in the fail-open
    decision, and a returned decision is passed on. *)
Lemma tryCatch_outcome {S A} (body : M S A) (handler : jsstring -> A) (st : S) :
  tryCatch body handler st =
  match body st with
  | (Return a, st') => (a, st')
  | (Throw e, st') => (handler e, st')
  end.
Proof. reflexivity. Qed.

Ltac step_counter :=
  rewrite incrementCounter_traced;
  match goal with
  | |- context [evalIncrWithTtl R ?now ?key ?ttl ?st] =>
      destruct (evalIncrWithTtl R now key ttl st) as [[?e | [[|?item0 [|?item1 ?rest]]|]] ?st']
  end; cbn [fst snd].

(** C4. Whenever a call of the key-value store raises during
    [checkChatSpamLimit] or [checkUserTurnQuota], the decision returned is
    the fail-open one: allowed, with reason [rate_limit_storage_error].  Both
    functions return a decision for every backend and every state: they
    never raise. *)
Theorem fail_open_on_storage_error (config : RateLimitConfig) :
  (forall now telegramChatId telegramUserId st,
     let result :=
       checkChatSpamLimit (traced R) config now telegramChatId telegramUserId (st, []) in
     raisedIn (snd (snd result)) ->
     fst result = failOpenDecision (getTierForUser telegramUserId config)
     /\ allowed (fst result) = true
     /\ reason (fst result) = rate_limit_storage_error)
  /\ (forall clock telegramUserId st,
        let result := checkUserTurnQuota (traced R) config clock telegramUserId (st, []) in
        raisedIn (snd (snd result)) ->
        fst result = failOpenDecision (getTierForUser telegramUserId config)
        /\ allowed (fst result) = true
        /\ reason (fst result) = rate_limit_storage_error).
Proof.
  split.
  - intros now chat user st result. subst result.
    unfold checkChatSpamLimit. rewrite tryCatch_outcome.
    unfold checkChatSpamLimit_try, bind. step_counter;
      try (intros _; repeat split; reflexivity).
    intros Hr. exfalso.
    destruct (chatMinuteMax config <? _); unfold ret in Hr; cbn [fst snd] in Hr;
      apply raisedIn_snoc_false in Hr; exact (not_raisedIn_nil Hr).
  - intros clock user st result. subst result.
    unfold checkUserTurnQuota. rewrite tryCatch_outcome.
    unfold checkUserTurnQuota_try, bind. step_counter;
      try (intros _; repeat split; reflexivity).
    cbn [count ttlSeconds].
    destruct (burstMax _ <? _).
    { unfold ret; cbn [fst snd]. intros Hr. exfalso. apply raisedIn_snoc_false in Hr.
      exact (not_raisedIn_nil Hr). }
    step_counter; try (intros _; repeat split; reflexivity).
    cbn [count ttlSeconds].
    destruct (minuteMax _ <? _).
    { unfold ret; cbn [fst snd]. intros Hr. exfalso. do 2 apply raisedIn_snoc_false in Hr.
      exact (not_raisedIn_nil Hr). }
    step_counter; try (intros _; repeat split; reflexivity).
    cbn [count ttlSeconds].
    intros Hr. exfalso.
    destruct (dailyMax _ <? _); unfold ret in Hr; cbn [fst snd] in Hr;
      do 3 apply raisedIn_snoc_false in Hr; exact (not_raisedIn_nil Hr).
Qed.

End FailOpen.


(** ** The script on the modelled server *)

Section ServerFacts.
Import RedisServer RateLimit.

Lemma liveEntry_insert_live (now : Z) (st : Store) (key : jsstring) (e : Entry) :
  (match expireAtMs e with Some t => t <? now | None => false end) = false ->
  liveEntry now (<[key := e]> st) key = Some e.
Proof.
  intros Hlive. unfold liveEntry. rewrite lookup_insert_eq.
  destruct (expireAtMs e) as [t|]; [rewrite Hlive |]; reflexivity.
Qed.

Lemma liveEntry_expiry_live (now : Z) (st : Store) (key : jsstring) (e : Entry) :
  liveEntry now st key = Some e ->
  (match expireAtMs e with Some t => t <? now | None => false end) = false.
Proof.
  unfold liveEntry. destruct (st !! key) as [e'|]; [|discriminate].
  destruct (expireAtMs e') as [t|] eqn:Ht.
  - destruct (t <? now) eqn:Hlt; [discriminate |]. intros [= <-]. rewrite Ht. exact Hlt.
  - intros [= <-]. rewrite Ht. reflexivity.
Qed.

Lemma INCR_WITH_TTL_LUA_spec (now : Z) (key : jsstring) (ttl : Z) (st : Store) :
  1 <= ttl ->
  exists remaining,
    INCR_WITH_TTL_LUA now key ttl st =
    ((liveCount now st key + 1, remaining),
     <[key := {| value := liveCount now st key + 1;
                 expireAtMs := expiryAfter now ttl st key |}]> st).
Proof.
  intros Httl. unfold INCR_WITH_TTL_LUA, INCR, expiryAfter, liveCount.
  destruct (liveEntry now st key) as [e|] eqn:Hlive; cbn [value].
  - destruct (value e + 1 =? 1) eqn:Hone.
    + unfold EXPIRE. rewrite liveEntry_insert_live
        by (cbn [expireAtMs]; eapply liveEntry_expiry_live; eassumption).
      assert ((0 <? ttl) = true) as -> by (apply Z.ltb_lt; lia).
      cbn [value]. rewrite insert_insert_eq. eexists. reflexivity.
    + eexists. reflexivity.
  - cbn. unfold EXPIRE. rewrite liveEntry_insert_live by reflexivity.
    assert ((0 <? ttl) = true) as -> by (apply Z.ltb_lt; lia).
    cbn [value]. rewrite insert_insert_eq. eexists. reflexivity.
Qed.

Lemma asPositiveInt_pos (ttl : Z) : 1 <= asPositiveInt ttl.
Proof. unfold asPositiveInt. lia. Qed.


Lemma app_js_inj_head (p a b : jsstring) : p ++ a = p ++ b -> a = b.
Proof. apply app_inv_head. Qed.

(** The keys of the three counters of one user differ. *)
Lemma user_keys_distinct (user : jsstring) (b m : Z) (d : jsstring) :
  burstKey user b <> minuteKey user m
  /\ burstKey user b <> dailyKey user d
  /\ minuteKey user m <> dailyKey user d.
Proof.
  unfold burstKey, minuteKey, dailyKey.
  repeat split; intros E;
    apply app_inv_head in E; apply app_inv_head in E; apply app_inv_head in E;
    discriminate E.
Qed.

End ServerFacts.

Section ShortCircuit.
Import RedisServer RateLimit.


End ShortCircuit.

Section WindowArithmetic.
Import RedisServer RateLimit.

Lemma incrementCounter_plain (now : Z) (key : jsstring) (ttl : Z) (st : Store) :
  exists remaining,
    incrementCounter server now key ttl st =
    (Return {| count := Z.max 0 (liveCount now st key + 1); ttlSeconds := remaining |},
     <[key := {| value := liveCount now st key + 1;
                 expireAtMs := expiryAfter now (asPositiveInt ttl) st key |}]> st).
Proof.
  destruct (INCR_WITH_TTL_LUA_spec now key (asPositiveInt ttl) st (asPositiveInt_pos ttl))
    as [remaining Hlua].
  unfold incrementCounter, bind, redis_eval, server. cbn [evalIncrWithTtl].
  rewrite Hlua. cbn [parseLuaInt]. eexists. reflexivity.
Qed.

Lemma counterAt_nonneg (T : list Z) (key : jsstring) (n : Z) (st : Store) :
  counterAt T key n st -> 0 <= n.
Proof. intros [[-> _] | [Hn _]]; lia. Qed.

Lemma counterAt_liveCount (T : list Z) (key : jsstring) (n : Z) (st : Store) (t : Z) :
  counterAt T key n st -> t ∈ T -> liveCount t st key = n.
Proof.
  unfold liveCount. intros [[-> Hfresh] | (Hn & e & Hlook & Hval & Hlive)] Ht.
  - rewrite (Hfresh t Ht). reflexivity.
  - rewrite (Hlive t Ht). exact Hval.
Qed.

Lemma liveEntry_insert_ne (t : Z) (st : Store) (key key' : jsstring) (e : Entry) :
  key' <> key -> liveEntry t (<[key' := e]> st) key = liveEntry t st key.
Proof. intros Hne. unfold liveEntry. rewrite lookup_insert_ne by assumption. reflexivity. Qed.

Lemma counterAt_other (T : list Z) (key key' : jsstring) (n : Z) (st : Store) (e : Entry) :
  key' <> key -> counterAt T key n st -> counterAt T key n (<[key' := e]> st).
Proof.
  intros Hne [[-> Hfresh] | (Hn & e0 & Hlook & Hval & Hlive)].
  - left. split; [reflexivity |]. intros t Ht.
    rewrite liveEntry_insert_ne by assumption. auto.
  - right. split; [assumption |]. exists e0.
    rewrite lookup_insert_ne by assumption. repeat split; try assumption.
    intros t Ht. rewrite liveEntry_insert_ne by assumption. auto.
Qed.

(** Counting one request: the counter created at [t] lives until
    [t + ttl * 1000], which no instant of the window exceeds. *)
Lemma counterAt_incr (T : list Z) (key : jsstring) (n : Z) (st : Store) (t ttl : Z) :
  counterAt T key n st ->
  t ∈ T ->
  (forall t', t' ∈ T -> t' <= t + ttl * 1000) ->
  counterAt T key (n + 1)
    (<[key := {| value := liveCount t st key + 1;
                 expireAtMs := expiryAfter t ttl st key |}]> st).
Proof.
  intros Hc Ht Hcover. pose proof (counterAt_liveCount _ _ _ _ _ Hc Ht) as Hcount.
  right. split; [pose proof (counterAt_nonneg _ _ _ _ Hc); lia |].
  eexists. rewrite lookup_insert_eq. split; [reflexivity |].
  split; [cbn [value]; lia |].
  intros t' Ht'. apply liveEntry_insert_live. cbn [expireAtMs].
  unfold expiryAfter. rewrite Hcount.
  destruct Hc as [[-> Hfresh] | (Hn & e & Hlook & Hval & Hlive)].
  - cbn. apply Z.ltb_ge. apply Hcover. exact Ht'.
  - assert ((n + 1 =? 1) = false) as -> by (apply Z.eqb_neq; lia).
    rewrite (Hlive t Ht). cbn.
    exact (liveEntry_expiry_live _ _ _ _ (Hlive t' Ht')).
Qed.

Lemma bucket_bounds (t w : Z) :
  1 <= w -> getWindowBucket t w * (1000 * w) <= t < (getWindowBucket t w + 1) * (1000 * w).
Proof.
  intros Hw. unfold getWindowBucket.
  pose proof (Z.div_mod t (1000 * w) ltac:(lia)).
  pose proof (Z.mod_pos_bound t (1000 * w) ltac:(lia)). nia.
Qed.

(** The time to live of a counter covers its whole window. *)
Lemma window_ttl_covers (config : RateLimitConfig) (w : UserWindow) (t t' : Z) :
  1 <= burstWindowSeconds config ->
  1 <= minuteWindowSeconds config ->
  windowIndex config w t = windowIndex config w t' ->
  t' <= t + asPositiveInt (windowTtl config w t) * 1000.
Proof.
  intros Hb Hm Hidx. unfold asPositiveInt. destruct w; cbn [windowIndex windowTtl] in *.
  - pose proof (bucket_bounds t _ Hb). pose proof (bucket_bounds t' _ Hb).
    rewrite Hidx in *. unfold COUNTER_TTL_GRACE_SECONDS. nia.
  - pose proof (bucket_bounds t _ Hm). pose proof (bucket_bounds t' _ Hm).
    rewrite Hidx in *. unfold COUNTER_TTL_GRACE_SECONDS. nia.
  - unfold getUtcDailyWindow, DAILY_COUNTER_TTL_GRACE_SECONDS, UTCDate.MS_PER_DAY in *.
    cbn [counterTtlSeconds].
    pose proof (Z.div_mod t 86400000 ltac:(lia)).
    pose proof (Z.mod_pos_bound t 86400000 ltac:(lia)).
    pose proof (Z.div_mod t' 86400000 ltac:(lia)).
    pose proof (Z.mod_pos_bound t' 86400000 ltac:(lia)).
    pose proof (Z.div_mod ((t / 86400000 + 1) * 86400000 - t + 999) 1000 ltac:(lia)).
    pose proof (Z.mod_pos_bound ((t / 86400000 + 1) * 86400000 - t + 999) 1000 ltac:(lia)).
    rewrite Hidx in *. lia.
Qed.

End WindowArithmetic.

Section WindowRuns.
Import RedisServer RateLimit.

Lemma window_keys_distinct (user : jsstring) (w w' : UserWindow) (i i' : Z) :
  w <> w' -> windowKey user w i <> windowKey user w' i'.
Proof.
  intros Hw.
  destruct (user_keys_distinct user i i' (dayKeyOf i')) as (Hbm & Hbd & _).
  destruct (user_keys_distinct user i' i (dayKeyOf i')) as (Hbm' & _ & _).
  destruct (user_keys_distinct user i' i (dayKeyOf i)) as (_ & Hbd' & _).
  destruct (user_keys_distinct user i i (dayKeyOf i')) as (_ & _ & Hmd).
  destruct (user_keys_distinct user i' i' (dayKeyOf i)) as (_ & _ & Hmd').
  destruct w, w'; cbn [windowKey]; try congruence; auto.
Qed.

Lemma windowKey_of_clock (config : RateLimitConfig) (user : jsstring) (clock : Clock) :
  burstKey user (getWindowBucket (atBurst clock) (burstWindowSeconds config))
  = windowKey user BurstWindow (windowIndex config BurstWindow (atBurst clock))
  /\ minuteKey user (getWindowBucket (atMinute clock) (minuteWindowSeconds config))
     = windowKey user MinuteWindow (windowIndex config MinuteWindow (atMinute clock))
  /\ dailyKey user (dayKey (getUtcDailyWindow (atDaily clock)))
     = windowKey user DailyWindow (windowIndex config DailyWindow (atDaily clock)).
Proof. repeat split. Qed.

Lemma user_step (config : RateLimitConfig) (user : jsstring) (w : UserWindow)
    (idx : Z) (T : list Z) (n : Z) (clock : Clock) (st : Store) :
  1 <= burstWindowSeconds config ->
  1 <= minuteWindowSeconds config ->
  (forall t, t ∈ T -> windowIndex config w t = idx) ->
  windowInstant w clock ∈ T ->
  counterAt T (windowKey user w idx) n st ->
  stepsCounter w (getTierLimits (getTierForUser user config) config) T
    (windowKey user w idx) n
    (fst (checkUserTurnQuota server config clock user st))
    (snd (checkUserTurnQuota server config clock user st)).
Proof.
  intros Hb Hm Hidx Hin Hc.
  pose proof (counterAt_nonneg _ _ _ _ Hc) as Hn0.
  assert (Hcover : forall t, t ∈ T -> forall t', t' ∈ T ->
            t' <= t + asPositiveInt (windowTtl config w t) * 1000).
  { intros t Ht t' Ht'. apply window_ttl_covers; try assumption.
    rewrite (Hidx t Ht), (Hidx t' Ht'). reflexivity. }
  destruct (windowKey_of_clock config user clock) as (Kb & Km & Kd).
  set (limits := getTierLimits (getTierForUser user config) config).
  unfold checkUserTurnQuota. rewrite tryCatch_outcome.
  unfold checkUserTurnQuota_try, bind. fold limits. rewrite Kb, Km, Kd.
  set (bKey := windowKey user BurstWindow _).
  set (mKey := windowKey user MinuteWindow _).
  set (dKey := windowKey user DailyWindow _).
  set (key := windowKey user w idx) in *.
  assert (Hown : key = match w with
                       | BurstWindow => bKey
                       | MinuteWindow => mKey
                       | DailyWindow => dKey
                       end).
  { unfold key, bKey, mKey, dKey. rewrite <- (Hidx _ Hin). destruct w; reflexivity. }
  assert (Hbk : w <> BurstWindow -> bKey <> key)
    by (intros; apply window_keys_distinct; congruence).
  assert (Hmk : w <> MinuteWindow -> mKey <> key)
    by (intros; apply window_keys_distinct; congruence).
  assert (Hdk : w <> DailyWindow -> dKey <> key)
    by (intros; apply window_keys_distinct; congruence).
  (* the burst counter *)
  destruct (incrementCounter_plain (atBurst clock) bKey
              (burstWindowSeconds config + COUNTER_TTL_GRACE_SECONDS) st) as [rb ->].
  cbn [count ttlSeconds].
  set (st1 := <[bKey := _]> st).
  assert (Hc1 : counterAt T key (if w is BurstWindow then n + 1 else n) st1).
  { destruct w.
    - rewrite Hown. unfold st1. apply (counterAt_incr T bKey n st); try assumption.
      + rewrite <- Hown. exact Hc.
      + intros t' Ht'. apply (Hcover _ Hin t' Ht').
    - apply counterAt_other; [apply Hbk; discriminate | exact Hc].
    - apply counterAt_other; [apply Hbk; discriminate | exact Hc]. }
  assert (Hcb : w = BurstWindow ->
                Z.max 0 (liveCount (atBurst clock) st bKey + 1) = n + 1).
  { intros ->. cbn [windowInstant] in Hin. rewrite <- Hown.
    rewrite (counterAt_liveCount _ _ _ _ _ Hc Hin). lia. }
  destruct (burstMax limits <? _) eqn:Eb.
  { unfold ret, deniedDecision, stepsCounter. cbn [fst snd reason allowed].
    split; [split; discriminate |]. destruct w; cbn [reached windowMax windowReason].
    - rewrite (Hcb eq_refl) in Eb. apply Z.ltb_lt in Eb.
      split; [|discriminate]. intros _. split; [exact Hc1 |].
      destruct (n + 1 <=? burstMax limits) eqn:E; [apply Z.leb_le in E; lia | split; reflexivity].
    - split; [discriminate | intros _; exact Hc1].
    - split; [discriminate | intros _; exact Hc1]. }
  (* the minute counter *)
  destruct (incrementCounter_plain (atMinute clock) mKey
              (minuteWindowSeconds config + COUNTER_TTL_GRACE_SECONDS) st1) as [rm ->].
  cbn [count ttlSeconds].
  set (st2 := <[mKey := _]> st1).
  assert (Hc2 : counterAt T key
                  (match w with DailyWindow => n | _ => n + 1 end) st2).
  { destruct w.
    - apply counterAt_other; [apply Hmk; discriminate | exact Hc1].
    - rewrite Hown. unfold st2. apply (counterAt_incr T mKey n st1); try assumption.
      + rewrite <- Hown. exact Hc1.
      + intros t' Ht'. apply (Hcover _ Hin t' Ht').
    - apply counterAt_other; [apply Hmk; discriminate | exact Hc1]. }
  assert (Hcm : w = MinuteWindow ->
                Z.max 0 (liveCount (atMinute clock) st1 mKey + 1) = n + 1).
  { intros ->. cbn [windowInstant] in Hin. rewrite <- Hown.
    rewrite (counterAt_liveCount _ _ _ _ _ Hc1 Hin). lia. }
  destruct (minuteMax limits <? _) eqn:Em.
  { unfold ret, deniedDecision, stepsCounter. cbn [fst snd reason allowed].
    split; [split; discriminate |]. destruct w; cbn [reached windowMax windowReason].
    - rewrite (Hcb eq_refl) in Eb. apply Z.ltb_ge in Eb.
      split; [|discriminate]. intros _. split; [exact Hc2 |].
      destruct (n + 1 <=? burstMax limits) eqn:E; [discriminate | apply Z.leb_gt in E; lia].
    - rewrite (Hcm eq_refl) in Em. apply Z.ltb_lt in Em.
      split; [|discriminate]. intros _. split; [exact Hc2 |].
      destruct (n + 1 <=? minuteMax limits) eqn:E; [apply Z.leb_le in E; lia | split; reflexivity].
    - split; [discriminate | intros _; exact Hc2]. }
  (* the daily counter *)
  destruct (incrementCounter_plain (atDaily clock) dKey
              (counterTtlSeconds (getUtcDailyWindow (atDaily clock))) st2) as [rd ->].
  cbn [count ttlSeconds].
  set (st3 := <[dKey := _]> st2).
  assert (Hc3 : counterAt T key (n + 1) st3).
  { destruct w.
    - apply counterAt_other; [apply Hdk; discriminate | exact Hc2].
    - apply counterAt_other; [apply Hdk; discriminate | exact Hc2].
    - rewrite Hown. unfold st3. apply (counterAt_incr T dKey n st2); try assumption.
      + rewrite <- Hown. exact Hc2.
      + intros t' Ht'. apply (Hcover _ Hin t' Ht'). }
  assert (Hcd : w = DailyWindow ->
                Z.max 0 (liveCount (atDaily clock) st2 dKey + 1) = n + 1).
  { intros ->. cbn [windowInstant] in Hin. rewrite <- Hown.
    rewrite (counterAt_liveCount _ _ _ _ _ Hc2 Hin). lia. }
  assert (Hpass : match w with
                  | BurstWindow => n + 1 <= burstMax limits
                  | MinuteWindow => n + 1 <= minuteMax limits
                  | DailyWindow => True
                  end).
  { destruct w.
    - rewrite (Hcb eq_refl) in Eb. apply Z.ltb_ge in Eb. exact Eb.
    - rewrite (Hcm eq_refl) in Em. apply Z.ltb_ge in Em. exact Em.
    - exact I. }
  destruct (dailyMax limits <? _) eqn:Ed.
  - unfold ret, deniedDecision, stepsCounter. cbn [fst snd reason allowed].
    split; [split; discriminate |]. destruct w; cbn [reached windowMax windowReason].
    + split; [|discriminate]. intros _. split; [exact Hc3 |].
      destruct (n + 1 <=? burstMax limits) eqn:E; [discriminate | apply Z.leb_gt in E; lia].
    + split; [|discriminate]. intros _. split; [exact Hc3 |].
      destruct (n + 1 <=? minuteMax limits) eqn:E; [discriminate | apply Z.leb_gt in E; lia].
    + rewrite (Hcd eq_refl) in Ed. apply Z.ltb_lt in Ed.
      split; [|discriminate]. intros _. split; [exact Hc3 |].
      destruct (n + 1 <=? dailyMax limits) eqn:E; [apply Z.leb_le in E; lia | split; reflexivity].
  - unfold ret, allowedDecision, stepsCounter. cbn [fst snd reason allowed].
    split; [split; reflexivity |]. destruct w; cbn [reached windowMax windowReason].
    + split; [|discriminate]. intros _. split; [exact Hc3 |].
      destruct (n + 1 <=? burstMax limits) eqn:E; [discriminate | apply Z.leb_gt in E; lia].
    + split; [|discriminate]. intros _. split; [exact Hc3 |].
      destruct (n + 1 <=? minuteMax limits) eqn:E; [discriminate | apply Z.leb_gt in E; lia].
    + rewrite (Hcd eq_refl) in Ed. apply Z.ltb_ge in Ed.
      split; [|discriminate]. intros _. split; [exact Hc3 |].
      destruct (n + 1 <=? dailyMax limits) eqn:E; [discriminate | apply Z.leb_gt in E; lia].
Qed.

Lemma countReached_cons (w : UserWindow) (d : RateLimitDecision)
    (ds : list RateLimitDecision) :
  countReached w (d :: ds) = (if reached w d then 1 else 0) + countReached w ds.
Proof.
  unfold countReached. rewrite filter_cons.
  destruct (decide (reached w d = true)) as [E | E].
  - rewrite E. cbn [length]. lia.
  - apply not_true_is_false in E. rewrite E. lia.
Qed.

Lemma user_run_counts (config : RateLimitConfig) (user : jsstring) (w : UserWindow)
    (idx : Z) (T : list Z) :
  1 <= burstWindowSeconds config ->
  1 <= minuteWindowSeconds config ->
  (forall t, t ∈ T -> windowIndex config w t = idx) ->
  forall (clocks : list Clock) (st : Store) (n : Z),
    (forall clock, clock ∈ clocks -> windowInstant w clock ∈ T) ->
    counterAt T (windowKey user w idx) n st ->
    forall (i : nat) (d : RateLimitDecision),
      userRun server config user clocks st !! i = Some d ->
      (allowed d = true <-> reason d = reason_allowed)
      /\ (reached w d = true ->
          if n + countReached w (take (S i) (userRun server config user clocks st))
             <=? windowMax w (getTierLimits (getTierForUser user config) config)
          then reason d <> windowReason w
          else reason d = windowReason w /\ allowed d = false).
Proof.
  intros Hb Hm Hidx clocks. induction clocks as [|clock rest IH]; intros st n HT Hc i d Hd.
  - destruct i; discriminate Hd.
  - cbn [userRun] in *.
    pose proof (user_step config user w idx T n clock st Hb Hm Hidx
                  (HT clock ltac:(left)) Hc) as (Hal & Hre & Hnr).
    destruct (checkUserTurnQuota server config clock user st) as [d0 st'].
    cbn [fst snd] in *. destruct i as [|i].
    + injection Hd as <-. split; [exact Hal |]. intros Hr.
      cbn [take]. rewrite countReached_cons, Hr.
      change (countReached w []) with 0. rewrite Z.add_0_r.
      exact (proj2 (Hre Hr)).
    + cbn [lookup list_lookup] in Hd. change (take (S (S i)) (d0 :: ?l)) with (d0 :: take (S i) l).
      cbn [take]. rewrite countReached_cons.
      assert (HT' : forall c, c ∈ rest -> windowInstant w c ∈ T)
        by (intros c Hcin; apply HT; right; exact Hcin).
      destruct (reached w d0) eqn:Hr0.
      * specialize (IH st' (n + 1) HT' (proj1 (Hre eq_refl)) i d Hd).
        rewrite Z.add_assoc. exact IH.
      * specialize (IH st' n HT' (Hnr eq_refl) i d Hd).
        rewrite Z.add_0_l. exact IH.
Qed.

(** The same for the counter of a chat. *)
Lemma chat_run_counts (config : RateLimitConfig) (chat : jsstring) (idx : Z) (T : list Z) :
  1 <= burstWindowSeconds config ->
  1 <= minuteWindowSeconds config ->
  (forall t, t ∈ T -> getWindowBucket t (minuteWindowSeconds config) = idx) ->
  forall (requests : list (Z * jsstring)) (st : Store) (n : Z),
    (forall r, r ∈ requests -> fst r ∈ T) ->
    counterAt T (chatKey chat idx) n st ->
    forall (i : nat) (d : RateLimitDecision),
      chatRun server config chat requests st !! i = Some d ->
      if n + Z.of_nat i + 1 <=? chatMinuteMax config
      then allowed d = true /\ reason d = reason_allowed
      else allowed d = false /\ reason d = chat_flood.
Proof.
  intros Hb Hm Hidx requests.
  induction requests as [|[now user] rest IH]; intros st n HT Hc i d Hd.
  - destruct i; discriminate Hd.
  - cbn [chatRun] in *.
    assert (Hnow : now ∈ T) by (apply (HT (now, user)); left).
    unfold checkChatSpamLimit in Hd. rewrite tryCatch_outcome in Hd.
    unfold checkChatSpamLimit_try, bind in Hd. rewrite (Hidx now Hnow) in Hd.
    destruct (incrementCounter_plain now (chatKey chat idx)
                (minuteWindowSeconds config + COUNTER_TTL_GRACE_SECONDS) st) as [r Hr].
    rewrite Hr in Hd. cbn [count ttlSeconds] in Hd.
    rewrite (counterAt_liveCount _ _ _ _ _ Hc Hnow) in Hd.
    pose proof (counterAt_nonneg _ _ _ _ Hc) as Hn0.
    assert (Hmax : Z.max 0 (n + 1) = n + 1) by lia. rewrite Hmax in Hd.
    assert (Hc' : counterAt T (chatKey chat idx) (n + 1)
                    (<[chatKey chat idx :=
                         {| value := n + 1;
                            expireAtMs :=
                              expiryAfter now
                                (asPositiveInt (minuteWindowSeconds config
                                                + COUNTER_TTL_GRACE_SECONDS))
                                st (chatKey chat idx) |}]> st)).
    { rewrite <- (counterAt_liveCount _ _ _ _ _ Hc Hnow) at 2.
      apply counterAt_incr; try assumption.
      intros t' Ht'.
      apply (window_ttl_covers config MinuteWindow now t' Hb Hm).
      cbn [windowIndex]. rewrite (Hidx now Hnow), (Hidx t' Ht'). reflexivity. }
    assert (HT' : forall r, r ∈ rest -> fst r ∈ T)
      by (intros r0 Hin; apply HT; right; exact Hin).
    destruct i as [|i].
    + rewrite Z.add_0_r.
      destruct (chatMinuteMax config <? n + 1) eqn:E; unfold ret in Hd;
        cbn [lookup list_lookup] in Hd; injection Hd as <-.
      * apply Z.ltb_lt in E.
        destruct (n + 1 <=? chatMinuteMax config) eqn:E'; [apply Z.leb_le in E'; lia |].
        split; reflexivity.
      * apply Z.ltb_ge in E.
        destruct (n + 1 <=? chatMinuteMax config) eqn:E'; [| apply Z.leb_gt in E'; lia].
        split; reflexivity.
    + destruct (chatMinuteMax config <? n + 1); unfold ret in Hd;
        cbn [lookup list_lookup] in Hd;
        specialize (IH _ (n + 1) HT' Hc' i d Hd);
        replace (n + Z.of_nat (S i) + 1) with (n + 1 + Z.of_nat i + 1) by lia;
        exact IH.
Qed.

Lemma counterAt_fresh (T : list Z) (key : jsstring) (st : Store) :
  Forall (fun t => liveEntry t st key = None) T -> counterAt T key 0 st.
Proof.
  intros H. left. split; [reflexivity |]. intros t Ht.
  exact (proj1 (Forall_forall _ _) H t Ht).
Qed.

Lemma user_reason_server (config : RateLimitConfig) (clock : Clock) (user : jsstring)
    (st : Store) :
  let d := fst (checkUserTurnQuota server config clock user st) in
  reason d = reason_allowed \/ reason d = user_burst
  \/ reason d = user_minute \/ reason d = user_daily.
Proof.
  intros d. subst d. unfold checkUserTurnQuota. rewrite tryCatch_outcome.
  unfold checkUserTurnQuota_try, bind.
  destruct (incrementCounter_plain (atBurst clock)
              (burstKey user (getWindowBucket (atBurst clock) (burstWindowSeconds config)))
              (burstWindowSeconds config + COUNTER_TTL_GRACE_SECONDS) st) as [r1 ->].
  cbn [count]. destruct (_ <? _); [cbn; auto |].
  match goal with
  | |- context [incrementCounter server ?t ?k ?ttl ?s] =>
      destruct (incrementCounter_plain t k ttl s) as [r2 ->]
  end.
  cbn [count]. destruct (_ <? _); [cbn; auto |].
  match goal with
  | |- context [incrementCounter server ?t ?k ?ttl ?s] =>
      destruct (incrementCounter_plain t k ttl s) as [r3 ->]
  end.
  cbn [count]. destruct (_ <? _); cbn; auto.
Qed.

Lemma userRun_reason (config : RateLimitConfig) (user : jsstring) (clocks : list Clock) :
  forall (st : Store) (i : nat) (d : RateLimitDecision),
    userRun server config user clocks st !! i = Some d ->
    reason d = reason_allowed \/ reason d = user_burst
    \/ reason d = user_minute \/ reason d = user_daily.
Proof.
  induction clocks as [|clock rest IH]; intros st i d Hd.
  - destruct i; discriminate Hd.
  - cbn [userRun] in Hd.
    pose proof (user_reason_server config clock user st) as Hr.
    destruct (checkUserTurnQuota server config clock user st) as [d0 st'].
    destruct i as [|i].
    + injection Hd as <-. exact Hr.
    + exact (IH st' i d Hd).
Qed.

(** C3. On the modelled server, for a counter that is absent or expired at
    the instants of the requests of one window: the chat counter allows
    exactly the first [chatMinuteMax] requests of the window and denies the
    next ones with [chat_flood]; each of the burst, minute and daily counters
    of a user counts only the requests that reach it, those that no earlier
    counter denied, lets pass the first [max] of them and denies every later
    one with the reason of its window.  A request of a user is allowed
    exactly when it exceeds none of the three counters; so a request among
    the first [max] of a window can still be denied, by another window, and
    the request number [max + 1] of a window is allowed when earlier ones
    did not reach its counter.  With a maximum of 1 or more the first request
    that reaches a fresh counter is not denied by it. *)
Theorem rate_limit_window_arithmetic (config : RateLimitConfig)
    (Hburst : 1 <= burstWindowSeconds config)
    (Hminute : 1 <= minuteWindowSeconds config) :
  (forall (chat : jsstring) (idx : Z) (requests : list (Z * jsstring)) (st : Store),
     Forall (fun r => getWindowBucket (fst r) (minuteWindowSeconds config) = idx) requests ->
     Forall (fun r => liveEntry (fst r) st (chatKey chat idx) = None) requests ->
     forall (i : nat) (d : RateLimitDecision),
       chatRun server config chat requests st !! i = Some d ->
       if Z.of_nat i + 1 <=? chatMinuteMax config
       then allowed d = true /\ reason d = reason_allowed
       else allowed d = false /\ reason d = chat_flood)
  /\ (forall (user : jsstring) (w : UserWindow) (idx : Z) (clocks : list Clock) (st : Store),
       Forall (fun c => windowIndex config w (windowInstant w c) = idx) clocks ->
       Forall (fun c => liveEntry (windowInstant w c) st (windowKey user w idx) = None)
              clocks ->
       forall (i : nat) (d : RateLimitDecision),
         userRun server config user clocks st !! i = Some d ->
         (allowed d = true <-> reason d = reason_allowed)
         /\ (reached w d = true ->
             if countReached w (take (S i) (userRun server config user clocks st))
                <=? windowMax w (getTierLimits (getTierForUser user config) config)
             then reason d <> windowReason w
             else reason d = windowReason w /\ allowed d = false))
  /\ (forall (user : jsstring) (idx : UserWindow -> Z) (clocks : list Clock) (st : Store),
       (forall w,
          Forall (fun c => windowIndex config w (windowInstant w c) = idx w) clocks) ->
       (forall w,
          Forall (fun c => liveEntry (windowInstant w c) st (windowKey user w (idx w))
                           = None) clocks) ->
       forall (i : nat) (d : RateLimitDecision),
         userRun server config user clocks st !! i = Some d ->
         (allowed d = true <->
          forall w,
            countReached w (take (S i) (userRun server config user clocks st))
            <= windowMax w (getTierLimits (getTierForUser user config) config))).
Proof.
  assert (Huser :
    forall (user : jsstring) (w : UserWindow) (idx : Z) (clocks : list Clock) (st : Store),
       Forall (fun c => windowIndex config w (windowInstant w c) = idx) clocks ->
       Forall (fun c => liveEntry (windowInstant w c) st (windowKey user w idx) = None)
              clocks ->
       forall (i : nat) (d : RateLimitDecision),
         userRun server config user clocks st !! i = Some d ->
         (allowed d = true <-> reason d = reason_allowed)
         /\ (reached w d = true ->
             if countReached w (take (S i) (userRun server config user clocks st))
                <=? windowMax w (getTierLimits (getTierForUser user config) config)
             then reason d <> windowReason w
             else reason d = windowReason w /\ allowed d = false)).
  { intros user w idx clocks st Hwin Hfresh i d Hd.
    pose proof (user_run_counts config user w idx (map (windowInstant w) clocks)
                  Hburst Hminute) as H.
    specialize (H ltac:(intros t Ht; apply list_elem_of_fmap in Ht as (c & -> & Hc);
                        exact (proj1 (Forall_forall _ _) Hwin c Hc))).
    specialize (H clocks st 0
                  ltac:(intros c Hc; apply list_elem_of_fmap; exists c; auto)).
    specialize (H ltac:(apply counterAt_fresh; apply Forall_fmap; exact Hfresh) i d Hd).
    exact H. }
  split; [| split; [exact Huser |]].
  2: {
    intros user idx clocks st Hwin Hfresh i d Hd.
    pose proof (fun w => Huser user w (idx w) clocks st (Hwin w) (Hfresh w) i d Hd) as Hw.
    pose proof (userRun_reason config user clocks st i d Hd) as Hreason.
    destruct (Hw BurstWindow) as [Hallowed Hb].
    destruct (Hw MinuteWindow) as [_ Hm].
    destruct (Hw DailyWindow) as [_ Hd3].
    set (limits := getTierLimits (getTierForUser user config) config) in *.
    set (run := take (S i) (userRun server config user clocks st)) in *.
    unfold reached in Hb, Hm, Hd3. cbn [windowReason] in Hb, Hm, Hd3.
    split.
    - intros Hyes. apply Hallowed in Hyes. rewrite Hyes in Hm, Hd3.
      specialize (Hb eq_refl). specialize (Hm eq_refl). specialize (Hd3 eq_refl).
      intros w. destruct w.
      + destruct (countReached BurstWindow run <=? windowMax BurstWindow limits) eqn:E;
          [apply Z.leb_le in E; exact E |].
        destruct Hb as [Hb _]. congruence.
      + destruct (countReached MinuteWindow run <=? windowMax MinuteWindow limits) eqn:E;
          [apply Z.leb_le in E; exact E |].
        destruct Hm as [Hm _]. congruence.
      + destruct (countReached DailyWindow run <=? windowMax DailyWindow limits) eqn:E;
          [apply Z.leb_le in E; exact E |].
        destruct Hd3 as [Hd3 _]. congruence.
    - intros Hall. apply Hallowed.
      pose proof (Hall BurstWindow) as H1. apply Z.leb_le in H1.
      pose proof (Hall MinuteWindow) as H2. apply Z.leb_le in H2.
      pose proof (Hall DailyWindow) as H3. apply Z.leb_le in H3.
      rewrite H1 in Hb. rewrite H2 in Hm. rewrite H3 in Hd3.
      specialize (Hb eq_refl).
      destruct Hreason as [Hr | [Hr | [Hr | Hr]]]; [exact Hr | contradiction | |].
      + rewrite Hr in Hm. destruct (Hm eq_refl). reflexivity.
      + rewrite Hr in Hd3. destruct (Hd3 eq_refl). reflexivity. }
  - intros chat idx requests st Hwin Hfresh i d Hd.
    pose proof (chat_run_counts config chat idx (map fst requests) Hburst Hminute) as H.
    specialize (H ltac:(intros t Ht; apply list_elem_of_fmap in Ht as (r & -> & Hr);
                        exact (proj1 (Forall_forall _ _) Hwin r Hr))).
    specialize (H requests st 0
                  ltac:(intros r Hr; apply list_elem_of_fmap; exists r; auto)).
    specialize (H ltac:(apply counterAt_fresh; apply Forall_fmap; exact Hfresh) i d Hd).
    exact H.
Qed.

End WindowRuns.

Section RateLimitWitnesses.
Import RedisServer RateLimit.

Lemma rate_limit_window_arithmetic_witness :
  exists d,
    userRun server defaultConfig (js "2001") fourClocks ∅ !! 3%nat = Some d
    /\ reason d = user_burst /\ allowed d = false.
Proof.
  eexists. split; [vm_compute; reflexivity |].
  assert (Hb : 1 <= burstWindowSeconds defaultConfig) by (vm_compute; discriminate).
  assert (Hm : 1 <= minuteWindowSeconds defaultConfig) by (vm_compute; discriminate).
  assert (Hwin : Forall (fun c => windowIndex defaultConfig BurstWindow
                                    (windowInstant BurstWindow c) = 590587200) fourClocks)
    by (repeat constructor).
  assert (Hfresh : Forall (fun c => liveEntry (windowInstant BurstWindow c) ∅
                                      (windowKey (js "2001") BurstWindow 590587200) = None)
                          fourClocks)
    by (repeat constructor).
  pose proof (proj1 (proj2 (rate_limit_window_arithmetic defaultConfig Hb Hm))
                (js "2001") BurstWindow 590587200 fourClocks ∅ Hwin Hfresh 3%nat _ eq_refl)
    as [_ H].
  vm_compute in H. exact (H eq_refl).
Defined.

(** C3, as the specification words it, fails for the minute window of a
    user: with the default limits (3 per burst, 10 per minute), of eleven
    requests that fall in one minute window on a fresh store the fourth,
    one of the first ten, is denied, by the burst counter, and the eleventh
    is allowed, because the denied one was never counted in the minute. *)
Lemma minute_window_eleventh_request_allowed :
  let run := userRun server defaultConfig (js "2001") elevenClocks ∅ in
  minuteMax (getTierLimits (getTierForUser (js "2001") defaultConfig) defaultConfig) = 10
  /\ Forall (fun c => windowIndex defaultConfig MinuteWindow (atMinute c) = 29529360)
            elevenClocks
  /\ (allowed <$> run !! 3%nat = Some false /\ reason <$> run !! 3%nat = Some user_burst)
  /\ (allowed <$> run !! 10%nat = Some true
      /\ reason <$> run !! 10%nat = Some reason_allowed).
Proof.
  cbv zeta. split; [reflexivity |]. split; [repeat constructor |].
  split; split; vm_compute; reflexivity.
Qed.

Lemma fail_open_on_storage_error_witness :
  allowed (fst (checkUserTurnQuota (traced unavailable) defaultConfig
                  {| atBurst := 0; atMinute := 0; atDaily := 0 |} (js "2001") (tt, [])))
  = true
  /\ reason (fst (checkUserTurnQuota (traced unavailable) defaultConfig
                    {| atBurst := 0; atMinute := 0; atDaily := 0 |} (js "2001") (tt, [])))
     = rate_limit_storage_error.
Proof.
  apply (proj2 (fail_open_on_storage_error unavailable defaultConfig)
           {| atBurst := 0; atMinute := 0; atDaily := 0 |} (js "2001") tt).
  exists (burstKey (js "2001") 0). vm_compute. left.
Defined.

End RateLimitWitnesses.

(** * Properties of the approval engine *)

Section ApprovalFacts.
Import Approvals.

Lemma expirePendingApproval_terminal (id : jsstring) (now : Z) (db : Database)
    (row : ToolApproval) :
  toolApprovals db !! id = Some row ->
  isTerminal (status row) = true ->
  expirePendingApproval id now db = (None, db).
Proof.
  intros Hrow Hterm. unfold expirePendingApproval. rewrite Hrow.
  destruct (status row); [discriminate | reflexivity ..].
Qed.

(** [expirePendingApproval] changes the row it is asked for only, and only
    when that row is in status [requested]. *)
Lemma expirePendingApproval_only_requested (id : jsstring) (now : Z) (db db' : Database)
    (updated : option ToolApproval) :
  expirePendingApproval id now db = (updated, db') ->
  (db' = db /\ updated = None)
  \/ (exists old new,
        toolApprovals db !! id = Some old /\ status old = requested
        /\ updated = Some new /\ status new = expired
        /\ toolApprovals db' = <[id := new]> (toolApprovals db)
        /\ processedUpdates db' = processedUpdates db
        /\ auditEvents db' = auditEvents db).
Proof.
  unfold expirePendingApproval.
  destruct (toolApprovals db !! id) as [old|] eqn:Hold;
    [| intros [= <- <-]; left; split; reflexivity].
  destruct (status old) eqn:Hst; try (intros [= <- <-]; left; split; reflexivity).
  intros [= <- <-]. right. eexists old, _. repeat split; try reflexivity; assumption.
Qed.

Lemma expirePendingApproval_keeps (id id' : jsstring) (now : Z) (db : Database)
    (row : ToolApproval) :
  toolApprovals db !! id = Some row ->
  isTerminal (status row) = true ->
  toolApprovals (expirePendingApproval id' now db).2 !! id = Some row.
Proof.
  intros Hrow Hterm. destruct (decide (id' = id)) as [-> | Hne].
  - rewrite (expirePendingApproval_terminal id now db row Hrow Hterm). exact Hrow.
  - unfold expirePendingApproval.
    destruct (toolApprovals db !! id') as [old|]; [| exact Hrow].
    destruct (status old); try exact Hrow.
    cbn. rewrite lookup_insert_ne by assumption. exact Hrow.
Qed.

Lemma appendAuditEvent_toolApprovals (event : Audit.AuditEventRecord) (now : Z)
    (db : Database) :
  toolApprovals (Audit.appendAuditEvent event now db).2 = toolApprovals db.
Proof. reflexivity. Qed.

Lemma updateToolApprovalDecision_other (id id' : jsstring) (st : ApprovalStatus)
    (by_ : jsstring) (why : option jsstring) (now : Z) (db : Database) :
  id' <> id ->
  toolApprovals (updateToolApprovalDecision id' st by_ why now db).2 !! id
  = toolApprovals db !! id.
Proof.
  intros Hne. unfold updateToolApprovalDecision.
  destruct (toolApprovals db !! id') as [old|]; [| reflexivity].
  cbn. rewrite lookup_insert_ne by assumption. reflexivity.
Qed.

Lemma decideApproval_terminal (input : DecideInput) (now : Z) (db : Database)
    (row : ToolApproval) :
  toolApprovals db !! inApprovalId input = Some row ->
  isTerminal (status row) = true ->
  decideApproval input now db
  = (NotOk (js "Approval already " ++ statusString (status row) ++ js "."), db).
Proof.
  intros Hrow Hterm. unfold decideApproval, decideApprovalAfterRead, getToolApproval. rewrite Hrow.
  destruct (status row); [discriminate | reflexivity ..].
Qed.

Lemma decideApproval_keeps (input : DecideInput) (id : jsstring) (now : Z)
    (db : Database) (row : ToolApproval) :
  toolApprovals db !! id = Some row ->
  isTerminal (status row) = true ->
  toolApprovals (decideApproval input now db).2 !! id = Some row.
Proof.
  intros Hrow Hterm. destruct (decide (inApprovalId input = id)) as [E | Hne].
  - rewrite <- E in Hrow. rewrite (decideApproval_terminal input now db row Hrow Hterm).
    rewrite <- E. exact Hrow.
  - unfold decideApproval, decideApprovalAfterRead, getToolApproval.
    destruct (toolApprovals db !! inApprovalId input) as [current|] eqn:Hcur;
      [| exact Hrow].
    destruct (status current) eqn:Hst; try exact Hrow.
    destruct (expiresAt current <? now).
    + pose proof (expirePendingApproval_keeps id (approvalId current) now db row Hrow Hterm)
        as Hk.
      destruct (expirePendingApproval (approvalId current) now db) as [u db1].
      exact Hk.
    + pose proof (updateToolApprovalDecision_other id (inApprovalId input)
                    (if inApproved input then approved else denied)
                    (inDecidedBy input) (truthy (inReason input)) now db Hne) as Hk.
      destruct (updateToolApprovalDecision _ _ _ _ _ _) as [u db1].
      cbn [snd] in Hk. cbn. rewrite Hk. exact Hrow.
Qed.

(** C1. What the code guarantees about an approval in a terminal status,
    and where it falls short.  A call of [decideApproval] that has read a
    terminal status fails with the reason "Approval already <status>." and
    writes nothing, whatever the store has become; [expirePendingApproval],
    one guarded statement, updates a row only when its status is
    [requested]; and no operation that runs without interruption changes the
    status.  But the decision is written by an unguarded update after an
    [await]: of two calls for a pending approval that both read before
    either writes, the first makes the status terminal and the second
    overwrites it, and both report success; in the same way a decision that
    read before the timeout job ran overwrites the status [expired]. *)
Theorem terminal_status_overwritten_by_interleaving (db : Database) (id : jsstring)
    (row : ToolApproval) (Hrow : toolApprovals db !! id = Some row) :
  (isTerminal (status row) = true ->
   (forall input now db',
      decideApprovalAfterRead input (Some row) now db'
      = (NotOk (js "Approval already " ++ statusString (status row) ++ js "."), db'))
   /\ (forall input now,
         inApprovalId input = id ->
         decideApproval input now db
         = (NotOk (js "Approval already " ++ statusString (status row) ++ js "."), db))
   /\ (forall now, expirePendingApproval id now db = (None, db))
   /\ (forall op now,
         status <$> toolApprovals (perform op now db) !! id = Some (status row)))
  /\ (forall id' now updated db',
        expirePendingApproval id' now db = (updated, db') ->
        db' <> db ->
        exists old, toolApprovals db !! id' = Some old /\ status old = requested)
  /\ (status row = requested ->
      forall first second firstNow secondNow,
        inApprovalId first = id ->
        inApprovalId second = id ->
        firstNow <= expiresAt row ->
        secondNow <= expiresAt row ->
        let race := decideApprovalInterleaved first second firstNow secondNow db in
        exists decided overwritten,
          fst (fst race) = Ok decided
          /\ toolApprovals (snd (fst race)) !! id = Some decided
          /\ status decided = (if inApproved first then approved else denied)
          /\ isTerminal (status decided) = true
          /\ fst (snd race) = Ok overwritten
          /\ toolApprovals (snd (snd race)) !! id = Some overwritten
          /\ status overwritten = (if inApproved second then approved else denied)
          /\ decidedBy overwritten = Some (inDecidedBy second)
          /\ decidedAt overwritten = Some secondNow)
  /\ (status row = requested ->
      approvalId row = id ->
      forall input correlationId jobNow decideNow,
        inApprovalId input = id ->
        decideNow <= expiresAt row <= jobNow ->
        let race := decideAfterTimeoutJob input correlationId jobNow decideNow db in
        status <$> toolApprovals (fst race) !! id = Some expired
        /\ exists overwritten,
             fst (snd race) = Ok overwritten
             /\ toolApprovals (snd (snd race)) !! id = Some overwritten
             /\ status overwritten = (if inApproved input then approved else denied)).
Proof.
  split; [| split; [| split]].
  - intros Hterminal. split; [| split; [| split]].
    + intros input now db'. unfold decideApprovalAfterRead.
      destruct (status row); [discriminate | reflexivity ..].
    + intros input now <-. apply decideApproval_terminal; assumption.
    + intros now. apply expirePendingApproval_terminal with (row := row); assumption.
    + intros op now.
      destruct op as [record | input | id' | id' corr | id' chat thread prompt];
        cbn [perform].
      * unfold createToolApproval.
        destruct (toolApprovals db !! approvalId record) eqn:Hrec; cbn [snd].
        -- rewrite Hrow. reflexivity.
        -- cbn. assert (approvalId record <> id) by congruence.
           rewrite lookup_insert_ne by assumption. rewrite Hrow. reflexivity.
      * rewrite (decideApproval_keeps input id now db row Hrow Hterminal). reflexivity.
      * rewrite (expirePendingApproval_keeps id id' now db row Hrow Hterminal). reflexivity.
      * unfold approvalTimeoutJob, approvalTimeoutJobAfterRead, getToolApproval.
        destruct (toolApprovals db !! id') as [approval|]; [| rewrite Hrow; reflexivity].
        destruct (status approval); try (rewrite Hrow; reflexivity).
        destruct (now <? expiresAt approval); [rewrite Hrow; reflexivity |].
        pose proof (expirePendingApproval_keeps id (approvalId approval) now db row
                      Hrow Hterminal) as Hk.
        destruct (expirePendingApproval (approvalId approval) now db) as [u db1].
        cbn [snd] in Hk. cbn. rewrite Hk. reflexivity.
      * unfold updateToolApprovalPromptMessage.
        destruct (decide (id' = id)) as [-> | Hne].
        -- rewrite Hrow. cbn. rewrite lookup_insert_eq. reflexivity.
        -- destruct (toolApprovals db !! id'); cbn;
             [rewrite lookup_insert_ne by assumption |]; rewrite Hrow; reflexivity.
  - intros id' now updated db' Hexp Hchanged.
    destruct (expirePendingApproval_only_requested _ _ _ _ _ Hexp)
      as [[-> _] | (old & new & Hold & Hst & _)]; [congruence |].
    exists old. split; assumption.
  - intros Hpending first second firstNow secondNow Hfirst Hsecond Ht1 Ht2 race.
    subst race. unfold decideApprovalInterleaved, getToolApproval.
    rewrite Hfirst, Hsecond, Hrow. unfold decideApprovalAfterRead. rewrite Hpending.
    assert ((expiresAt row <? firstNow) = false) as -> by (apply Z.ltb_ge; lia).
    assert ((expiresAt row <? secondNow) = false) as -> by (apply Z.ltb_ge; lia).
    unfold updateToolApprovalDecision. rewrite Hfirst, Hsecond, Hrow.
    cbn -[Audit.createAuditHash ISODate.toISOString].
    rewrite lookup_insert_eq.
    cbn -[Audit.createAuditHash ISODate.toISOString].
    rewrite ?lookup_insert_eq, ?insert_insert_eq.
    eexists _, _. split; [reflexivity |].
    repeat split; try reflexivity; try apply lookup_insert_eq.
    destruct (inApproved first); reflexivity.
  - intros Hpending Hid input correlationId jobNow decideNow Hinput [Hbefore Hafter] race.
    subst race. unfold decideAfterTimeoutJob, approvalTimeoutJob,
      approvalTimeoutJobAfterRead, getToolApproval.
    rewrite Hinput, Hrow, Hpending.
    assert ((jobNow <? expiresAt row) = false) as -> by (apply Z.ltb_ge; lia).
    unfold expirePendingApproval. rewrite Hid, Hrow, Hpending.
    unfold decideApprovalAfterRead. rewrite Hpending.
    assert ((expiresAt row <? decideNow) = false) as -> by (apply Z.ltb_ge; lia).
    unfold updateToolApprovalDecision. rewrite Hinput.
    cbn -[Audit.createAuditHash ISODate.toISOString].
    rewrite !lookup_insert_eq.
    cbn -[Audit.createAuditHash ISODate.toISOString].
    rewrite ?lookup_insert_eq, ?insert_insert_eq.
    split; [reflexivity |].
    eexists. split; [reflexivity |].
    split; [try reflexivity; try apply lookup_insert_eq | reflexivity].
Qed.

Lemma terminal_status_overwritten_by_interleaving_witness :
  let race :=
    decideApprovalInterleaved ApprovalFlow.approveInput ApprovalFlow.denyInput
      1771761700000 1771761700001 ApprovalFlow.pendingDatabase in
  status <$> toolApprovals (snd (fst race)) !! js "apr_1" = Some approved
  /\ status <$> toolApprovals (snd (snd race)) !! js "apr_1" = Some denied.
Proof.
  destruct (proj1 (proj2 (proj2
              (terminal_status_overwritten_by_interleaving ApprovalFlow.pendingDatabase
                 (js "apr_1") ApprovalFlow.pendingSample eq_refl)))
              eq_refl ApprovalFlow.approveInput ApprovalFlow.denyInput
              1771761700000 1771761700001 eq_refl eq_refl
              ltac:(vm_compute; discriminate) ltac:(vm_compute; discriminate))
    as (decided & overwritten & _ & H1 & H2 & _ & _ & H3 & H4 & _).
  cbv zeta. rewrite H1, H3. cbn [fmap option_fmap option_map]. rewrite H2, H4.
  split; reflexivity.
Defined.

End ApprovalFacts.

(** * Properties of the callback token *)

Section TokenFacts.
Import Approvals.

Lemma base64urlChar_isTokenChar (sextet : N) :
  (sextet < 64)%N -> isTokenChar (base64urlChar sextet) = true.
Proof.
  intros H. unfold base64urlChar.
  assert (Hn : (N.to_nat sextet < 64)%nat) by lia.
  generalize dependent (N.to_nat sextet). intros n Hn.
  do 64 (destruct n as [|n]; [reflexivity |]). lia.
Qed.

Lemma filter_all {A} (P : A -> Prop) `{forall x, Decision (P x)} (l : list A) :
  Forall P l -> filter P l = l.
Proof.
  induction 1 as [|x l Hx Hl IH]; [reflexivity |].
  rewrite filter_cons, IH. destruct (decide (P x)); [reflexivity | contradiction].
Qed.

(** C7 (as the code behaves). The token made from the seven random bytes
    has exactly 10 characters, all of the URL-safe alphabet, and its last
    character carries two bits only: it is one of [A], [Q], [g], [w]. *)
Theorem callback_token_has_ten_characters (randomBytes7 : list N)
    (Hlen : length randomBytes7 = 7%nat)
    (Hbytes : Forall (fun b => (b < 256)%N) randomBytes7) :
  length (createApprovalCallbackToken randomBytes7) = 10%nat
  /\ Forall (fun c => isTokenChar c = true) (createApprovalCallbackToken randomBytes7)
  /\ exists c, last (createApprovalCallbackToken randomBytes7) = Some c
               /\ (c = 65 \/ c = 81 \/ c = 103 \/ c = 119)%N.
Proof.
  destruct randomBytes7 as [|b0 [|b1 [|b2 [|b3 [|b4 [|b5 [|b6 [|]]]]]]]]; try discriminate.
  repeat match goal with
         | H : Forall _ (_ :: _) |- _ => apply Forall_cons in H as [? H]
         end.
  unfold createApprovalCallbackToken. cbn [base64url app].
  assert (Hall : Forall (fun c => isTokenChar c = true)
            [ base64urlChar (b0 / 4); base64urlChar (b0 mod 4 * 16 + b1 / 16);
              base64urlChar (b1 mod 16 * 4 + b2 / 64); base64urlChar (b2 mod 64);
              base64urlChar (b3 / 4); base64urlChar (b3 mod 4 * 16 + b4 / 16);
              base64urlChar (b4 mod 16 * 4 + b5 / 64); base64urlChar (b5 mod 64);
              base64urlChar (b6 / 4); base64urlChar (b6 mod 4 * 16) ]%N).
  { assert (Hq : forall b k q : N, (b < 256 -> 256 <= k * q -> b / k < q)%N)
      by (intros b k q Hb Hk; apply N.Div0.div_lt_upper_bound; lia).
    assert (Hr : forall b k : N, (k <> 0 -> b mod k < k)%N)
      by (intros; apply N.mod_upper_bound; assumption).
    repeat (apply Forall_cons; split; [apply base64urlChar_isTokenChar |]);
      [.. | apply Forall_nil];
      repeat match goal with
             | Hb : (?b < 256)%N |- context [(?b / ?k)%N] =>
                 let q := eval vm_compute in (256 / k)%N in
                 pose proof (Hq b k q Hb ltac:(vm_compute; discriminate));
                 generalize dependent (b / k)%N; intros
             | |- context [(?b mod ?k)%N] =>
                 pose proof (Hr b k ltac:(discriminate));
                 generalize dependent (b mod k)%N; intros
             end; cbn in *; lia. }
  rewrite (filter_all _ _ Hall). cbn [firstn length].
  split; [reflexivity |]. split; [exact Hall |].
  eexists. split; [reflexivity |].
  pose proof (N.mod_upper_bound b6 4 ltac:(discriminate)) as Hm.
  remember (b6 mod 4)%N as r eqn:Hr. clear Hr.
  assert (Hcases : (r = 0 \/ r = 1 \/ r = 2 \/ r = 3)%N) by lia.
  destruct Hcases as [-> | [-> | [-> | ->]]]; vm_compute; auto.
Qed.

Lemma callback_token_has_ten_characters_witness :
  length (createApprovalCallbackToken [0; 1; 2; 3; 4; 5; 6]%N) = 10%nat.
Proof.
  apply (callback_token_has_ten_characters [0; 1; 2; 3; 4; 5; 6]%N eq_refl).
  repeat constructor.
Defined.

End TokenFacts.

(** * Properties of the risk policy *)

Section RiskFacts.
Import RiskPolicy.
Context {num : Type} `{JSNumber num}.
Context (toLowerCase : jsstring -> jsstring).

(** C8 (as the code behaves). The gas estimate of an assessment is never
    absent: when none is extracted from the tool input a default is taken.  So
    the confidence is [high] exactly when a value estimate was extracted and
    [medium] otherwise, never [low]; for an input from which nothing is
    extracted the specification asks for [low] and the code answers
    [medium]. *)
Theorem risk_confidence_never_low (toolName : jsstring) (toolInput : json num)
    (riskProfile : RiskProfile) :
  let assessment := assessApproval toLowerCase toolName toolInput riskProfile in
  let candidates := walkNumericCandidates toLowerCase toolInput [] in
  gasTon assessment <> None
  /\ confidence assessment <> conf_low
  /\ confidence assessment
     = match pickEstimate candidates VALUE_HINTS with
       | Some _ => conf_high
       | None => conf_medium
       end
  /\ (pickEstimate candidates VALUE_HINTS = None ->
      pickEstimate candidates GAS_HINTS = None ->
      specConfidence toLowerCase toolInput = conf_low
      /\ confidence assessment = conf_medium).
Proof.
  intros assessment candidates. subst assessment. unfold assessApproval, specConfidence.
  fold candidates.
  destruct (5 <=? inferBatchItemCount toolInput);
    destruct (pickEstimate candidates VALUE_HINTS) as [v|];
    cbn [gasTon confidence]; repeat split; try discriminate;
    try (intros _ ->; reflexivity); try (intros _ _; reflexivity);
    try match goal with
        | Hgas : pickEstimate _ GAS_HINTS = None |- _ => rewrite Hgas; reflexivity
        end.
Qed.

(** The failing input: an empty tool input. *)
Lemma risk_confidence_empty_input (toolName : jsstring) (riskProfile : RiskProfile) :
  confidence (assessApproval toLowerCase toolName (JObj []) riskProfile) = conf_medium
  /\ specConfidence toLowerCase (JObj []) = conf_low.
Proof.
  unfold assessApproval, specConfidence. cbn. split; reflexivity.
Qed.

End RiskFacts.

(** * Properties of the audit chain *)

Section AuditFacts.
Import Audit.

Lemma lastEvent_spec (rows : list AuditEvent) (best : option AuditEvent) :
  match lastEvent best rows with
  | None => best = None /\ rows = []
  | Some r =>
      (best = Some r \/ r ∈ rows)
      /\ (forall b, best = Some b -> createdAt b <= createdAt r)
      /\ (forall x, x ∈ rows -> createdAt x <= createdAt r)
  end.
Proof.
  revert best. induction rows as [|row rest IH]; intros best.
  - cbn. destruct best as [b|]; [| split; reflexivity].
    split; [left; reflexivity |]. split.
    + intros b' [= <-]. lia.
    + intros x Hx. inversion Hx.
  - cbn [lastEvent].
    assert (Hstep : forall best',
              (best' = best \/ best' = Some row) ->
              (forall b, best = Some b -> forall b', best' = Some b' ->
                         createdAt b <= createdAt b') ->
              (forall b', best' = Some b' -> createdAt row <= createdAt b') ->
              best' <> None ->
              match lastEvent best' rest with
              | None => best = None /\ row :: rest = []
              | Some r =>
                  (best = Some r \/ r ∈ row :: rest)
                  /\ (forall b, best = Some b -> createdAt b <= createdAt r)
                  /\ (forall x, x ∈ row :: rest -> createdAt x <= createdAt r)
              end).
    { intros best' Hwhich Hge Hrow Hsome. specialize (IH best').
      destruct (lastEvent best' rest) as [r|].
      - destruct IH as (Hin & Hb & Hall). repeat split.
        + destruct Hin as [Hin | Hin]; [| right; right; exact Hin].
          destruct Hwhich as [-> | ->]; [left; exact Hin |].
          injection Hin as ->. right. left.
        + intros b Eb. destruct best' as [b'|]; [| congruence].
          specialize (Hge b Eb b' eq_refl). specialize (Hb b' eq_refl). lia.
        + intros x Hx. apply elem_of_cons in Hx as [-> | Hx]; [| auto].
          destruct best' as [b'|]; [| congruence].
          specialize (Hrow b' eq_refl). specialize (Hb b' eq_refl). lia.
      - destruct IH as [-> _]. congruence. }
    destruct best as [b|].
    + destruct (createdAt row <? createdAt b) eqn:E.
      * apply Hstep; [left; reflexivity | | | discriminate].
        -- intros b0 [= <-] b' [= <-]. lia.
        -- intros b' [= <-]. apply Z.ltb_lt in E. lia.
      * apply Hstep; [right; reflexivity | | | discriminate].
        -- intros b0 [= <-] b' [= <-]. apply Z.ltb_ge in E. lia.
        -- intros b' [= <-]. lia.
    + apply Hstep; [right; reflexivity | | | discriminate].
      * intros b0 [=].
      * intros b' [= <-]. lia.
Qed.

(** C6 (as amended). The hash stored with an appended event is the SHA-256
    of the JSON text of the object whose keys are, in this order,
    [previousHash], [eventType], [metadata], [createdAtIso]: the order in
    which the code writes them, the metadata being serialized in the order of
    its own entries.  [previousHash] is the hash of a stored event with the
    greatest creation time, or [null] when the log is empty; the event is
    appended to the log, which is otherwise unchanged. *)
Theorem audit_hash_of_appended_event (event : AuditEventRecord) (now : Z) (db : Database) :
  let row := fst (appendAuditEvent event now db) in
  let db' := snd (appendAuditEvent event now db) in
  let previous := lastEvent None (auditEvents db) in
  hashChain row
  = sha256Hex
      (js "{" ++ JSON.quote (js "previousHash") ++ js ":"
       ++ match previous with
          | Some last => JSON.quote (hashChain last)
          | None => js "null"
          end
       ++ js "," ++ JSON.quote (js "eventType") ++ js ":"
       ++ JSON.quote (recEventType event)
       ++ js "," ++ JSON.quote (js "metadata") ++ js ":"
       ++ JSON.stringify (recMetadata event)
       ++ js "," ++ JSON.quote (js "createdAtIso") ++ js ":"
       ++ JSON.quote (ISODate.toISOString now) ++ js "}")
  /\ auditEvents db' = auditEvents db ++ [row]
  /\ (auditEvents db = [] <-> previous = None)
  /\ (forall last, previous = Some last ->
        last ∈ auditEvents db
        /\ forall other, other ∈ auditEvents db -> createdAt other <= createdAt last).
Proof.
  intros row db' previous.
  pose proof (lastEvent_spec (auditEvents db) None) as Hlast. fold previous in Hlast.
  split; [| split; [reflexivity | split]].
  - subst row. unfold appendAuditEvent. cbn [fst hashChain]. fold previous.
    unfold createAuditHash. f_equal. cbn [JSON.stringify map JS.join fst snd].
    destruct previous as [last|]; cbn [fmap option_fmap option_map nullable JSON.stringify];
      rewrite <- ?app_assoc; reflexivity.
  - destruct previous as [last|].
    + split; [| discriminate]. intros Hnil. destruct Hlast as ([Hl | Hl] & _).
      * discriminate.
      * rewrite Hnil in Hl. inversion Hl.
    + split; [reflexivity |]. intros _. exact (proj2 Hlast).
  - intros last ->. destruct Hlast as ([Hl | Hl] & _ & Hall); [discriminate |].
    split; assumption.
Qed.

(** The specification's hash differs from the stored one: for the first
    event of a log, with the metadata of an approval request. *)
Lemma audit_hash_is_not_canonical :
  hashChain (fst (appendAuditEvent requestedEvent 1771761600123 emptyDatabase))
  <> canonicalAuditHash None (recEventType requestedEvent) (recMetadata requestedEvent)
       (ISODate.toISOString 1771761600123).
Proof. vm_compute. discriminate. Qed.

(** The two texts that are hashed differ already in their first key. *)
Lemma audit_body_is_not_canonical :
  let body :=
    JObj [ (js "previousHash", JNull);
           (js "eventType", JStr (recEventType requestedEvent));
           (js "metadata", recMetadata requestedEvent);
           (js "createdAtIso", JStr (ISODate.toISOString 1771761600123)) ] in
  firstn 15 (JSON.stringify body) = js "{" ++ JSON.quote (js "previousHash")
  /\ firstn 15 (JSON.stringify (JSON.sortKeys body)) = js "{" ++ JSON.quote (js "createdAtIso").
Proof. vm_compute. split; reflexivity. Qed.

End AuditFacts.

(** * Properties of the update store *)

Section UpdateFacts.
Import Updates.

Lemma markProcessedUpdateStatus_twice (updateId : Z)
    (status status' : ProcessedUpdateStatus) (error error' : option jsstring)
    (now now' : Z) (db : Database) :
  markProcessedUpdateStatus updateId status error now'
    (markProcessedUpdateStatus updateId status' error' now db)
  = markProcessedUpdateStatus updateId status error now' db.
Proof.
  unfold markProcessedUpdateStatus.
  destruct (processedUpdates db !! stringOfInt updateId) as [row|] eqn:Hrow.
  - cbn [processedUpdates withUpdates]. rewrite lookup_insert_eq.
    unfold withUpdates. cbn. rewrite insert_insert_eq. reflexivity.
  - rewrite Hrow. reflexivity.
Qed.

(** C9 (as amended). [markProcessedUpdateStatus] writes the status it is
    given over the status of the row, whatever that was: it checks no order
    of statuses.  It stamps [handledAt] for [processed] and [failed] and
    clears it otherwise, replaces the error, leaves every other row and table
    alone and does nothing for an unknown update.  It is idempotent: a call
    after another one leaves what the later call alone would leave. *)
Theorem mark_status_overwrites (updateId : Z) (status : ProcessedUpdateStatus)
    (error : option jsstring) (now : Z) (db : Database) :
  let id := stringOfInt updateId in
  let db' := markProcessedUpdateStatus updateId status error now db in
  (forall row, processedUpdates db !! id = Some row ->
     processedUpdates db' !! id
     = Some {| telegramUpdateId := telegramUpdateId row;
               rawUpdateJson := rawUpdateJson row;
               updateStatus := status;
               receivedAt := receivedAt row;
               handledAt := if Z.eqb (rank status) 2 then Some now else None;
               error := error |})
  /\ (processedUpdates db !! id = None -> db' = db)
  /\ (forall other, other <> id -> processedUpdates db' !! other = processedUpdates db !! other)
  /\ toolApprovals db' = toolApprovals db
  /\ auditEvents db' = auditEvents db
  /\ markProcessedUpdateStatus updateId status error now db' = db'
  /\ (forall status0 error0 now0,
        markProcessedUpdateStatus updateId status error now
          (markProcessedUpdateStatus updateId status0 error0 now0 db) = db').
Proof.
  intros id db'. subst db'. repeat split.
  - intros row Hrow. unfold markProcessedUpdateStatus. fold id. rewrite Hrow.
    cbn. rewrite lookup_insert_eq. destruct status; reflexivity.
  - intros Hnone. unfold markProcessedUpdateStatus. fold id. rewrite Hnone. reflexivity.
  - intros other Hne. unfold markProcessedUpdateStatus. fold id.
    destruct (processedUpdates db !! id); [| reflexivity].
    cbn. rewrite lookup_insert_ne by congruence. reflexivity.
  - unfold markProcessedUpdateStatus. destruct (processedUpdates db !! _); reflexivity.
  - unfold markProcessedUpdateStatus. destruct (processedUpdates db !! _); reflexivity.
  - apply markProcessedUpdateStatus_twice.
  - intros status0 error0 now0. apply markProcessedUpdateStatus_twice.
Qed.

(** A processed update is put back to [received] when that is asked for,
    against the order of the specification. *)
Lemma mark_status_processed_to_received :
  (updateStatus <$> processedUpdates processedSample !! js "42" = Some processed)
  /\ (updateStatus
        <$> processedUpdates
              (markProcessedUpdateStatus 42 received None 1771761700000 processedSample)
            !! js "42" = Some received)
  /\ monotone processed received = false.
Proof. vm_compute. repeat split. Qed.

End UpdateFacts.

(** * Properties of the provider fallback *)

Section FallbackFacts.
Import Agent.

Lemma consume_spec (cs : list Chunk) (flag : bool) (streamed : jsstring)
    (forwarded : list jsstring) :
  consume cs flag streamed forwarded
  = (flag || negb (bool_decide (textDeltas cs = [])),
     streamed ++ concat (textDeltas cs),
     forwarded ++ textDeltas cs).
Proof.
  revert flag streamed forwarded. induction cs as [|c cs IH]; intros flag streamed forwarded.
  - cbn. rewrite orb_false_r, !app_nil_r. reflexivity.
  - destruct c as [[|x text]|]; cbn [consume length Nat.eqb textDeltas flat_map app];
      rewrite IH; fold (textDeltas cs).
    + reflexivity.
    + cbn [concat]. rewrite orb_true_r, <- !app_assoc. reflexivity.
    + reflexivity.
Qed.

Lemma buildAgentModelAttempts_with_fallback (env : Env) (requestedModelId : jsstring)
    (c : N) (key : jsstring) :
  AI_GATEWAY_API_KEY env = Some (c :: key) ->
  buildAgentModelAttempts env requestedModelId
  = [ {| provider := openrouter;
         modelId := primaryModelId env requestedModelId;
         model := openRouterModel env (primaryModelId env requestedModelId) |};
      {| provider := ai_gateway;
         modelId := resolveGatewayFallbackModelId (primaryModelId env requestedModelId)
                      (AI_GATEWAY_FALLBACK_MODEL env);
         model := gatewayModel env
                    (resolveGatewayFallbackModelId (primaryModelId env requestedModelId)
                       (AI_GATEWAY_FALLBACK_MODEL env)) |} ].
Proof. intros Hkey. unfold buildAgentModelAttempts. rewrite Hkey. reflexivity. Qed.

(** C2. With a fallback provider configured and a primary stream that
    fails, the fallback attempt is started if and only if the primary stream
    emitted no text delta before it failed.  After a delta the error of the
    primary is thrown and the primary is the only attempt started; without one
    the turn is the fallback's: its result, marked as a fallback with the
    primary's error message, or its error. *)
Theorem provider_fallback_gating (env : Env) (requestedModelId : jsstring)
    (c : N) (key error : jsstring)
    (Hfallback : AI_GATEWAY_API_KEY env = Some (c :: key))
    (Hfails : ending (openRouterModel env (primaryModelId env requestedModelId))
              = StreamFails error) :
  let primaryDeltas :=
    textDeltas (chunks (openRouterModel env (primaryModelId env requestedModelId))) in
  let fallback :=
    gatewayModel env
      (resolveGatewayFallbackModelId (primaryModelId env requestedModelId)
         (AI_GATEWAY_FALLBACK_MODEL env)) in
  let result := executeWithProviderFallback env requestedModelId in
  (ai_gateway ∈ started (snd result) <-> primaryDeltas = [])
  /\ (primaryDeltas <> [] ->
      fst result = Throw error
      /\ started (snd result) = [openrouter]
      /\ emitted (snd result) = primaryDeltas)
  /\ (primaryDeltas = [] ->
      started (snd result) = [openrouter; ai_gateway]
      /\ emitted (snd result) = textDeltas (chunks fallback)
      /\ match ending fallback with
         | StreamFails fallbackError => fst result = Throw fallbackError
         | StreamCompletes streamText messages =>
             exists r, fst result = Return r
                       /\ resProvider r = ai_gateway
                       /\ usedFallback r = true
                       /\ primaryErrorMessage r = Some error
                       /\ responseMessages r = messages
         end).
Proof.
  intros primaryDeltas fallback result. subst result.
  unfold executeWithProviderFallback.
  rewrite (buildAgentModelAttempts_with_fallback env requestedModelId c key Hfallback).
  fold fallback. cbn [length Nat.ltb Nat.leb attemptsFrom model chunks provider modelId].
  rewrite !consume_spec. fold primaryDeltas. rewrite Hfails.
  cbn [Nat.eqb orb started emitted app].
  destruct (decide (primaryDeltas = [])) as [Hnil | Hsome].
  - rewrite bool_decide_eq_true_2 by assumption. cbn [negb]. rewrite Hnil.
    destruct (ending fallback) as [fallbackError | streamText messages] eqn:Hend;
      cbn [fst snd started emitted app Nat.ltb Nat.leb].
    + split; [split; [reflexivity | intros _; right; left] |].
      split; [intros Hne; contradiction |]. intros _. repeat split.
    + split; [split; [reflexivity | intros _; right; left] |].
      split; [intros Hne; contradiction |]. intros _. repeat split.
      eexists. repeat split.
  - rewrite bool_decide_eq_false_2 by assumption. cbn [negb fst snd started emitted app].
    split; [| split].
    + split; [| contradiction]. intros Hin.
      apply list_elem_of_singleton in Hin. discriminate.
    + intros _. repeat split.
    + contradiction.
Qed.

Lemma provider_fallback_gating_witness :
  started (snd (executeWithProviderFallback failingPrimaryEnv (js "")))
  = [openrouter; ai_gateway].
Proof.
  apply (provider_fallback_gating failingPrimaryEnv (js "") 107%N (js "ey")
           (js "upstream 502") eq_refl eq_refl).
  reflexivity.
Defined.

End FallbackFacts.

(** * Further properties of the approval engine *)

Section ApprovalDecisions.
Import Approvals ApprovalFlow.

Lemma decideApproval_decides (db : Database) (input : DecideInput) (now : Z)
    (current : ToolApproval)
    (Hrow : toolApprovals db !! inApprovalId input = Some current)
    (Hpending : status current = requested)
    (Hlive : now <= expiresAt current) :
  exists updated db' event,
    decideApproval input now db = (Ok updated, db')
    /\ toolApprovals db' = <[inApprovalId input := updated]> (toolApprovals db)
    /\ status updated = (if inApproved input then approved else denied)
    /\ decidedBy updated = Some (inDecidedBy input)
    /\ decidedAt updated = Some now
    /\ expiresAt updated = expiresAt current
    /\ callbackToken updated = callbackToken current
    /\ inputJson updated = inputJson current
    /\ processedUpdates db' = processedUpdates db
    /\ auditEvents db' = auditEvents db ++ [event]
    /\ eventType event = js "approval.decided"
    /\ actorId event = inDecidedBy input
    /\ createdAt event = now.
Proof.
  unfold decideApproval, decideApprovalAfterRead, getToolApproval. rewrite Hrow, Hpending.
  assert ((expiresAt current <? now) = false) as -> by (apply Z.ltb_ge; lia).
  unfold updateToolApprovalDecision. rewrite Hrow.
  cbn -[Audit.createAuditHash ISODate.toISOString].
  eexists _, _, _. repeat split.
Qed.



(** X2. Calls that follow one another decide once: when a call of
    [decideApproval] has decided an approval, every call that starts after
    it has finished, whatever it asks and whenever, is rejected with
    "Approval already <status>." and changes nothing.  Calls that overlap
    can overwrite one another. *)
Theorem decide_only_once (db : Database) (first second : DecideInput) (now later : Z) :
  inApprovalId second = inApprovalId first ->
  forall decided db',
    decideApproval first now db = (Ok decided, db') ->
    decideApproval second later db'
    = (NotOk (js "Approval already " ++ statusString (status decided) ++ js "."), db')
    /\ isTerminal (status decided) = true.
Proof.
  intros Hid decided db' Hfirst.
  unfold decideApproval, decideApprovalAfterRead, getToolApproval in Hfirst.
  destruct (toolApprovals db !! inApprovalId first) as [current|] eqn:Hrow;
    [| discriminate].
  destruct (status current) eqn:Hst; try discriminate.
  destruct (expiresAt current <? now).
  { destruct (expirePendingApproval _ _ _). discriminate. }
  unfold updateToolApprovalDecision in Hfirst. rewrite Hrow in Hfirst.
  cbn -[Audit.createAuditHash ISODate.toISOString] in Hfirst.
  injection Hfirst as <- <-.
  assert (Hterm : isTerminal (if inApproved first then approved else denied) = true)
    by (destruct (inApproved first); reflexivity).
  split; [| exact Hterm].
  apply decideApproval_terminal; [| exact Hterm].
  rewrite Hid. cbn. apply lookup_insert_eq.
Qed.

Lemma decide_only_once_witness :
  let db' := snd (decideApproval approveInput 1771761700000 pendingDatabase) in
  decideApproval denyInput 1771761800000 db'
  = (NotOk (js "Approval already approved."), db').
Proof.
  cbv zeta.
  destruct (decideApproval approveInput 1771761700000 pendingDatabase)
    as [[why | decided] db'] eqn:Hfirst.
  - vm_compute in Hfirst. discriminate Hfirst.
  - destruct (decide_only_once pendingDatabase approveInput denyInput
                1771761700000 1771761800000 eq_refl decided db' Hfirst) as [H _].
    assert (Hs : status decided = approved)
      by (vm_compute in Hfirst; injection Hfirst as <- _; reflexivity).
    rewrite Hs in H. exact H.
Defined.

(** X3. A decision that arrives after the expiry is not taken: the call, run
    without interruption, makes the approval [expired], decided by "system",
    tells the caller "Approval already expired.", and writes no audit event on
    this path. *)
Theorem decide_after_expiry (db : Database) (input : DecideInput) (now : Z)
    (current : ToolApproval)
    (Hrow : toolApprovals db !! inApprovalId input = Some current)
    (Hkey : approvalId current = inApprovalId input)
    (Hpending : status current = requested)
    (Hexpired : expiresAt current < now) :
  exists updated db',
    decideApproval input now db = (NotOk (js "Approval already expired."), db')
    /\ toolApprovals db' = <[inApprovalId input := updated]> (toolApprovals db)
    /\ status updated = expired
    /\ reason updated = Some (js "Approval expired")
    /\ decidedBy updated = Some (js "system")
    /\ decidedAt updated = Some now
    /\ auditEvents db' = auditEvents db.
Proof.
  unfold decideApproval, decideApprovalAfterRead, getToolApproval. rewrite Hrow, Hpending.
  assert ((expiresAt current <? now) = true) as -> by (apply Z.ltb_lt; lia).
  unfold expirePendingApproval. rewrite Hkey, Hrow, Hpending. cbn.
  eexists _, _. repeat split.
Qed.

Lemma decide_after_expiry_witness :
  fst (decideApproval approveInput 1771762000000 pendingDatabase)
  = NotOk (js "Approval already expired.").
Proof.
  destruct (decide_after_expiry pendingDatabase approveInput 1771762000000 pendingSample
              eq_refl eq_refl eq_refl ltac:(vm_compute; reflexivity))
    as (updated & db' & Hd & _).
  rewrite Hd. reflexivity.
Defined.

(** X4. The job of the timeout worker, run without interruption, does nothing
    unless the approval is pending and its expiry is not in the future; then
    it expires the approval and appends one [approval.expired] event.  After
    it has expired an approval, running it again changes nothing.  At the
    very instant of the expiry the job expires an approval that
    [decideApproval] would still decide. *)
Theorem timeout_job_behaviour (db : Database) (id correlationId : jsstring) (now : Z) :
  (forall approval,
     toolApprovals db !! id = Some approval ->
     status approval <> requested \/ now < expiresAt approval ->
     approvalTimeoutJob id correlationId now db = db)
  /\ (toolApprovals db !! id = None -> approvalTimeoutJob id correlationId now db = db)
  /\ (forall approval,
        toolApprovals db !! id = Some approval ->
        approvalId approval = id ->
        status approval = requested ->
        expiresAt approval <= now ->
        let db' := approvalTimeoutJob id correlationId now db in
        (exists updated event,
           toolApprovals db' = <[id := updated]> (toolApprovals db)
           /\ status updated = expired
           /\ decidedBy updated = Some (js "system")
           /\ auditEvents db' = auditEvents db ++ [event]
           /\ eventType event = js "approval.expired")
        /\ (forall later, approvalTimeoutJob id correlationId later db' = db')
        /\ (expiresAt approval = now ->
            forall input, inApprovalId input = id ->
                          exists decided db2, decideApproval input now db = (Ok decided, db2))).
Proof.
  split; [| split].
  - intros approval Hrow Hcase. unfold approvalTimeoutJob, approvalTimeoutJobAfterRead, getToolApproval. rewrite Hrow.
    destruct (status approval) eqn:Hst; try reflexivity.
    destruct Hcase as [Hne | Hfuture]; [congruence |].
    assert ((now <? expiresAt approval) = true) as -> by (apply Z.ltb_lt; lia).
    reflexivity.
  - intros Hnone. unfold approvalTimeoutJob, approvalTimeoutJobAfterRead, getToolApproval. rewrite Hnone. reflexivity.
  - intros approval Hrow Hkey Hpending Hdue db'. subst db'.
    unfold approvalTimeoutJob, approvalTimeoutJobAfterRead, getToolApproval. rewrite Hrow, Hpending.
    assert ((now <? expiresAt approval) = false) as -> by (apply Z.ltb_ge; lia).
    unfold expirePendingApproval. rewrite Hkey, Hrow, Hpending.
    cbn -[Audit.createAuditHash ISODate.toISOString].
    split; [| split].
    + eexists _, _. repeat split.
    + intros later. rewrite lookup_insert_eq. reflexivity.
    + intros Hnow input Hid.
      destruct (decideApproval_decides db input now approval) as (u & d2 & e & Hd & _);
        [rewrite Hid; exact Hrow | exact Hpending | lia |].
      exists u, d2. exact Hd.
Qed.

(** X5. Insert and lookup: a new approval is found again under its identifier
    and leaves the other approvals as they were; a second approval with an
    identifier already present is refused and changes nothing. *)
Theorem create_then_get (db : Database) (record : ToolApproval) :
  (toolApprovals db !! approvalId record = None ->
   exists db',
     createToolApproval record db = (Return record, db')
     /\ getToolApproval (approvalId record) db' = Some record
     /\ (forall other, other <> approvalId record ->
                       getToolApproval other db' = getToolApproval other db)
     /\ auditEvents db' = auditEvents db)
  /\ (forall existing,
        toolApprovals db !! approvalId record = Some existing ->
        exists message, createToolApproval record db = (Throw message, db)).
Proof.
  split.
  - intros Hnone. unfold createToolApproval. rewrite Hnone. eexists. split; [reflexivity |].
    unfold getToolApproval. cbn. rewrite lookup_insert_eq.
    repeat split. intros other Hne. rewrite lookup_insert_ne by congruence. reflexivity.
  - intros existing Hsome. unfold createToolApproval. rewrite Hsome. eexists. reflexivity.
Qed.

End ApprovalDecisions.

(** * The audit chain as a chain *)

Section AuditChainFacts.
Import Audit AuditChain.




Lemma nondecreasing_snoc (floor : Z) (instants : list Z) (t : Z) :
  nondecreasing floor (instants ++ [t])
  = nondecreasing floor instants && (default floor (last instants) <=? t).
Proof.
  revert floor. induction instants as [|x rest IH]; intros floor.
  - cbn. rewrite andb_true_r. reflexivity.
  - cbn [app nondecreasing]. rewrite IH, andb_assoc. f_equal.
    destruct rest as [|y rest']; [reflexivity |]. rewrite last_cons_cons.
    destruct (last (y :: rest')) eqn:E; [reflexivity |].
    apply last_None in E. discriminate.
Qed.





End AuditChainFacts.

(** * Ingestion of updates *)

Section IngestionFacts.
Import Updates Ingestion.

(** X7. An update is stored once: the first insertion creates the row in status
    [received]; every later insertion of the same identifier, whatever its
    payload and whatever has happened to the row since, reports that nothing
    was inserted, returns the stored row and leaves the store as it is. *)
Theorem insert_update_once (updateId : Z) (body : json Z) (now : Z) (db : Database) :
  let result := tryInsertProcessedUpdate updateId body now db in
  let id := stringOfInt updateId in
  (processedUpdates db !! id = None ->
   fst (fst result) = true
   /\ getProcessedUpdateById updateId (snd result)
      = Some {| telegramUpdateId := id; rawUpdateJson := body; updateStatus := received;
                receivedAt := now; handledAt := None; error := None |}
   /\ snd (fst result) = getProcessedUpdateById updateId (snd result)
   /\ (forall other, other <> id ->
         processedUpdates (snd result) !! other = processedUpdates db !! other))
  /\ (forall existing,
        processedUpdates db !! id = Some existing ->
        result = ((false, Some existing), db))
  /\ (forall body' later,
        fst (tryInsertProcessedUpdate updateId body' later (snd result))
        = (false, getProcessedUpdateById updateId (snd result))
        /\ snd (tryInsertProcessedUpdate updateId body' later (snd result)) = snd result).
Proof.
  intros result id. subst result. unfold tryInsertProcessedUpdate, getProcessedUpdateById.
  fold id. destruct (processedUpdates db !! id) as [existing|] eqn:Hrow.
  - split; [discriminate |]. split.
    + intros e [= <-]. reflexivity.
    + intros body' later. cbn [snd fst]. rewrite Hrow. split; reflexivity.
  - split; [| split].
    + intros _. cbn [fst snd withUpdates processedUpdates]. rewrite lookup_insert_eq.
      repeat split. intros other Hne. rewrite lookup_insert_ne by congruence. reflexivity.
    + discriminate.
    + intros body' later. cbn [fst snd withUpdates processedUpdates].
      rewrite lookup_insert_eq. split; reflexivity.
Qed.

Lemma addJob_once (jobId : jsstring) (jobs : list jsstring) :
  NoDup jobs -> NoDup (addJob jobId jobs) /\ jobId ∈ addJob jobId jobs.
Proof.
  intros Hnd. unfold addJob. destruct (bool_decide (jobId ∈ jobs)) eqn:E.
  - apply bool_decide_eq_true_1 in E. split; assumption.
  - apply bool_decide_eq_false_1 in E. split.
    + apply NoDup_app. repeat split; try assumption.
      * intros x Hx Hx'. apply list_elem_of_singleton in Hx'. subst. contradiction.
      * apply NoDup_singleton.
    + apply elem_of_app. right. left.
Qed.

(** X8. The webhook is idempotent per update: the first delivery stores the
    update and, when the queue can be reached, leaves it [enqueued] with the
    job [update-<id>]; when the queue cannot be reached the update stays
    [received] with the error, for the recovery sweep.  Every later delivery
    of the same update is answered as a duplicate and changes neither the
    store nor the queue. *)
Theorem webhook_delivers_once (queueUp : bool) (updateId : Z) (body : json Z) (now : Z)
    (db : Database) (jobs : list jsstring) :
  let id := stringOfInt updateId in
  let first := handleWebhook queueUp updateId body now (db, jobs) in
  (processedUpdates db !! id = None ->
   fst first = Accepted
   /\ (exists row,
         processedUpdates (fst (snd first)) !! id = Some row
         /\ rawUpdateJson row = body
         /\ receivedAt row = now
         /\ updateStatus row = (if queueUp then enqueued else received)
         /\ (queueUp = false -> error row <> None))
   /\ (queueUp = true -> updateJobId updateId ∈ snd (snd first))
   /\ (queueUp = false -> snd (snd first) = jobs))
  /\ (is_Some (processedUpdates db !! id) -> first = (Duplicate, (db, jobs)))
  /\ (forall queueUp' body' later,
        handleWebhook queueUp' updateId body' later (snd first)
        = (Duplicate, snd first)).
Proof.
  intros id first. subst first. unfold handleWebhook, tryInsertProcessedUpdate.
  fold id. cbn [fst snd]. destruct (processedUpdates db !! id) as [existing|] eqn:Hrow.
  - split; [discriminate |]. split; [reflexivity |].
    intros q b l. cbn [fst snd]. rewrite Hrow. reflexivity.
  - assert (Hmark : forall st err t,
              processedUpdates
                (markProcessedUpdateStatus updateId st err t
                   (withUpdates db
                      (<[id := {| telegramUpdateId := id; rawUpdateJson := body;
                                  updateStatus := received; receivedAt := now;
                                  handledAt := None; error := None |}]>
                         (processedUpdates db)))) !! id
              = Some {| telegramUpdateId := id; rawUpdateJson := body;
                        updateStatus := st; receivedAt := now;
                        handledAt := match st with
                                     | processed | update_failed => Some t
                                     | _ => None
                                     end;
                        error := err |}).
    { intros st err t. unfold markProcessedUpdateStatus. fold id.
      cbn [withUpdates processedUpdates]. rewrite lookup_insert_eq.
      cbn [withUpdates processedUpdates]. rewrite lookup_insert_eq. reflexivity. }
    split; [| split].
    + intros _. unfold enqueuePersistedUpdate, enqueueUpdate. cbn [fst snd].
      destruct queueUp; cbn [fst snd]; rewrite Hmark; repeat split.
      * eexists. repeat split. discriminate.
      * intros _. unfold addJob. destruct (bool_decide _) eqn:E.
        -- apply bool_decide_eq_true_1 in E. exact E.
        -- apply elem_of_app. right. left.
      * discriminate.
      * eexists. repeat split. intros _. discriminate.
      * discriminate.
    + intros [x Hx]. discriminate.
    + intros q b l. unfold enqueuePersistedUpdate, enqueueUpdate. cbn [fst snd].
      destruct queueUp; cbn [fst snd]; rewrite Hmark; reflexivity.
Qed.

End IngestionFacts.

Section RecoveryListing.
Import Updates Ingestion.

Lemma insertByReceivedAt_perm (row : ProcessedUpdate) (sorted : list ProcessedUpdate) :
  insertByReceivedAt row sorted ≡ₚ row :: sorted.
Proof.
  induction sorted as [|first rest IH]; cbn [insertByReceivedAt]; [reflexivity |].
  destruct (receivedAt row <? receivedAt first); [reflexivity |].
  rewrite IH. apply Permutation_swap.
Qed.

Lemma sortByReceivedAt_perm (rows : list ProcessedUpdate) : sortByReceivedAt rows ≡ₚ rows.
Proof.
  induction rows as [|row rows IH]; [reflexivity |].
  unfold sortByReceivedAt in *. cbn [fold_right].
  rewrite insertByReceivedAt_perm, IH. reflexivity.
Qed.

Lemma insertByReceivedAt_sorted (row : ProcessedUpdate) (sorted : list ProcessedUpdate) :
  StronglySorted receivedBefore sorted ->
  StronglySorted receivedBefore (insertByReceivedAt row sorted).
Proof.
  induction sorted as [|first rest IH]; intros Hs; cbn [insertByReceivedAt].
  - repeat constructor.
  - apply StronglySorted_inv in Hs as [Hrest Hall].
    destruct (receivedAt row <? receivedAt first) eqn:E.
    + apply Z.ltb_lt in E. constructor.
      * constructor; assumption.
      * constructor; [unfold receivedBefore; lia |].
        eapply Forall_impl; [exact Hall |]. unfold receivedBefore. intros; lia.
    + apply Z.ltb_ge in E. constructor; [apply IH, Hrest |].
      rewrite insertByReceivedAt_perm. constructor; [exact E | exact Hall].
Qed.

Lemma sortByReceivedAt_sorted (rows : list ProcessedUpdate) :
  StronglySorted receivedBefore (sortByReceivedAt rows).
Proof.
  induction rows as [|row rows IH]; [constructor |].
  unfold sortByReceivedAt in *. cbn [fold_right]. apply insertByReceivedAt_sorted, IH.
Qed.

Lemma received_rows_spec (db : Database) (row : ProcessedUpdate) :
  row ∈ sortByReceivedAt
          (filter (fun row => isReceived row = true)
                  (map snd (map_to_list (processedUpdates db))))
  <-> (exists key, processedUpdates db !! key = Some row) /\ updateStatus row = received.
Proof.
  rewrite sortByReceivedAt_perm, list_elem_of_filter, list_elem_of_fmap.
  unfold isReceived. split.
  - intros [Hst [[key r] [-> Hin]]]. apply elem_of_map_to_list in Hin. split.
    + exists key. exact Hin.
    + cbn [snd] in *. destruct (updateStatus r); try discriminate. reflexivity.
  - intros [[key Hrow] Hst]. split; [rewrite Hst; reflexivity |].
    exists (key, row). split; [reflexivity |]. apply elem_of_map_to_list. exact Hrow.
Qed.

(** X9. The recovery listing: at most [limit] entries, each the identifier and
    arrival time of a stored row in status [received], in order of arrival;
    a [received] row that is left out arrived no earlier than every listed
    one, and nothing is left out when the listing is shorter than [limit]. *)
Theorem recovery_listing_oldest_received (limit : nat) (db : Database) :
  let listing := listReceivedUpdatesForEnqueueRecovery limit db in
  (length listing <= limit)%nat
  /\ StronglySorted (fun a b => snd a <= snd b) listing
  /\ (forall entry, entry ∈ listing ->
        exists key row, processedUpdates db !! key = Some row
                        /\ updateStatus row = received
                        /\ entry = (telegramUpdateId row, receivedAt row))
  /\ (forall key row,
        processedUpdates db !! key = Some row ->
        updateStatus row = received ->
        (telegramUpdateId row, receivedAt row) ∈ listing
        \/ (length listing = limit
            /\ forall entry, entry ∈ listing -> snd entry <= receivedAt row)).
Proof.
  intros listing. subst listing. unfold listReceivedUpdatesForEnqueueRecovery.
  set (rows := sortByReceivedAt _).
  assert (Hsorted : StronglySorted receivedBefore rows) by apply sortByReceivedAt_sorted.
  assert (Hspec : forall row, row ∈ rows <->
            (exists key, processedUpdates db !! key = Some row)
            /\ updateStatus row = received) by apply received_rows_spec.
  clearbody rows. split; [| split; [| split]].
  - rewrite length_map, length_take. lia.
  - rewrite <- (take_drop limit rows) in Hsorted.
    apply StronglySorted_app_1_l in Hsorted.
    induction Hsorted as [|a l Hl IH Hall]; cbn [map]; constructor; [exact IH |].
    apply Forall_fmap. eapply Forall_impl; [exact Hall |]. intros b Hb. exact Hb.
  - intros entry Hin. apply list_elem_of_fmap in Hin as [row [-> Hin]].
    apply elem_of_take in Hin as [i [Hi _]]. apply list_elem_of_lookup_2 in Hi.
    apply Hspec in Hi as [[key Hrow] Hst]. exists key, row. repeat split; assumption.
  - intros key row Hrow Hst.
    assert (Hin : row ∈ rows) by (apply Hspec; split; [exists key; exact Hrow | exact Hst]).
    rewrite <- (take_drop limit rows) in Hin, Hsorted.
    apply elem_of_app in Hin as [Hin | Hin].
    + left. apply list_elem_of_fmap. exists row. split; [reflexivity | exact Hin].
    + right. split.
      * rewrite length_map, length_take.
        destruct (decide (limit <= length rows)%nat) as [Hle | Hgt]; [lia |].
        rewrite drop_ge in Hin by lia. inversion Hin.
      * intros entry He. apply list_elem_of_fmap in He as [r [-> Hr]]. cbn [snd].
        exact (StronglySorted_app_1_elem_of _ _ _ _ _ Hsorted Hr Hin).
Qed.

End RecoveryListing.

(** * Rate-limit decisions and notices *)

Section DecisionShape.
Import RateLimit.
Context (R : Redis).


Lemma incrementCounter_count_nonneg (now : Z) (key : jsstring) (ttl : Z)
    (st st' : RState R) (counter : CounterResult) :
  incrementCounter R now key ttl st = (Return counter, st') ->
  0 <= count counter /\ 1 <= ttlSeconds counter.
Proof.
  unfold incrementCounter, bind, redis_eval, ret, throw.
  destruct (evalIncrWithTtl R now key (asPositiveInt ttl) st) as [[e | reply] st1];
    [discriminate |].
  destruct reply as [[| item0 [| item1 rest]] |]; try discriminate.
  intros [= <- _]. cbn [count ttlSeconds]. lia.
Qed.

(** X10. Whatever the store answers, a decision of [checkUserTurnQuota] is well
    formed: it carries the tier of the user; an allowed one asks for no
    wait; a denied one names the burst, minute or daily limit and asks for a
    wait of at least one second; the daily figures are present exactly on
    the decisions taken at the daily counter, where the use exceeds the
    limit on a denial and stays within it otherwise, and the wait of a daily
    denial is the time to the next UTC midnight in whole seconds, rounded
    up. *)
Theorem user_decision_well_formed (config : RateLimitConfig) (clock : Clock)
    (telegramUserId : jsstring) (st : RState R) :
  let d := fst (checkUserTurnQuota R config clock telegramUserId st) in
  let limits := getTierLimits (getTierForUser telegramUserId config) config in
  tier d = getTierForUser telegramUserId config
  /\ (allowed d = true ->
      retryAfterSeconds d = 0
      /\ (reason d = reason_allowed \/ reason d = rate_limit_storage_error))
  /\ (allowed d = false ->
      1 <= retryAfterSeconds d
      /\ (reason d = user_burst \/ reason d = user_minute \/ reason d = user_daily))
  /\ (reason d = user_daily ->
      exists used,
        dailyUsed d = Some used /\ dailyLimit d = Some (dailyMax limits)
        /\ dailyMax limits < used
        /\ (exists midnight,
              resetsAtUtc d = Some midnight
              /\ midnight mod 86400000 = 0
              /\ atDaily clock < midnight <= atDaily clock + 86400000
              /\ 1000 * (retryAfterSeconds d - 1) < midnight - atDaily clock
                 <= 1000 * retryAfterSeconds d))
  /\ (reason d = reason_allowed ->
      exists used,
        dailyUsed d = Some used /\ dailyLimit d = Some (dailyMax limits)
        /\ 0 <= used <= dailyMax limits)
  /\ (reason d <> user_daily -> reason d <> reason_allowed ->
      dailyUsed d = None /\ dailyLimit d = None /\ resetsAtUtc d = None).
Proof.
  intros d limits. subst d.
  unfold checkUserTurnQuota, tryCatch, checkUserTurnQuota_try, bind. fold limits.
  destruct (incrementCounter R (atBurst clock) _ _ st) as [[e1 | c1] st1] eqn:H1;
    cbn [fst].
  { cbn. repeat split; try discriminate; auto; try congruence. }
  destruct (burstMax limits <? count c1) eqn:Eb.
  { cbn. repeat split; try discriminate; auto; try congruence; lia. }
  destruct (incrementCounter R (atMinute clock) _ _ st1) as [[e2 | c2] st2] eqn:H2.
  { cbn. repeat split; try discriminate; auto; try congruence. }
  destruct (minuteMax limits <? count c2) eqn:Em.
  { cbn. repeat split; try discriminate; auto; try congruence; lia. }
  destruct (incrementCounter R (atDaily clock) _ _ st2) as [[e3 | c3] st3] eqn:H3.
  { cbn. repeat split; try discriminate; auto; try congruence. }
  apply incrementCounter_count_nonneg in H3 as [Hc3 _].
  set (now := atDaily clock).
  assert (Hday : 0 < UTCDate.MS_PER_DAY) by reflexivity.
  assert (Hval : UTCDate.MS_PER_DAY = 86400000) by reflexivity.
  pose proof (Z.mod_pos_bound now UTCDate.MS_PER_DAY Hday) as Hmod.
  pose proof (Z.div_mod now UTCDate.MS_PER_DAY ltac:(lia)) as Hdiv.
  set (midnight := (now / UTCDate.MS_PER_DAY + 1) * UTCDate.MS_PER_DAY).
  assert (Hmid : now < midnight <= now + 86400000) by (subst midnight; lia).
  assert (Hmid0 : midnight mod 86400000 = 0)
    by (subst midnight; rewrite Hval; apply Z.mod_mul; lia).
  set (q := (midnight - now + 999) / 1000).
  assert (Hq : 1000 * (q - 1) < midnight - now <= 1000 * q).
  { pose proof (Z.div_mod (midnight - now + 999) 1000 ltac:(lia)) as Hd.
    pose proof (Z.mod_pos_bound (midnight - now + 999) 1000 ltac:(lia)) as Hm.
    subst q. lia. }
  destruct (dailyMax limits <? count c3) eqn:Ed.
  - apply Z.ltb_lt in Ed.
    cbn [fst ret allowed reason retryAfterSeconds tier dailyUsed dailyLimit resetsAtUtc
         deniedDecision fmap option_fmap option_map getUtcDailyWindow secondsUntilReset
         windowResetsAtUtc].
    fold now. fold midnight. fold q.
    repeat split; try discriminate; auto; try congruence; try lia.
    intros _. exists (count c3). repeat split; try assumption.
    exists midnight. repeat split; try assumption; try lia.
  - apply Z.ltb_ge in Ed.
    cbn [fst ret allowed reason retryAfterSeconds tier dailyUsed dailyLimit resetsAtUtc
         allowedDecision fmap option_fmap option_map getUtcDailyWindow secondsUntilReset
         windowResetsAtUtc].
    repeat split; try discriminate; auto; try congruence.
    intros _. exists (count c3). repeat split; try assumption.
Qed.

(** X11. The same for [checkChatSpamLimit]: an allowed decision asks for no
    wait, a denied one has the reason [chat_flood] and a wait of at least one
    second, and no decision on a chat carries daily figures. *)
Theorem chat_decision_well_formed (config : RateLimitConfig) (now : Z)
    (telegramChatId telegramUserId : jsstring) (st : RState R) :
  let d := fst (checkChatSpamLimit R config now telegramChatId telegramUserId st) in
  tier d = getTierForUser telegramUserId config
  /\ (allowed d = true ->
      retryAfterSeconds d = 0
      /\ (reason d = reason_allowed \/ reason d = rate_limit_storage_error))
  /\ (allowed d = false -> 1 <= retryAfterSeconds d /\ reason d = chat_flood)
  /\ dailyUsed d = None /\ dailyLimit d = None /\ resetsAtUtc d = None.
Proof.
  intros d. subst d. unfold checkChatSpamLimit, tryCatch, checkChatSpamLimit_try, bind.
  destruct (incrementCounter R now _ _ st) as [[e1 | c1] st1] eqn:H1; cbn [fst].
  { cbn. repeat split; try discriminate; auto. }
  destruct (chatMinuteMax config <? count c1).
  - cbn. repeat split; try discriminate; auto; lia.
  - cbn. repeat split; try discriminate; auto.
Qed.

End DecisionShape.

Section NoticeCooldown.
Import RateLimit RedisServer Notice.

(** X12. A notice is sent at most once per cooldown: when
    [shouldSendRateLimitNotice] has answered yes at an instant, it answers
    no, and leaves the store as it is, until the cooldown has run out, and
    yes again after that. *)
Theorem notice_cooldown (config : RateLimitConfig) (telegramUserId : jsstring)
    (reason : RateLimitReason) (sentAt : Z) (st : Store) :
  1 <= noticeCooldownSeconds config ->
  let first := shouldSendRateLimitNotice config sentAt telegramUserId reason st in
  (fst first = true
   <-> liveEntry sentAt st (noticeKey telegramUserId reason) = None)
  /\ (fst first = true ->
      forall now,
        sentAt <= now ->
        (now <= sentAt + 1000 * noticeCooldownSeconds config ->
         shouldSendRateLimitNotice config now telegramUserId reason (snd first)
         = (false, snd first))
        /\ (sentAt + 1000 * noticeCooldownSeconds config < now ->
            fst (shouldSendRateLimitNotice config now telegramUserId reason (snd first))
            = true)).
Proof.
  intros Hpos first. subst first.
  unfold shouldSendRateLimitNotice, tryCatch, SET_NX_EX.
  destruct (noticeCooldownSeconds config <=? 0) eqn:E; [apply Z.leb_le in E; lia |].
  set (key := noticeKey telegramUserId reason).
  destruct (liveEntry sentAt st key) as [e |] eqn:Hlive; cbn [fst snd].
  - split; [split; discriminate | discriminate].
  - split; [split; reflexivity |]. intros _ now Hnow.
    unfold liveEntry. rewrite !lookup_insert_eq. cbn [expireAtMs].
    split; intros Hwhen.
    + assert ((sentAt + noticeCooldownSeconds config * 1000 <? now) = false) as ->
        by (apply Z.ltb_ge; lia).
      reflexivity.
    + assert ((sentAt + noticeCooldownSeconds config * 1000 <? now) = true) as ->
        by (apply Z.ltb_lt; lia).
      reflexivity.
Qed.

Lemma notice_cooldown_witness :
  shouldSendRateLimitNotice defaultConfig 1771761605000 (js "42") user_burst
    (snd (shouldSendRateLimitNotice defaultConfig 1771761600000 (js "42") user_burst ∅))
  = (false,
     snd (shouldSendRateLimitNotice defaultConfig 1771761600000 (js "42") user_burst ∅)).
Proof.
  apply (proj2 (notice_cooldown defaultConfig (js "42") user_burst 1771761600000 ∅
                  ltac:(vm_compute; discriminate)) eq_refl 1771761605000).
  - vm_compute; discriminate.
  - vm_compute; discriminate.
Defined.

End NoticeCooldown.

(** * The text of a resolved response *)

Section ResponseText.
Import JS ResponsePolicy.
Context {num : Type}.

Lemma join_nonempty (sep first : jsstring) (rest : list jsstring) :
  first <> [] -> join sep (first :: rest) <> [].
Proof.
  intros Hne. destruct (join_head sep first rest) as [tail ->].
  destruct first; [contradiction | discriminate].
Qed.

Lemma buildContextAwareCompletionText_nonempty (input : TurnResponseInput num)
    (requestTopic : option jsstring) :
  buildContextAwareCompletionText input requestTopic <> [].
Proof.
  unfold buildContextAwareCompletionText.
  destruct (0 <? length (toolResults input))%nat.
  - apply join_nonempty. destruct requestTopic; discriminate.
  - destruct requestTopic; discriminate.
Qed.

(** X13. The reply is never empty.  While approvals are pending it ends with a
    pending notice, the one for a further protected action when the status
    was forced.  A model text that is not empty, and not a trivial completion
    phrase, is kept whenever the status is not forced: the reply is that
    text, trimmed, followed by the pending notice if approvals are pending,
    and by nothing otherwise. *)
Theorem response_text_shape (input : TurnResponseInput num) :
  let r := resolveTurnResponseText input in
  let modelText := trimmedText input in
  text r <> []
  /\ (0 < approvalsCount input ->
      exists body,
        body <> []
        /\ text r = body ++ (if forcedApprovedStatus r
                             then NEXT_APPROVAL_PENDING_SUFFIX
                             else APPROVAL_PENDING_SUFFIX))
  /\ (forcedApprovedStatus r = false ->
      modelText <> [] ->
      hasTrivialCompletionOf modelText = false ->
      text r = modelText ++ (if 0 <? approvalsCount input
                             then APPROVAL_PENDING_SUFFIX else [])).
Proof.
  intros r modelText. subst r. unfold resolveTurnResponseText. fold modelText.
  assert (Hstatus : buildApprovedExecutionStatusText (toolResults input) <> []).
  { destruct (buildApprovedExecutionStatusText_prefix (toolResults input)) as [rest ->].
    discriminate. }
  assert (Hlen : forall s : jsstring, (0 <? length s)%nat = true <-> s <> []).
  { intros s. destruct s; cbn; split; try congruence; try discriminate; auto. }
  assert (Happ : forall a b : jsstring, a <> [] -> a ++ b <> []).
  { intros a b Ha Hab. apply app_eq_nil in Hab as [? _]. contradiction. }
  destruct (approvalWasGranted input
            && ((length modelText =? 0)%nat || hasPlainTextApprovalRequest modelText
                || hasTrivialCompletionOf modelText)) eqn:Hforce.
  - cbn [text forcedApprovedStatus]. split; [| split].
    + destruct (0 <? approvalsCount input); [apply Happ |]; exact Hstatus.
    + intros Hpending. apply Z.ltb_lt in Hpending. rewrite Hpending.
      eexists. split; [exact Hstatus | reflexivity].
    + discriminate.
  - destruct ((0 <? length modelText)%nat && negb (hasTrivialCompletionOf modelText))
      eqn:Hkeep.
    + apply andb_true_iff in Hkeep as [Hne Htriv]. apply Hlen in Hne.
      cbn [text forcedApprovedStatus]. split; [| split].
      * destruct (0 <? approvalsCount input); [apply Happ |]; exact Hne.
      * intros Hpending. apply Z.ltb_lt in Hpending. rewrite Hpending.
        eexists. split; [exact Hne | reflexivity].
      * intros _ _ _. destruct (0 <? approvalsCount input); [reflexivity |].
        rewrite app_nil_r. reflexivity.
    + assert (Hout : modelText <> [] -> hasTrivialCompletionOf modelText = false -> False).
      { intros Hne Htriv. apply Hlen in Hne. rewrite Hne, Htriv in Hkeep. discriminate. }
      destruct (0 <? approvalsCount input) eqn:Hpending; cbn [text forcedApprovedStatus].
      * split; [| split].
        -- apply Happ. destruct (requestTopicOf input); discriminate.
        -- intros _. eexists. split; [| reflexivity].
           destruct (requestTopicOf input); discriminate.
        -- intros _ Hne Htriv. destruct (Hout Hne Htriv).
      * split; [| split].
        -- apply buildContextAwareCompletionText_nonempty.
        -- intros Hp. apply Z.ltb_lt in Hp. congruence.
        -- intros _ Hne Htriv. destruct (Hout Hne Htriv).
Qed.

End ResponseText.

(** * One stream per turn *)

Section OneStream.
Import Agent AgentAnswer.

(** X14. Whatever the providers do, the deltas that reach the user during a turn
    are those of one attempt only, the last one started, and at most the two
    attempts built are started, the primary first.  A result is the result of
    that attempt: its provider and model, its messages and its answer; it is
    marked as a fallback exactly when the attempt is the gateway's, and only
    then does it carry an error message of the primary. *)
Theorem one_stream_reaches_the_user (env : Env) (requestedModelId : jsstring) :
  let result := executeWithProviderFallback env requestedModelId in
  let attempts := buildAgentModelAttempts env requestedModelId in
  exists attempt,
    attempt ∈ attempts
    /\ last (started (snd result)) = Some (provider attempt)
    /\ (started (snd result) = [openrouter]
        \/ started (snd result) = [openrouter; ai_gateway])
    /\ emitted (snd result) = textDeltas (chunks (model attempt))
    /\ forall r,
         fst result = Return r ->
         resProvider r = provider attempt
         /\ resModelId r = modelId attempt
         /\ (usedFallback r = true <-> provider attempt = ai_gateway)
         /\ (primaryErrorMessage r <> None -> usedFallback r = true)
         /\ exists streamText,
              ending (model attempt) = StreamCompletes streamText (responseMessages r)
              /\ responseText r = answerOf attempt streamText.
Proof.
  intros result attempts. subst result attempts.
  unfold executeWithProviderFallback, buildAgentModelAttempts, answerOf.
  fold (primaryModelId env requestedModelId).
  set (primary := {| provider := openrouter;
                     modelId := primaryModelId env requestedModelId;
                     model := openRouterModel env (primaryModelId env requestedModelId) |}).
  set (fallback := {| provider := ai_gateway; modelId := _; model := _ |}).
  destruct (AI_GATEWAY_API_KEY env) as [[| c key] |];
    cbn [app length Nat.ltb Nat.leb attemptsFrom];
    rewrite ?consume_spec; cbn [app Nat.eqb started emitted orb].
  1, 3:
    exists primary;
    destruct (ending (model primary)) as [error | streamText messages] eqn:Hend;
    cbn [fst snd started emitted app last];
    (split; [left |]); (split; [reflexivity |]); (split; [left; reflexivity |]);
    (split; [reflexivity |]); intros r Hr; [discriminate Hr |];
    injection Hr as <-;
    cbn [resProvider resModelId usedFallback primaryErrorMessage responseText
         responseMessages Nat.ltb Nat.leb];
    (repeat split; try discriminate; try congruence);
    exists streamText; (split; [reflexivity |]);
    destruct (0 <? length (JS.trim streamText))%nat; reflexivity.
  destruct (ending (model primary)) as [error | streamText messages] eqn:Hend.
  - destruct (bool_decide (textDeltas (chunks (model primary)) = [])) eqn:Hdeltas;
      cbn [negb].
    + apply bool_decide_eq_true_1 in Hdeltas. rewrite Hdeltas.
      cbn [attemptsFrom app started emitted orb]. rewrite ?consume_spec.
      cbn [app started emitted orb].
      exists fallback.
      destruct (ending (model fallback)) as [error' | streamText messages] eqn:Hend';
        cbn [fst snd started emitted app last Nat.eqb];
        (split; [right; left |]); (split; [reflexivity |]);
        (split; [right; reflexivity |]); (split; [reflexivity |]); intros r Hr;
        [discriminate Hr |].
      injection Hr as <-.
      cbn [resProvider resModelId usedFallback primaryErrorMessage responseText
           responseMessages Nat.ltb Nat.leb].
      repeat split; try discriminate; try congruence.
      exists streamText. split; [reflexivity |].
      destruct (0 <? length (JS.trim streamText))%nat; reflexivity.
    + exists primary. cbn [fst snd started emitted app last].
      split; [left |]. split; [reflexivity |]. split; [left; reflexivity |].
      split; [reflexivity |]. intros r Hr. discriminate Hr.
  - exists primary. cbn [fst snd started emitted app last].
    split; [left |]. split; [reflexivity |]. split; [left; reflexivity |].
    split; [reflexivity |]. intros r Hr. injection Hr as <-.
    cbn [resProvider resModelId usedFallback primaryErrorMessage responseText
         responseMessages Nat.ltb Nat.leb].
    repeat split; try discriminate; try congruence.
    exists streamText. split; [exact Hend |].
    destruct (0 <? length (JS.trim streamText))%nat; reflexivity.
Qed.

(** X15. The primary decides alone when it completes, and when no gateway key is
    configured: in both cases it is the only attempt started, and its result
    or its error is the outcome of the turn. *)
Theorem primary_alone (env : Env) (requestedModelId : jsstring) :
  let primary := openRouterModel env (primaryModelId env requestedModelId) in
  let result := executeWithProviderFallback env requestedModelId in
  (forall streamText messages,
     ending primary = StreamCompletes streamText messages ->
     started (snd result) = [openrouter]
     /\ emitted (snd result) = textDeltas (chunks primary)
     /\ exists r, fst result = Return r
                  /\ resProvider r = openrouter
                  /\ resModelId r = primaryModelId env requestedModelId
                  /\ usedFallback r = false
                  /\ primaryErrorMessage r = None
                  /\ responseMessages r = messages)
  /\ (forall error,
        ending primary = StreamFails error ->
        AI_GATEWAY_API_KEY env = None \/ AI_GATEWAY_API_KEY env = Some [] ->
        fst result = Throw error
        /\ started (snd result) = [openrouter]
        /\ emitted (snd result) = textDeltas (chunks primary)).
Proof.
  intros primary result. subst result.
  unfold executeWithProviderFallback, buildAgentModelAttempts.
  fold (primaryModelId env requestedModelId). fold primary. split.
  - intros streamText messages Hend.
    destruct (AI_GATEWAY_API_KEY env) as [[| c key] |];
      cbn [app length Nat.ltb Nat.leb attemptsFrom model chunks provider modelId];
      rewrite consume_spec, Hend; cbn [fst snd started emitted app];
      (repeat split); eexists; repeat split.
  - intros error Hend [Hkey | Hkey]; rewrite Hkey;
      cbn [app length Nat.ltb Nat.leb attemptsFrom model chunks provider modelId];
      rewrite consume_spec, Hend; cbn [fst snd started emitted app Nat.eqb];
      repeat split.
Qed.

End OneStream.

(** * Risk levels and the second tap *)

Section RiskLevels.
Import RiskPolicy Presenter.
Context {num : Type} `{JSNumber num}.
Context (toLowerCase : jsstring -> jsstring).

(** X16. The adjustment of a risk level orders the profiles and keeps the order
    of the base levels: for the same base and value the advanced profile
    never gives a higher level than the balanced one, nor the balanced one a
    higher level than the cautious one, and a higher base never gives a lower
    level.  The value sets a floor: at least 100 TON gives [critical]
    whatever the base and the profile, at least 10 TON gives [high] or more,
    at least 1 TON gives [medium] or more.  The cautious profile never gives
    [low], and below 1 TON the balanced profile returns the base level. *)
Theorem risk_adjustment_ordered (base base' : ApprovalRiskLevel) (profile : RiskProfile)
    (valueTon : option num) :
  let adjusted p b := riskToScore (applyRiskProfileAdjustment b p valueTon) in
  adjusted advanced base <= adjusted balanced base <= adjusted cautious base
  /\ (riskToScore base <= riskToScore base' -> adjusted profile base <= adjusted profile base')
  /\ (valueAtLeast valueTon 100 = true ->
      applyRiskProfileAdjustment base profile valueTon = critical)
  /\ (valueAtLeast valueTon 10 = true -> 2 <= adjusted profile base)
  /\ (valueAtLeast valueTon 1 = true -> 1 <= adjusted profile base)
  /\ applyRiskProfileAdjustment base cautious valueTon <> low
  /\ (valueAtLeast valueTon 100 = false -> valueAtLeast valueTon 10 = false ->
      valueAtLeast valueTon 1 = false ->
      applyRiskProfileAdjustment base balanced valueTon = base).
Proof.
  intros adjusted. subst adjusted. cbv beta.
  split; [| split; [| split; [| split; [| split; [| split]]]]].
  - unfold applyRiskProfileAdjustment.
    destruct (valueAtLeast valueTon 100), (valueAtLeast valueTon 10),
      (valueAtLeast valueTon 1); destruct base; cbv; split; intros ?; discriminate.
  - intros Hle. unfold applyRiskProfileAdjustment.
    destruct (valueAtLeast valueTon 100), (valueAtLeast valueTon 10),
      (valueAtLeast valueTon 1); destruct base, base', profile;
      cbv in Hle |- *; try (intros ?; discriminate); exfalso; apply Hle; reflexivity.
  - intros Hv. unfold applyRiskProfileAdjustment. rewrite Hv.
    destruct base, profile; reflexivity.
  - intros Hv. unfold applyRiskProfileAdjustment. rewrite Hv.
    destruct (valueAtLeast valueTon 100); destruct base, profile;
      cbv; intros ?; discriminate.
  - intros Hv. unfold applyRiskProfileAdjustment. rewrite Hv.
    destruct (valueAtLeast valueTon 100), (valueAtLeast valueTon 10);
      destruct base, profile; cbv; intros ?; discriminate.
  - unfold applyRiskProfileAdjustment.
    destruct (valueAtLeast valueTon 100), (valueAtLeast valueTon 10),
      (valueAtLeast valueTon 1); destruct base; discriminate.
  - intros H100 H10 H1. unfold applyRiskProfileAdjustment. rewrite H100, H10, H1.
    destruct base; reflexivity.
Qed.

Lemma cautious_level_high (base : ApprovalRiskLevel) (valueTon : option num) :
  base <> low ->
  applyRiskProfileAdjustment base cautious valueTon = high
  \/ applyRiskProfileAdjustment base cautious valueTon = critical.
Proof.
  intros Hbase. unfold applyRiskProfileAdjustment.
  destruct (valueAtLeast valueTon 100), (valueAtLeast valueTon 10),
    (valueAtLeast valueTon 1); destruct base; try contradiction;
    first [left; reflexivity | right; reflexivity].
Qed.

(** X17. In cautious mode every approval is confirmed by a second tap, and in
    the other modes none is: no tool has a base risk below [medium], a large
    batch raises it to [critical], and the cautious profile adds one level,
    so the level of a cautious assessment is [high] or [critical] whatever
    the tool and its input. *)
Theorem cautious_means_second_tap (toolName : jsstring) (toolInput : json num)
    (riskProfile : RiskProfile) :
  (cautiousRequiresSecondTap toLowerCase toolName toolInput riskProfile = true
   <-> riskProfile = cautious)
  /\ (riskProfile = cautious ->
      level (assessApproval toLowerCase toolName toolInput riskProfile) = high
      \/ level (assessApproval toLowerCase toolName toolInput riskProfile) = critical).
Proof.
  assert (Hlevel : riskProfile = cautious ->
            level (assessApproval toLowerCase toolName toolInput riskProfile) = high
            \/ level (assessApproval toLowerCase toolName toolInput riskProfile) = critical).
  { intros ->. unfold assessApproval.
    destruct (5 <=? inferBatchItemCount toolInput); cbn [level].
    - apply cautious_level_high. discriminate.
    - apply cautious_level_high. unfold BASE_RISK_BY_TOOL.
      repeat match goal with
             | |- context [decide ?P] => destruct (decide P)
             end; discriminate. }
  split; [| exact Hlevel].
  unfold cautiousRequiresSecondTap, requiresAdditionalCautiousConfirmation. split.
  - destruct riskProfile; [reflexivity | discriminate ..].
  - intros Hc. destruct (Hlevel Hc) as [-> | ->]; rewrite Hc; reflexivity.
Qed.

End RiskLevels.

(** * Approval callbacks *)

Section CallbackData.
Import Approvals Router.

Lemma stripLiteral_spec (literal s rest : jsstring) :
  stripLiteral literal s = Some rest <-> s = literal ++ rest.
Proof.
  revert s. induction literal as [|p literal IH]; intros s; cbn [stripLiteral app].
  - split; [intros [= ->]; reflexivity | intros ->; reflexivity].
  - destruct s as [|c s]; [split; discriminate |].
    destruct (p =? c)%N eqn:E.
    + apply N.eqb_eq in E. subst c. rewrite IH. split; [intros ->; reflexivity |].
      intros [= ->]. reflexivity.
    + apply N.eqb_neq in E. split; [discriminate | intros [= -> _]; contradiction].
Qed.

Lemma spanNotColon_spec (s token rest : jsstring) :
  spanNotColon s = (token, rest) ->
  s = token ++ rest /\ (58%N ∉ token) /\ (rest = [] \/ exists after, rest = 58%N :: after).
Proof.
  revert token rest. induction s as [|c r IH]; intros token rest; cbn [spanNotColon].
  - intros [= <- <-]. split; [reflexivity |]. split; [apply not_elem_of_nil | left; reflexivity].
  - destruct (c =? 58)%N eqn:E.
    + apply N.eqb_eq in E. subst c. intros [= <- <-].
      split; [reflexivity |]. split; [apply not_elem_of_nil |]. right. eexists. reflexivity.
    + apply N.eqb_neq in E. destruct (spanNotColon r) as [token' rest'].
      intros [= <- <-]. destruct (IH token' rest' eq_refl) as (-> & Hno & Hrest).
      split; [reflexivity |]. split; [| exact Hrest].
      intros Hin. apply elem_of_cons in Hin as [Hin | Hin]; [congruence | contradiction].
Qed.

Lemma spanNotColon_app (token after : jsstring) :
  58%N ∉ token -> spanNotColon (token ++ 58%N :: after) = (token, 58%N :: after).
Proof.
  induction token as [|c token IH]; intros Hno; [reflexivity |].
  cbn [app spanNotColon].
  assert (Hc : (c =? 58)%N = false).
  { apply N.eqb_neq. intros ->. apply Hno. left. }
  rewrite Hc, IH; [reflexivity |]. intros Hin. apply Hno. right. exact Hin.
Qed.

Lemma parseAction_spec (s : jsstring) (action : ApprovalCallbackAction) :
  parseAction s = Some action <-> s = actionText action.
Proof.
  unfold parseAction. split.
  - repeat match goal with
           | |- context [decide ?P] => destruct (decide P) as [-> | ?]
           end; intros [= <-]; reflexivity.
  - intros ->. destruct action; reflexivity.
Qed.

Lemma token_chars (randomBytes7 : list N) :
  Forall (fun c => isTokenChar c = true) (createApprovalCallbackToken randomBytes7).
Proof.
  unfold createApprovalCallbackToken. apply Forall_forall. intros c Hc.
  apply elem_of_take in Hc as (i & Hc & _). apply list_elem_of_lookup_2 in Hc.
  apply list_elem_of_filter in Hc as [Hc _]. exact Hc.
Qed.

(** X18. The callback data of a button is read back as it was built.  The
    pattern of the router matches exactly the texts [ap:<token>:<action>]
    whose token is not empty and holds no colon, and returns that token and
    that action; so distinct buttons never collide.  Every token that
    [createApprovalCallbackToken] makes is such a token, whatever the action,
    and its data fits the 64 bytes a button can carry. *)
Theorem callback_data_round_trip :
  (forall data token action,
     matchApprovalCallback data = Some (token, action)
     <-> data = buildApprovalCallbackData token action /\ token <> [] /\ (58%N ∉ token))
  /\ (forall randomBytes7 action,
        length randomBytes7 = 7%nat ->
        Forall (fun b => (b < 256)%N) randomBytes7 ->
        let token := createApprovalCallbackToken randomBytes7 in
        matchApprovalCallback (buildApprovalCallbackData token action) = Some (token, action)
        /\ (length (buildApprovalCallbackData token action) <= 64)%nat).
Proof.
  assert (Hiff : forall data token action,
     matchApprovalCallback data = Some (token, action)
     <-> data = buildApprovalCallbackData token action /\ token <> [] /\ (58%N ∉ token)).
  { intros data token action. unfold matchApprovalCallback, buildApprovalCallbackData. split.
    - destruct (stripLiteral (js "ap:") data) as [rest |] eqn:Hstrip; [| discriminate].
      apply stripLiteral_spec in Hstrip as ->.
      destruct (spanNotColon rest) as [found tail] eqn:Hspan.
      apply spanNotColon_spec in Hspan as (-> & Hno & Htail).
      destruct found as [|c found]; [discriminate |].
      destruct tail as [|colon after]; [discriminate |].
      destruct Htail as [Hnil | [after' [= -> <-]]]; [discriminate |].
      destruct (parseAction after) as [parsed |] eqn:Hparse; [| discriminate].
      intros [= <- <-]. apply parseAction_spec in Hparse as ->.
      split; [| split; [discriminate | exact Hno]].
      reflexivity.
    - intros (-> & Hne & Hno).
      rewrite (proj2 (stripLiteral_spec (js "ap:") _ (token ++ js ":" ++ actionText action))
                 eq_refl).
      change (token ++ js ":" ++ actionText action)
        with (token ++ 58%N :: actionText action).
      rewrite (spanNotColon_app token (actionText action) Hno).
      destruct token as [|c token]; [contradiction |].
      rewrite (proj2 (parseAction_spec (actionText action) action) eq_refl).
      reflexivity. }
  split; [exact Hiff |].
  intros randomBytes7 action Hlen Hbytes token.
  pose proof (token_chars randomBytes7) as Hchars. fold token in Hchars.
  assert (Hno : 58%N ∉ token).
  { intros Hin. apply (proj1 (Forall_forall _ _) Hchars) in Hin. discriminate Hin. }
  assert (Hshort : (length token <= 14)%nat).
  { subst token. unfold createApprovalCallbackToken. rewrite length_take. lia. }
  assert (Hne : token <> []).
  { subst token. unfold createApprovalCallbackToken.
    destruct randomBytes7 as [|b0 [|b1 [|b2 rest]]]; try discriminate.
    apply Forall_cons in Hbytes as [Hb0 _].
    cbn [base64url app]. rewrite filter_cons.
    assert (Hfirst : isTokenChar (base64urlChar (b0 / 4)) = true).
    { apply base64urlChar_isTokenChar. apply N.Div0.div_lt_upper_bound. lia. }
    destruct (decide (isTokenChar (base64urlChar (b0 / 4)%N) = true)); [| contradiction].
    discriminate. }
  split.
  - apply Hiff. repeat split; assumption.
  - unfold buildApprovalCallbackData. rewrite !length_app.
    assert (length (actionText action) <= 7)%nat by (destruct action; cbn; lia).
    cbn [js length]. change (length (js "ap:")) with 3%nat.
    change (length (js ":")) with 1%nat. lia.
Qed.

End CallbackData.

Section SecondTap.
Import RedisServer Router.

(** X19. The second tap: when no confirmation is waiting, a tap is held back and
    leaves a marker; a further tap of the same user on the same approval
    within 30 seconds goes through and removes the marker, so that the tap
    after it is held back again; a tap that comes later than 30 seconds
    after the first is held back like a first one.  No other key of the
    store is touched. *)
Theorem second_tap_within_thirty_seconds (approvalId telegramUserId : jsstring)
    (firstTap : Z) (st : Store) :
  liveEntry firstTap st (confirmKey approvalId telegramUserId) = None ->
  let first := maybeRequireSecondApprovalTap firstTap approvalId telegramUserId st in
  fst first = true
  /\ (forall secondTap,
        firstTap <= secondTap <= firstTap + 30000 ->
        let second :=
          maybeRequireSecondApprovalTap secondTap approvalId telegramUserId (snd first) in
        fst second = false
        /\ forall thirdTap,
             fst (maybeRequireSecondApprovalTap thirdTap approvalId telegramUserId
                    (snd second)) = true)
  /\ (forall lateTap,
        firstTap + 30000 < lateTap ->
        fst (maybeRequireSecondApprovalTap lateTap approvalId telegramUserId (snd first))
        = true)
  /\ (forall key,
        key <> confirmKey approvalId telegramUserId ->
        forall secondTap,
          snd (maybeRequireSecondApprovalTap secondTap approvalId telegramUserId (snd first))
          !! key = st !! key).
Proof.
  intros Hfresh first. subst first. unfold maybeRequireSecondApprovalTap, GET.
  set (key := confirmKey approvalId telegramUserId) in *.
  rewrite Hfresh. cbn [fmap option_fmap option_map fst snd].
  unfold SET_EX, DEL, APPROVAL_CONFIRMATION_TTL_SECONDS.
  split; [reflexivity |]. split; [| split].
  - intros secondTap [Hafter Hbefore]. unfold liveEntry. rewrite lookup_insert_eq.
    cbn [expireAtMs].
    assert ((firstTap + 30 * 1000 <? secondTap) = false) as -> by (apply Z.ltb_ge; lia).
    cbn [fmap option_fmap option_map fst snd]. split; [reflexivity |].
    intros thirdTap. rewrite lookup_delete_eq. reflexivity.
  - intros lateTap Hlate. unfold liveEntry. rewrite lookup_insert_eq. cbn [expireAtMs].
    assert ((firstTap + 30 * 1000 <? lateTap) = true) as -> by (apply Z.ltb_lt; lia).
    reflexivity.
  - intros other Hother secondTap.
    destruct (value <$> liveEntry secondTap _ key); cbn [snd].
    + rewrite lookup_delete_ne by congruence. rewrite lookup_insert_ne by congruence.
      reflexivity.
    + rewrite lookup_insert_ne by congruence. rewrite lookup_insert_ne by congruence.
      reflexivity.
Qed.

Lemma second_tap_within_thirty_seconds_witness :
  fst (maybeRequireSecondApprovalTap 1771761600000 (js "apr_1") (js "2001") ∅) = true
  /\ fst (maybeRequireSecondApprovalTap 1771761610000 (js "apr_1") (js "2001")
            (snd (maybeRequireSecondApprovalTap 1771761600000 (js "apr_1") (js "2001") ∅)))
     = false.
Proof.
  assert (Hfresh : liveEntry 1771761600000 ∅ (confirmKey (js "apr_1") (js "2001")) = None)
    by (unfold liveEntry; rewrite lookup_empty; reflexivity).
  destruct (second_tap_within_thirty_seconds (js "apr_1") (js "2001") 1771761600000 ∅
              Hfresh) as (Hfirst & Hsecond & _).
  split; [exact Hfirst |].
  apply (Hsecond 1771761610000). vm_compute. split; discriminate.
Defined.

End SecondTap.
